(** * PromptEnhancer: chat client, segment formatter and collection store

    A shallow embedding of the logic found in [App.tsx], [PromptForm.tsx]
    and [PromptEnhancer.tsx], followed by the properties established
    about it.

    Conventions.
    - A JavaScript string is a [string]; each [ascii] stands for one code
      unit below 256.
    - A JavaScript number is a binary64 [float]; a cell declared [number]
      that may have been filled by [JSON.parse] holds a float or [null];
      time values (milliseconds since the epoch) are integers and are
      kept in [Z].
    - React state is passed explicitly; host services (fetch, localStorage,
      JSON, crypto.randomUUID, Array.prototype.sort) are modelled by what
      ECMAScript and the web platform prescribe for them. *)

From Stdlib Require Import ZArith NArith String Ascii List Bool Lia PrimFloat.
From Stdlib Require Import Sorting.Sorted Sorting.Permutation.
From stdpp Require Import base option list strings pretty gmap.
Import ListNotations.

Set Warnings "-inexact-float".

Local Open Scope list_scope.
Local Open Scope bool_scope.

(** ** Code units and host string methods *)

Module Text.

Definition units := list ascii.

Definition chars (s : string) : units := list_ascii_of_string s.
Definition str (l : units) : string := string_of_list_ascii l.

Definition code (c : ascii) : N := N_of_ascii c.

(** WhiteSpace and LineTerminator code units below 256 (what
    [String.prototype.trim] strips): TAB, LF, VT, FF, CR, SP, NBSP. *)
Definition is_space (c : ascii) : bool :=
  let n := code c in
  (N.leb 9 n && N.leb n 13) || N.eqb n 32 || N.eqb n 160.

(** The class [\w] without the unicode or ignore-case flags. *)
Definition is_word (c : ascii) : bool :=
  let n := code c in
  (N.leb 48 n && N.leb n 57) || (N.leb 65 n && N.leb n 90)
  || (N.leb 97 n && N.leb n 122) || N.eqb n 95.

Definition newline : ascii := ascii_of_N 10.
Definition backtick : ascii := ascii_of_N 96.

Definition is_newline (c : ascii) : bool := N.eqb (code c) 10.
Definition is_backtick (c : ascii) : bool := N.eqb (code c) 96.

Fixpoint drop_spaces (l : units) : units :=
  match l with
  | c :: l' => if is_space c then drop_spaces l' else l
  | [] => []
  end.

(** [String.prototype.trim]. *)
Definition trim_units (l : units) : units :=
  rev (drop_spaces (rev (drop_spaces l))).

Definition trim (s : string) : string := str (trim_units (chars s)).

(** Truthiness of a string: the empty string is the only falsy one. *)
Definition truthy (s : string) : bool :=
  match s with EmptyString => false | String _ _ => true end.

(** [String.prototype.startsWith]. *)
Fixpoint starts_with_units (l p : units) : bool :=
  match p, l with
  | [], _ => true
  | _ :: _, [] => false
  | a :: p', b :: l' => N.eqb (code a) (code b) && starts_with_units l' p'
  end.

Definition startsWith (s p : string) : bool :=
  starts_with_units (chars s) (chars p).

Fixpoint word_run (l : units) : units :=
  match l with
  | c :: l' => if is_word c then c :: word_run l' else []
  | [] => []
  end.

(** One attempt of the pattern [/```(?:[\w]*\n)?/] at the head of [l]:
    the length of the match, if any. The greedy [[\w]*] takes the whole
    run of word units; as a newline is not a word unit, giving units
    back never helps, so the optional group matches exactly when the run
    is followed by a newline and is skipped otherwise. *)
Definition fence_length (l : units) : option nat :=
  match l with
  | a :: b :: c :: rest =>
      if is_backtick a && is_backtick b && is_backtick c then
        let tag := word_run rest in
        match drop (length tag) rest with
        | d :: _ => if is_newline d then Some (3 + length tag + 1) else Some 3
        | [] => Some 3
        end
      else None
  | _ => None
  end.

(** [String.prototype.split] with the fence pattern (no capture groups,
    no limit): matches are searched left to right, the units between two
    matches form a part, and the units after the last match form the last
    part. [skip] counts the units of the current match still to pass. *)
Fixpoint split_fence_units (skip : nat) (l : units) : list units :=
  match l with
  | [] => [[]]
  | c :: l' =>
      match skip with
      | S k => split_fence_units k l'
      | O =>
          match fence_length l with
          | Some (S m) => [] :: split_fence_units m l'
          | _ =>
              match split_fence_units 0 l' with
              | p :: ps => (c :: p) :: ps
              | [] => [[c]]
              end
          end
      end
  end.

Definition split_fence (s : string) : list string :=
  map str (split_fence_units 0 (chars s)).

(** The delimiters consumed by [split_fence_units], in order. *)
Fixpoint fence_markers (skip : nat) (l : units) : list units :=
  match l with
  | [] => []
  | c :: l' =>
      match skip with
      | S k => fence_markers k l'
      | O =>
          match fence_length l with
          | Some (S m) => take (S m) l :: fence_markers m l'
          | _ => fence_markers 0 l'
          end
      end
  end.

(** [part.split('\n')]. *)
Fixpoint split_newline_units (l : units) : list units :=
  match l with
  | [] => [[]]
  | c :: l' =>
      if is_newline c then [] :: split_newline_units l'
      else
        match split_newline_units l' with
        | p :: ps => (c :: p) :: ps
        | [] => [[c]]
        end
  end.

Definition split_newline (s : string) : list string :=
  map str (split_newline_units (chars s)).

(** The units of a string that are not white space, in order. *)
Definition non_space (l : units) : units :=
  List.filter (fun c => negb (is_space c)) l.

Definition nl : string := String newline EmptyString.
Definition fence : string := str [backtick; backtick; backtick].

(** The text a split came from: the parts with one delimiter between
    each two neighbours. *)
Fixpoint weave (parts markers : list units) : units :=
  match parts with
  | [] => []
  | p :: ps =>
      match markers with
      | [] => p
      | d :: ds => p ++ d ++ weave ps ds
      end
  end.

(** A delimiter: three backticks, alone or followed by a run of word
    units (the language tag, possibly empty) and a newline. *)
Definition fence_marker (d : units) : Prop :=
  d = [backtick; backtick; backtick]
  \/ exists tag, forallb is_word tag = true
                /\ d = [backtick; backtick; backtick] ++ tag ++ [newline].

End Text.

(** ** Segment formatter ([formatOutput] in PromptEnhancer.tsx) *)

Module SegmentFormatter.
Import Text.

(** What [formatOutput] builds for one part: a code block showing the
    trimmed part, or a text block holding one paragraph per line that is
    not blank. [key] is the index of the part in the split. *)
Inductive segment :=
| CodeBlock (key : nat) (content : string)
| TextBlock (key : nat) (paragraphs : list string).

Definition key (s : segment) : nat :=
  match s with CodeBlock k _ | TextBlock k _ => k end.

Definition is_code (s : segment) : bool :=
  match s with CodeBlock _ _ => true | TextBlock _ _ => false end.

Definition paragraphs_of (part : string) : list string :=
  List.filter (fun paragraph => truthy (trim paragraph)) (split_newline part).

Definition format_part (isCodeBlock : bool) (index : nat) (part : string)
  : option segment :=
  if negb (truthy (trim part)) then None
  else
    let isCode := (isCodeBlock && Nat.eqb (index mod 2) 1)
                  || (negb isCodeBlock && Nat.eqb (index mod 2) 0) in
    if isCode then Some (CodeBlock index (trim part))
    else Some (TextBlock index (paragraphs_of part)).

(** [formatOutput]: [None] is the [null] returned for an empty text. *)
Definition formatOutput (text : string) : option (list segment) :=
  if negb (truthy text) then None
  else
    let parts := split_fence text in
    let isCodeBlock := startsWith (trim text) fence in
    Some (omap id (imap (format_part isCodeBlock) parts)).

(** What reaches the page: [null] renders nothing. *)
Definition rendered (text : string) : list segment :=
  match formatOutput text with
  | Some segments => segments
  | None => []
  end.

Definition content_units (s : segment) : units :=
  match s with
  | CodeBlock _ c => chars c
  | TextBlock _ ps => concat (map chars ps)
  end.

End SegmentFormatter.

(** ** JSON values, thrown values and effects *)

Module Host.
Import Text.
Local Open Scope string_scope.

(** The value denoted by a JSON text. An object keeps its members in the
    order of the text. *)
#[warnings="-register-all"]
Inductive json :=
| JNull
| JBool (b : bool)
| JNum (f : float)
| JStr (s : string)
| JArr (items : list json)
| JObj (members : list (string * json)).

(** A JavaScript value read out of parsed JSON: [None] is [undefined]. *)
Definition value := option json.

(** How [JSON.stringify] writes a number: a NaN or an infinity becomes
    [null], and both zeros are written [0]. *)
Definition json_number (f : float) : json :=
  if PrimFloat.is_nan f || PrimFloat.is_infinity f then JNull
  else if PrimFloat.is_zero f then JNum 0%float
  else JNum f.

(** What a cell declared [number] holds at run time: a binary64 value,
    or [null], which is what [JSON.parse] leaves where a number was
    written as [null]. *)
Inductive number :=
| Num (f : float)
| Null.

(** How [JSON.stringify] writes such a cell. *)
Definition json_cell (n : number) : json :=
  match n with
  | Num f => json_number f
  | Null => JNull
  end.

(** What a [catch] clause may receive: an [Error] object, or any other
    value, given by its [String(...)] conversion. *)
Inductive thrown :=
| ErrorObject (message : string)
| OtherThrown (text : string).

(** [error instanceof Error ? error.message : String(error)] *)
Definition error_text (error : thrown) : string :=
  match error with
  | ErrorObject message => message
  | OtherThrown text => text
  end.

(** The property names read in this program. None of them is defined by
    a built-in prototype, so a primitive, an array or an object without
    such a member yields [undefined]. *)
Inductive prop := Named (name : string) | Indexed (i : nat).

Definition prop_text (p : prop) : string :=
  match p with
  | Named name => name
  | Indexed i => pretty i
  end.

(** The member of an object: when a name occurs twice in the text,
    [JSON.parse] keeps the later one. *)
Fixpoint member (name : string) (members : list (string * json)) : value :=
  match members with
  | [] => None
  | (k, v) :: rest =>
      match member name rest with
      | Some later => Some later
      | None => if String.eqb k name then Some v else None
      end
  end.

(** TypeError text for a property read on [undefined] or [null]
    (V8 wording). *)
Definition cannot_read (what : string) (p : prop) : thrown :=
  ErrorObject ("Cannot read properties of " ++ what
               ++ " (reading '" ++ prop_text p ++ "')").

(** Property read [v.p] or [v[i]]. *)
Definition get (v : value) (p : prop) : thrown + value :=
  match v with
  | None => inl (cannot_read "undefined" p)
  | Some JNull => inl (cannot_read "null" p)
  | Some (JObj members) => inr (member (prop_text p) members)
  | Some (JArr items) =>
      match p with
      | Indexed i => inr (items !! i)
      | Named _ => inr None
      end
  | Some (JStr s) =>
      match p with
      | Indexed i => inr ((fun c => JStr (String c EmptyString)) <$> chars s !! i)
      | Named _ => inr None
      end
  | Some (JBool _) | Some (JNum _) => inr None
  end.

(** An HTTP request as handed to [fetch]; [body] is the value whose
    JSON text is sent. *)
Record request := {
  url : string;
  method : string;
  headers : list (string * string);
  body : json
}.

(** The text of a response body: JSON text (given by its value), or a
    text on which [res.json()] rejects with the given SyntaxError. *)
Inductive response :=
| JsonBody (data : json)
| OtherBody (raw : string) (complaint : string).

(** What the network answers to one [fetch]. *)
Inductive reply :=
| Rejects (reason : thrown)
| Responds (res : response).

Inductive event :=
| preventDefault
| fetch (r : request)
| setLoading (loading : bool)
| setResult (v : value)
| onResult (v : value)
| onSetLoadingState (isLoading : bool)
| setIsEnhancing (b : bool)
| setEnhancedPrompt (v : value).

(** A computation performs events and then completes normally or
    throws. For an [async] function, throwing is rejecting. *)
Definition M (A : Type) : Type := list event * (thrown + A).

Definition ret {A} (a : A) : M A := ([], inr a).
Definition throw {A} (e : thrown) : M A := ([], inl e).
Definition call (ev : event) : M unit := ([ev], inr tt).
Definition lift {A} (r : thrown + A) : M A := ([], r).

Definition bind {A B} (m : M A) (k : A -> M B) : M B :=
  match m with
  | (t, inl e) => (t, inl e)
  | (t, inr a) => let '(t', r) := k a in ((t ++ t')%list, r)
  end.

(** [try { body } catch (error) { handler } finally { final }] *)
Definition try_catch_finally {A} (body : M A) (handler : thrown -> M A)
    (final : M unit) : M A :=
  let '(t, r) := body in
  let '(t1, r1) := match r with
                   | inr a => ([], inr a)
                   | inl e => handler e
                   end in
  let '(t2, r2) := final in
  ((t ++ t1 ++ t2)%list, match r2 with inl e => inl e | inr _ => r1 end).

Notation "'let*' x ':=' m 'in' k" := (bind m (fun x => k))
  (at level 10, x name, m at level 100, k at level 200).
Notation "m ';;' k" := (bind m (fun _ => k))
  (at level 100, k at level 200, right associativity).

(** [await fetch(url, init)] *)
Definition await_fetch (net : reply) (r : request) : M response :=
  ([fetch r], match net with
              | Rejects reason => inl reason
              | Responds res => inr res
              end).

(** [await res.json()] *)
Definition await_json (res : response) : M json :=
  match res with
  | JsonBody data => ret data
  | OtherBody _ complaint => throw (ErrorObject complaint)
  end.

(** [data.choices[0].message.content] *)
Definition read_content (data : json) : M value :=
  let* choices := lift (get (Some data) (Named "choices")) in
  let* first := lift (get choices (Indexed 0)) in
  let* message := lift (get first (Named "message")) in
  lift (get message (Named "content")).

Definition chat_messages (systemPrompt userPrompt : string) : json :=
  JArr [ JObj [("role", JStr "system"); ("content", JStr systemPrompt)];
         JObj [("role", JStr "user"); ("content", JStr userPrompt)] ].

Definition post (apiEndpoint : string) (payload : json) : request :=
  {| url := apiEndpoint ++ "/v1/chat/completions";
     method := "POST";
     headers := [("Content-Type", "application/json")];
     body := payload |}.

Definition trace {A} (m : M A) : list event := fst m.
Definition completion {A} (m : M A) : thrown + A := snd m.

End Host.
(** ** Records of the two collections *)

Module ModelPreset.

Record t := mk {
  id : string;
  name : string;
  model : string;
  systemPrompt : string;
  temperature : Host.number;
  maxTokens : Host.number
}.

End ModelPreset.

Module EnhancedPrompt.

(** The [createdAt] member holds a [Date] object when the record was made
    in this session and, after a reload, the ISO-8601 string that
    [JSON.stringify] wrote for it. Both are given by their time value;
    [Date.parse] reads back the time value [toISOString] wrote. *)
Inductive DateValue :=
| DateObject (time : Z)
| IsoString (time : Z).

Record t := mk {
  id : string;
  originalPrompt : string;
  enhancedPrompt : string;
  systemPrompt : string;
  category : string;
  createdAt : DateValue;
  favorite : bool
}.

(** [new Date(x).getTime()] *)
Definition getTime (x : DateValue) : Z :=
  match x with DateObject time | IsoString time => time end.

End EnhancedPrompt.

(** ** localStorage and JSON texts of collections *)

Module Storage.
Import Text Host.

(** The value denoted by a stored JSON text: an array of preset objects,
    an array of enhanced-prompt objects, or some other JSON value. *)
Inductive payload :=
| PresetArray (items : list ModelPreset.t)
| PromptArray (items : list EnhancedPrompt.t)
| OtherJson.

(** A stored string: JSON text, or a string [JSON.parse] rejects with
    the given SyntaxError message. *)
Inductive item :=
| JsonText (p : payload)
| OtherText (raw : string) (complaint : string).

Abbreviation localStorage := (gmap string item).

Definition getItem (ls : localStorage) (key : string) : option item := ls !! key.
Definition setItem (ls : localStorage) (key : string) (v : item) : localStorage :=
  <[key := v]> ls.

(** Truthiness of a stored string; a JSON text is never empty. *)
Definition item_truthy (it : item) : bool :=
  match it with
  | JsonText _ => true
  | OtherText raw _ => truthy raw
  end.

Definition JSON_parse (it : item) : thrown + payload :=
  match it with
  | JsonText p => inr p
  | OtherText _ complaint => inl (ErrorObject complaint)
  end.

(** The cell read back from what [JSON.stringify] wrote for [n]: a NaN
    or an infinity comes back as [null], a negative zero as [0]. *)
Definition reread_number (n : number) : number :=
  match json_cell n with
  | JNum g => Num g
  | _ => Null
  end.

(** A preset as it is read back from its JSON text: the strings are
    kept, the two numbers are reread. *)
Definition reread_preset (p : ModelPreset.t) : ModelPreset.t :=
  ModelPreset.mk (ModelPreset.id p) (ModelPreset.name p)
    (ModelPreset.model p) (ModelPreset.systemPrompt p)
    (reread_number (ModelPreset.temperature p))
    (reread_number (ModelPreset.maxTokens p)).

(** [JSON.stringify(presets)] *)
Definition stringify_presets (presets : list ModelPreset.t) : item :=
  JsonText (PresetArray (map reread_preset presets)).

(** An enhanced prompt as it is read back from its JSON text: the date
    has become its ISO string. *)
Definition reread_prompt (p : EnhancedPrompt.t) : EnhancedPrompt.t :=
  EnhancedPrompt.mk (EnhancedPrompt.id p) (EnhancedPrompt.originalPrompt p)
    (EnhancedPrompt.enhancedPrompt p) (EnhancedPrompt.systemPrompt p)
    (EnhancedPrompt.category p)
    (EnhancedPrompt.IsoString (EnhancedPrompt.getTime (EnhancedPrompt.createdAt p)))
    (EnhancedPrompt.favorite p).

(** [JSON.stringify(prompts)] *)
Definition stringify_prompts (prompts : list EnhancedPrompt.t) : item :=
  JsonText (PromptArray (map reread_prompt prompts)).

(** The parsed value seen as the declared state type; [None] when it is
    not an array of such records, which the typed state cannot hold. *)
Definition as_presets (p : payload) : option (list ModelPreset.t) :=
  match p with
  | PresetArray items => Some items
  | PromptArray [] => Some []
  | _ => None
  end.

Definition as_prompts (p : payload) : option (list EnhancedPrompt.t) :=
  match p with
  | PromptArray items => Some items
  | PresetArray [] => Some []
  | _ => None
  end.

(** One [console.error(label, e)] call. *)
Record log_entry := console_error { label : string; caught : thrown }.

End Storage.

(** ** PromptForm.tsx *)

Module PromptForm.
Import Text Host Storage.
Local Open Scope string_scope.

Definition DEFAULT_PRESETS : list ModelPreset.t :=
  [ ModelPreset.mk "1" "Rhyming Assistant" "mistral-nemo-instruct-2407"
      "Always answer in rhymes. Today is Thursday" (Num 0.7%float) (Num (-1)%float);
    ModelPreset.mk "2" "Helpful Assistant" "mistral-nemo-instruct-2407"
      "You are a helpful, harmless, and honest AI assistant." (Num 0.7%float) (Num (-1)%float);
    ModelPreset.mk "3" "Precise Analyst" "mistral-nemo-instruct-2407"
      "You are a precise, analytical assistant that provides factual, well-reasoned responses."
      (Num 0.3%float) (Num (-1)%float) ].

(** The [useState] cells of the component. The two number cells are set
    from the number inputs and, by [loadPreset], from a preset, whose
    numbers may have come back from storage as [null]. *)
Record State := {
  systemPrompt : string;
  userPrompt : string;
  temperature : number;
  model : string;
  maxTokens : number;
  stream : bool;
  presets : list ModelPreset.t;
  showPresets : bool;
  newPresetName : string;
  activePreset : option string;
  showAdvanced : bool
}.

Definition initial : State :=
  {| systemPrompt := "Always answer in rhymes. Today is Thursday";
     userPrompt := "What day is it today?";
     temperature := Num 0.7%float;
     model := "mistral-nemo-instruct-2407";
     maxTokens := Num (-1)%float;
     stream := false;
     presets := DEFAULT_PRESETS;
     showPresets := false;
     newPresetName := "";
     activePreset := None;
     showAdvanced := false |}.

Definition setPresets (v : list ModelPreset.t) (st : State) : State :=
  {| systemPrompt := systemPrompt st; userPrompt := userPrompt st;
     temperature := temperature st; model := model st;
     maxTokens := maxTokens st; stream := stream st;
     presets := v;
     showPresets := showPresets st; newPresetName := newPresetName st;
     activePreset := activePreset st; showAdvanced := showAdvanced st |}.

Definition setNewPresetName (v : string) (st : State) : State :=
  {| systemPrompt := systemPrompt st; userPrompt := userPrompt st;
     temperature := temperature st; model := model st;
     maxTokens := maxTokens st; stream := stream st;
     presets := presets st;
     showPresets := showPresets st; newPresetName := v;
     activePreset := activePreset st; showAdvanced := showAdvanced st |}.

Definition setActivePreset (v : option string) (st : State) : State :=
  {| systemPrompt := systemPrompt st; userPrompt := userPrompt st;
     temperature := temperature st; model := model st;
     maxTokens := maxTokens st; stream := stream st;
     presets := presets st;
     showPresets := showPresets st; newPresetName := newPresetName st;
     activePreset := v; showAdvanced := showAdvanced st |}.

Definition key : string := "promptPresets".

(** The component together with the storage and the console it acts on. *)
Record World := {
  state : State;
  storage : localStorage;
  console : list log_entry
}.

(** The effect with dependency [[presets]]: runs after each render in
    which [presets] is a new array. *)
Definition save_effect (st : State) (ls : localStorage) : localStorage :=
  setItem ls key (stringify_presets (presets st)).

(** Mounting: the first render shows [initial]; the load effect runs,
    then the save effect of that first render; when the load effect has
    set [presets], the second render runs the save effect again. The
    result is [None] when the stored JSON is not an array of presets. *)
Definition mount (ls : localStorage) : option World :=
  let loaded : option payload * list log_entry :=
    match getItem ls key with
    | Some savedPresets =>
        if item_truthy savedPresets then
          match JSON_parse savedPresets with
          | inr parsed => (Some parsed, [])
          | inl e => (None, [console_error "Failed to load presets:" e])
          end
        else (None, [])
    | None => (None, [])
    end in
  let ls1 := save_effect initial ls in
  match fst loaded with
  | None => Some {| state := initial; storage := ls1; console := snd loaded |}
  | Some parsed =>
      match as_presets parsed with
      | Some items =>
          let st := setPresets items initial in
          Some {| state := st; storage := save_effect st ls1; console := snd loaded |}
      | None => None
      end
  end.

(** A handler that sets [presets], followed by the render and the save
    effect it causes. *)
Definition commit (st : State) (w : World) : World :=
  {| state := st; storage := save_effect st (storage w); console := console w |}.

Definition handleSubmit (st : State) (apiEndpoint : string) (net : reply) : M unit :=
  call preventDefault ;;
  call (setLoading true) ;;
  try_catch_finally
    (let* res := await_fetch net
        (post apiEndpoint
           (JObj [ ("model", JStr (model st));
                   ("messages", chat_messages (systemPrompt st) (userPrompt st));
                   ("temperature", json_cell (temperature st));
                   ("max_tokens", json_cell (maxTokens st));
                   ("stream", JBool (stream st)) ])) in
     let* data := await_json res in
     let* content := read_content data in
     call (onResult content))
    (fun error => call (onResult (Some (JStr ("Error: " ++ error_text error)))))
    (call (setLoading false)).

(** [randomUUID] is the string [crypto.randomUUID()] returns. Without a
    name the handler returns at once and nothing is rendered again. *)
Definition saveCurrentAsPreset (randomUUID : string) (w : World) : World :=
  let st := state w in
  if negb (truthy (trim (newPresetName st))) then w
  else
    let newPreset :=
      ModelPreset.mk randomUUID (newPresetName st) (model st)
        (systemPrompt st) (temperature st) (maxTokens st) in
    commit
      (setActivePreset (Some (ModelPreset.id newPreset))
         (setNewPresetName ""
            (setPresets (presets st ++ [newPreset])%list st)))
      w.

Definition deletePreset (id : string) (w : World) : World :=
  let st := state w in
  let st1 :=
    setPresets
      (List.filter (fun p => negb (String.eqb (ModelPreset.id p) id)) (presets st))
      st in
  commit
    (if decide (activePreset st = Some id) then setActivePreset None st1 else st1)
    w.

End PromptForm.

(** ** App.tsx *)

Module App.
Import Text Host.
Local Open Scope string_scope.

Definition handleEnhancedPrompt (apiEndpoint : string)
    (systemPrompt userPrompt : string) (net : reply) : M unit :=
  try_catch_finally
    (call (setLoading true) ;;
     call (setResult (Some (JStr ""))) ;;
     let* res := await_fetch net
        (post apiEndpoint
           (JObj [ ("model", JStr "mistral-nemo-instruct-2407");
                   ("messages", chat_messages systemPrompt userPrompt);
                   ("temperature", json_number 0.7%float);
                   ("max_tokens", json_number (-1)%float) ])) in
     let* data := await_json res in
     let* content := read_content data in
     call (setResult content))
    (fun error => call (setResult (Some (JStr ("Error: " ++ error_text error)))))
    (call (setLoading false)).

End App.

(** ** PromptEnhancer.tsx *)

Module PromptEnhancer.
Import Text Host Storage.
Local Open Scope string_scope.

Definition PROMPT_CATEGORIES : list string :=
  [ "General"; "Creative Writing"; "Business"; "Web Development";
    "Marketing"; "Academic"; "Coding"; "Data Analysis" ].

Definition ENHANCEMENT_SYSTEM_PROMPT : string :=
"You are an expert prompt engineer. Your task is to enhance the user's basic prompt into a more detailed, effective prompt that will produce better results.

Follow these guidelines to improve the user's prompt:
1. Add specific details and context that seem appropriate
2. Include clear instructions on tone, format, and style
3. Break complex requests into structured parts
4. Add constraints and specific requirements
5. Avoid making the prompt too verbose or repetitive

Return ONLY the enhanced prompt without any explanations or additional text. The enhanced prompt should be professional and ready to be used directly.".

(** The [useState] cells of the component. *)
Record State := {
  basePrompt : string;
  enhancedPrompt : string;
  isEnhancing : bool;
  selectedCategory : string;
  filterCategory : string;
  savedPrompts : list EnhancedPrompt.t;
  showSaved : bool;
  showResult : bool
}.

Definition initial : State :=
  {| basePrompt := ""; enhancedPrompt := ""; isEnhancing := false;
     selectedCategory := "General"; filterCategory := "All";
     savedPrompts := []; showSaved := false; showResult := false |}.

Definition setSavedPrompts (v : list EnhancedPrompt.t) (st : State) : State :=
  {| basePrompt := basePrompt st; enhancedPrompt := enhancedPrompt st;
     isEnhancing := isEnhancing st; selectedCategory := selectedCategory st;
     filterCategory := filterCategory st; savedPrompts := v;
     showSaved := showSaved st; showResult := showResult st |}.

Definition key : string := "enhancedPrompts".

Record World := {
  state : State;
  storage : localStorage;
  console : list log_entry
}.

(** Mounting: the load effect. The result is [None] when the stored JSON
    is not an array of enhanced prompts. *)
Definition mount (ls : localStorage) : option World :=
  match getItem ls key with
  | Some savedData =>
      if item_truthy savedData then
        match JSON_parse savedData with
        | inr parsed =>
            match as_prompts parsed with
            | Some items =>
                Some {| state := setSavedPrompts items initial;
                        storage := ls; console := [] |}
            | None => None
            end
        | inl e =>
            Some {| state := initial; storage := ls;
                    console := [console_error "Failed to load saved enhanced prompts:" e] |}
        end
      else Some {| state := initial; storage := ls; console := [] |}
  | None => Some {| state := initial; storage := ls; console := [] |}
  end.

Definition saveToLocalStorage (prompts : list EnhancedPrompt.t)
    (ls : localStorage) : localStorage :=
  setItem ls key (stringify_prompts prompts).

(** [setSavedPrompts(updated); saveToLocalStorage(updated);] *)
Definition store (updated : list EnhancedPrompt.t) (w : World) : World :=
  {| state := setSavedPrompts updated (state w);
     storage := saveToLocalStorage updated (storage w);
     console := console w |}.

(** [hasLoadingHandler] tells whether the parent passed
    [onSetLoadingState]. *)
Definition enhancePrompt (apiEndpoint : string) (hasLoadingHandler : bool)
    (basePrompt : string) (net : reply) : M unit :=
  if negb (truthy (trim basePrompt)) then ret tt
  else
    (if hasLoadingHandler then call (onSetLoadingState true)
     else call (setIsEnhancing true)) ;;
    call (setEnhancedPrompt (Some (JStr ""))) ;;
    try_catch_finally
      (let* res := await_fetch net
          (post apiEndpoint
             (JObj [ ("model", JStr "mistral-nemo-instruct-2407");
                     ("messages", chat_messages ENHANCEMENT_SYSTEM_PROMPT basePrompt);
                     ("temperature", json_number 0.7%float);
                     ("max_tokens", json_number (-1)%float) ])) in
       let* data := await_json res in
       let* content := read_content data in
       call (setEnhancedPrompt content))
      (fun error =>
         call (setEnhancedPrompt
                 (Some (JStr ("Error enhancing prompt: " ++ error_text error)))))
      (if hasLoadingHandler then call (onSetLoadingState false)
       else call (setIsEnhancing false)).

(** [randomUUID] is what [crypto.randomUUID()] returns and [now] the time
    value of [new Date()]. *)
Definition saveEnhancedPrompt (randomUUID : string) (now : Z) (w : World) : World :=
  let st := state w in
  if negb (truthy (enhancedPrompt st)) then w
  else
    let newPrompt :=
      EnhancedPrompt.mk randomUUID (basePrompt st) (enhancedPrompt st)
        ENHANCEMENT_SYSTEM_PROMPT (selectedCategory st)
        (EnhancedPrompt.DateObject now) false in
    let updated := (savedPrompts st ++ [newPrompt])%list in
    store updated w.

Definition toggleFavorite (id : string) (w : World) : World :=
  let updated :=
    map (fun p =>
           if String.eqb (EnhancedPrompt.id p) id
           then EnhancedPrompt.mk (EnhancedPrompt.id p)
                  (EnhancedPrompt.originalPrompt p) (EnhancedPrompt.enhancedPrompt p)
                  (EnhancedPrompt.systemPrompt p) (EnhancedPrompt.category p)
                  (EnhancedPrompt.createdAt p) (negb (EnhancedPrompt.favorite p))
           else p)
        (savedPrompts (state w)) in
  store updated w.

Definition deletePrompt (id : string) (w : World) : World :=
  let updated :=
    List.filter (fun p => negb (String.eqb (EnhancedPrompt.id p) id))
      (savedPrompts (state w)) in
  store updated w.

(** *** The library view *)

(** [Array.prototype.sort] with a compare function: the sort is stable,
    and [a] comes before [b] when [comparefn a b] is negative. *)
Section Sort.
Context {A : Type} (comparefn : A -> A -> Z).

Fixpoint insert_sorted (x : A) (l : list A) : list A :=
  match l with
  | [] => [x]
  | y :: l' =>
      if (comparefn x y <=? 0)%Z then x :: y :: l'
      else y :: insert_sorted x l'
  end.

Definition Array_sort (l : list A) : list A :=
  fold_right insert_sorted [] l.

End Sort.

(** Arrays live in a heap and are named by their address: [filter]
    allocates its result, [sort] rearranges the array it is called on. *)
Abbreviation heap := (list (list EnhancedPrompt.t)).

Definition array_at (h : heap) (a : nat) : list EnhancedPrompt.t :=
  default [] (h !! a).

Definition filter_call (h : heap) (a : nat) (f : EnhancedPrompt.t -> bool)
  : heap * nat :=
  ((h ++ [List.filter f (array_at h a)])%list, length h).

Definition sort_call (h : heap) (a : nat)
    (comparefn : EnhancedPrompt.t -> EnhancedPrompt.t -> Z) : heap * nat :=
  (<[a := Array_sort comparefn (array_at h a)]> h, a).

Definition matches (filterCategory : string) (p : EnhancedPrompt.t) : bool :=
  String.eqb filterCategory "All" || String.eqb (EnhancedPrompt.category p) filterCategory.

(** [new Date(b.createdAt).getTime() - new Date(a.createdAt).getTime()].
    Time values are integers; the sort reads only the sign of the
    difference, which rounding to binary64 does not change. *)
Definition newest_first (a b : EnhancedPrompt.t) : Z :=
  (EnhancedPrompt.getTime (EnhancedPrompt.createdAt b)
   - EnhancedPrompt.getTime (EnhancedPrompt.createdAt a))%Z.

(** [savedPrompts.filter(...).sort(...)], with [savedPrompts] the address
    of the state's array. *)
Definition libraryView (h : heap) (savedPrompts : nat) (filterCategory : string)
  : heap * nat :=
  let '(h1, filtered) := filter_call h savedPrompts (matches filterCategory) in
  sort_call h1 filtered newest_first.

(** The records shown, in order. *)
Definition shown (filterCategory : string) (prompts : list EnhancedPrompt.t)
  : list EnhancedPrompt.t :=
  Array_sort newest_first (List.filter (matches filterCategory) prompts).

End PromptEnhancer.

(** ** OutputDisplay.tsx *)

Module OutputDisplay.
Import Text.
Local Open Scope string_scope.

Definition less_than : ascii := ascii_of_N 60.
Definition greater_than : ascii := ascii_of_N 62.
Definition double_quote : string := String (ascii_of_N 34) EmptyString.

Definition starts_fence (l : units) : bool :=
  match l with
  | a :: b :: c :: _ => is_backtick a && is_backtick b && is_backtick c
  | _ => false
  end.

(** The first three backticks in [l]: what stands before them and what
    follows them. *)
Fixpoint until_fence (l : units) : option (units * units) :=
  match l with
  | [] => None
  | c :: l' =>
      if starts_fence l then Some ([], drop 3 l)
      else
        match until_fence l' with
        | Some (before, after) => Some (c :: before, after)
        | None => None
        end
  end.

(** [s.replace(/x/g, to)] for a single unit [x]. *)
Definition replace_unit (x : ascii) (to : units) (l : units) : units :=
  flat_map (fun c => if N.eqb (code c) (code x) then to else [c]) l.

(** [codeContent.replace(/</g, '&lt;').replace(/>/g, '&gt;')] *)
Definition escape (codeContent : units) : units :=
  replace_unit greater_than (chars "&gt;")
    (replace_unit less_than (chars "&lt;") codeContent).

Definition pre_open (darkMode : bool) : string :=
  "<pre class=" ++ double_quote
  ++ (if darkMode then "bg-gray-800" else "bg-gray-200")
  ++ " p-3 rounded-md my-2 overflow-x-auto" ++ double_quote ++ "><code>".

Definition pre_close : string := "</code></pre>".

(** The replacer of [formatContent]. *)
Definition styled (darkMode : bool) (codeContent : units) : units :=
  (chars (pre_open darkMode) ++ escape codeContent ++ chars pre_close)%list.

(** [content.replace(/```([\s\S]*?)```/g, (_match, codeContent) => f codeContent)]:
    at each position from the left, three backticks followed later by
    three more form a match whose group is the shortest text between
    them; the search goes on after the match; a position without a match
    keeps its unit. [fuel] bounds the number of positions visited. *)
Fixpoint replace_fenced (fuel : nat) (f : units -> units) (l : units) : units :=
  match fuel with
  | O => l
  | S n =>
      match l with
      | [] => []
      | c :: l' =>
          if starts_fence l then
            match until_fence (drop 3 l) with
            | Some (codeContent, rest) =>
                (f codeContent ++ replace_fenced n f rest)%list
            | None => c :: replace_fenced n f l'
            end
          else c :: replace_fenced n f l'
      end
  end.

Definition formatContent (darkMode : bool) (content : string) : string :=
  if negb (truthy content) then ""
  else str (replace_fenced (length (chars content)) (styled darkMode) (chars content)).

End OutputDisplay.

(** ** PromptForm.tsx: the preset list and the inputs *)

Module FormActions.
Import Text Host Storage PromptForm.
Local Open Scope string_scope.

Definition loadPreset (preset : ModelPreset.t) (st : State) : State :=
  {| systemPrompt := ModelPreset.systemPrompt preset;
     userPrompt := userPrompt st;
     temperature := ModelPreset.temperature preset;
     model := ModelPreset.model preset;
     maxTokens := ModelPreset.maxTokens preset;
     stream := stream st;
     presets := presets st;
     showPresets := false;
     newPresetName := newPresetName st;
     activePreset := Some (ModelPreset.id preset);
     showAdvanced := showAdvanced st |}.

(** The [onChange] handlers of the six inputs of the form, taken
    together: each cell receives the value typed or chosen. The two
    number cells receive what [parseFloat] and [parseInt] return, which
    is NaN for an emptied input and never [null]. *)
Definition setInputs (systemPrompt' userPrompt' model' : string)
    (temperature' maxTokens' : float) (stream' : bool) (st : State) : State :=
  {| systemPrompt := systemPrompt'; userPrompt := userPrompt';
     temperature := Num temperature'; model := model';
     maxTokens := Num maxTokens'; stream := stream';
     presets := presets st; showPresets := showPresets st;
     newPresetName := newPresetName st; activePreset := activePreset st;
     showAdvanced := showAdvanced st |}.

(** [setShowPresets] and [setShowAdvanced]. *)
Definition setPanels (showPresets' showAdvanced' : bool) (st : State) : State :=
  {| systemPrompt := systemPrompt st; userPrompt := userPrompt st;
     temperature := temperature st; model := model st;
     maxTokens := maxTokens st; stream := stream st;
     presets := presets st; showPresets := showPresets';
     newPresetName := newPresetName st; activePreset := activePreset st;
     showAdvanced := showAdvanced' |}.

(** A handler that sets cells other than [presets]: the save effect does
    not run. *)
Definition update (f : State -> State) (w : World) : World :=
  {| state := f (state w); storage := storage w; console := console w |}.

(** What the user can do on the form. A preset of the list is named by
    its position: its row calls [loadPreset(preset)], its delete button
    [deletePreset(preset.id, e)], which stops the click from reaching
    the row. *)
Inductive gesture :=
| TypeName (v : string)
| EditInputs (systemPrompt userPrompt model : string)
    (temperature maxTokens : float) (stream : bool)
| ShowPanels (showPresets showAdvanced : bool)
| ClickSave (randomUUID : string)
| ClickPreset (i : nat)
| ClickDelete (i : nat).

Definition perform (w : World) (g : gesture) : World :=
  match g with
  | TypeName v => update (setNewPresetName v) w
  | EditInputs s u m t k b => update (setInputs s u m t k b) w
  | ShowPanels p a => update (setPanels p a) w
  | ClickSave randomUUID => saveCurrentAsPreset randomUUID w
  | ClickPreset i =>
      match presets (state w) !! i with
      | Some preset => update (loadPreset preset) w
      | None => w
      end
  | ClickDelete i =>
      match presets (state w) !! i with
      | Some preset => deletePreset (ModelPreset.id preset) w
      | None => w
      end
  end.

Definition session (w : World) (gestures : list gesture) : World :=
  fold_left perform gestures w.

End FormActions.

(** ** PromptEnhancer.tsx: the library panel and the result panel *)

Module EnhancerActions.
Import Text Host Storage PromptEnhancer.
Local Open Scope string_scope.

Definition setBasePrompt (v : string) (st : State) : State :=
  {| basePrompt := v; enhancedPrompt := enhancedPrompt st;
     isEnhancing := isEnhancing st; selectedCategory := selectedCategory st;
     filterCategory := filterCategory st; savedPrompts := savedPrompts st;
     showSaved := showSaved st; showResult := showResult st |}.

Definition setEnhancedPrompt (v : string) (st : State) : State :=
  {| basePrompt := basePrompt st; enhancedPrompt := v;
     isEnhancing := isEnhancing st; selectedCategory := selectedCategory st;
     filterCategory := filterCategory st; savedPrompts := savedPrompts st;
     showSaved := showSaved st; showResult := showResult st |}.

Definition setCategories (selected filter : string) (st : State) : State :=
  {| basePrompt := basePrompt st; enhancedPrompt := enhancedPrompt st;
     isEnhancing := isEnhancing st; selectedCategory := selected;
     filterCategory := filter; savedPrompts := savedPrompts st;
     showSaved := showSaved st; showResult := showResult st |}.

Definition setShowSaved (v : bool) (st : State) : State :=
  {| basePrompt := basePrompt st; enhancedPrompt := enhancedPrompt st;
     isEnhancing := isEnhancing st; selectedCategory := selectedCategory st;
     filterCategory := filterCategory st; savedPrompts := savedPrompts st;
     showSaved := v; showResult := showResult st |}.

Definition setShowResult (v : bool) (st : State) : State :=
  {| basePrompt := basePrompt st; enhancedPrompt := enhancedPrompt st;
     isEnhancing := isEnhancing st; selectedCategory := selectedCategory st;
     filterCategory := filterCategory st; savedPrompts := savedPrompts st;
     showSaved := showSaved st; showResult := v |}.

Definition update (f : State -> State) (w : World) : World :=
  {| state := f (state w); storage := storage w; console := console w |}.

(** [usePrompt]: the two cells it sets, and the call it makes to the
    [onApplyEnhancedPrompt] property. *)
Definition usePrompt (onApplyEnhancedPrompt : string -> string -> M unit)
    (prompt : EnhancedPrompt.t) (st : State) : State * M unit :=
  (setEnhancedPrompt (EnhancedPrompt.enhancedPrompt prompt)
     (setBasePrompt (EnhancedPrompt.originalPrompt prompt) st),
   onApplyEnhancedPrompt (EnhancedPrompt.systemPrompt prompt)
     (EnhancedPrompt.enhancedPrompt prompt)).

(** The effect with dependency [[activeResult]]; [None] is an
    [activeResult] that was not passed. *)
Definition activeResult_truthy (activeResult : option string) : bool :=
  match activeResult with
  | Some text => truthy text
  | None => false
  end.

Definition result_effect (activeResult : option string) (st : State) : State :=
  if activeResult_truthy activeResult then setShowResult true st else st.

(** The blocks of the right side, each under the condition the markup
    gives it. *)
Inductive panel := ResponseOutput | Library | Welcome | EmptyLibrary.

Definition right_side (activeResult : option string) (st : State) : list panel :=
  ((if showResult st && activeResult_truthy activeResult then [ResponseOutput] else [])
   ++ (if showSaved st && Nat.ltb 0 (length (savedPrompts st)) && negb (showResult st)
       then [Library] else [])
   ++ (if negb (showResult st) && negb (showSaved st) then [Welcome] else [])
   ++ (if showSaved st && Nat.eqb (length (savedPrompts st)) 0 && negb (showResult st)
       then [EmptyLibrary] else []))%list.

(** [currentlyLoading] and the [disabled] attribute of the enhance
    button. *)
Definition currentlyLoading (isLoading : bool) (st : State) : bool :=
  isLoading || isEnhancing st.

Definition enhance_disabled (isLoading : bool) (st : State) : bool :=
  negb (truthy (trim (basePrompt st))) || currentlyLoading isLoading st.

(** What the user can do on the library; a record of the view is named
    by its position in [savedPrompts]. [ShowEnhanced] is the text the
    enhancement request put into [enhancedPrompt]. *)
Inductive gesture :=
| TypeBasePrompt (v : string)
| ShowEnhanced (v : string)
| ChooseCategories (selected filter : string)
| ToggleLibrary
| Dismiss
| ClickSave (randomUUID : string) (now : Z)
| ClickFavorite (i : nat)
| ClickUse (i : nat)
| ClickDelete (i : nat).

Definition perform (w : World) (g : gesture) : World :=
  match g with
  | TypeBasePrompt v => update (setBasePrompt v) w
  | ShowEnhanced v => update (setEnhancedPrompt v) w
  | ChooseCategories selected filter => update (setCategories selected filter) w
  | ToggleLibrary => update (fun st => setShowSaved (negb (showSaved st)) st) w
  | Dismiss => update (setShowResult false) w
  | ClickSave randomUUID now => saveEnhancedPrompt randomUUID now w
  | ClickFavorite i =>
      match savedPrompts (state w) !! i with
      | Some prompt => toggleFavorite (EnhancedPrompt.id prompt) w
      | None => w
      end
  | ClickUse i =>
      match savedPrompts (state w) !! i with
      | Some prompt => update (fun st => fst (usePrompt (fun _ _ => ret tt) prompt st)) w
      | None => w
      end
  | ClickDelete i =>
      match savedPrompts (state w) !! i with
      | Some prompt => deletePrompt (EnhancedPrompt.id prompt) w
      | None => w
      end
  end.

Definition session (w : World) (gestures : list gesture) : World :=
  fold_left perform gestures w.

End EnhancerActions.

(** ** Vocabulary of the properties *)

Module SegmentSpec.
Import Text SegmentFormatter.
Local Open Scope string_scope.

Definition prose_first_example : string := "a" ++ nl ++ "```code```" ++ nl ++ "b".
Definition fence_first_example : string := "```x```" ++ nl ++ "tail".

(** A fence with a language tag, after a blank first line. *)
Definition tagged_example : string :=
  "  " ++ nl ++ "```js" ++ nl ++ "  let x;" ++ nl ++ "```" ++ nl ++ "done".

(** A fence with a language tag, between two lines of prose. *)
Definition tag_inside_example : string :=
  "intro" ++ nl ++ "```js" ++ nl ++ "let x;" ++ nl ++ "```" ++ nl ++ "bye".

(** Three backticks followed by units that are not a tag and a newline. *)
Definition untagged_example : string := "```c++" ++ nl ++ "x```".

(** The segment [formatOutput] builds for a part that is not blank. *)
Definition segment_of (opensWithFence : bool) (index : nat) (part : string) : segment :=
  if (if opensWithFence then Nat.odd index else Nat.even index)
  then CodeBlock index (trim part)
  else TextBlock index (paragraphs_of part).

Definition option_content (o : option segment) : units :=
  match o with Some seg => content_units seg | None => [] end.

End SegmentSpec.

Module Observe.
Import Text Host.
Local Open Scope string_scope.

(** The requests handed to [fetch], in order. *)
Definition requests (t : list event) : list request :=
  omap (fun ev => match ev with fetch r => Some r | _ => None end) t.

(** The values handed to the result sink of a call site, in order. *)
Definition delivered (t : list event) : list value :=
  omap (fun ev => match ev with
                  | onResult v | setResult v | setEnhancedPrompt v => Some v
                  | _ => None
                  end) t.

(** What the body of the [try] block comes to for a given answer of the
    network: the value read at [choices[0].message.content], or what was
    thrown on the way. *)
Definition chat_outcome (net : reply) : thrown + value :=
  match net with
  | Rejects reason => inl reason
  | Responds (OtherBody _ complaint) => inl (ErrorObject complaint)
  | Responds (JsonBody data) => completion (read_content data)
  end.

(** The value a call site shows for an outcome, [prefix] being the text
    put before the message of a caught failure. *)
Definition shown_for (prefix : string) (outcome : thrown + value) : value :=
  match outcome with
  | inl error => Some (JStr (prefix ++ error_text error))
  | inr content => content
  end.

(** The values on which a property read throws. *)
Definition nullish (v : value) : bool :=
  match v with
  | None | Some JNull => true
  | Some _ => false
  end.

(** The request body as the interface description words it. *)
Definition documented_body (model systemPrompt userPrompt : string)
    (temperature maxTokens : json) (stream : bool) : json :=
  JObj [ ("model", JStr model);
         ("messages",
          JArr [ JObj [("role", JStr "system"); ("content", JStr systemPrompt)];
                 JObj [("role", JStr "user"); ("content", JStr userPrompt)] ]);
         ("temperature", temperature);
         ("max_tokens", maxTokens);
         ("stream", JBool stream) ].

End Observe.

Module ViewSpec.

Definition time_of (p : EnhancedPrompt.t) : Z :=
  EnhancedPrompt.getTime (EnhancedPrompt.createdAt p).

(** Most recent first. *)
Definition not_older (a b : EnhancedPrompt.t) : Prop := (time_of b <= time_of a)%Z.

Definition created_at (t : Z) (p : EnhancedPrompt.t) : bool := (time_of p =? t)%Z.

End ViewSpec.

Module StoreSpec.
Import Host Storage.

(** A number cell that comes back from its JSON text as it was. *)
Definition kept_by_json (n : number) : Prop := reread_number n = n.

(** A preset that comes back from its JSON text as it was. *)
Definition storable (p : ModelPreset.t) : Prop := reread_preset p = p.

(** A binary64 value that is finite and not a zero: [JSON.stringify]
    writes it as it is. *)
Definition plain_number (f : float) : bool :=
  negb (PrimFloat.is_nan f) && negb (PrimFloat.is_infinity f)
  && negb (PrimFloat.is_zero f).

(** A binary64 value [JSON.stringify] writes as [null]. *)
Definition not_finite (f : float) : bool :=
  PrimFloat.is_nan f || PrimFloat.is_infinity f.

Definition has_preset_id (id : string) (p : ModelPreset.t) : bool :=
  String.eqb (ModelPreset.id p) id.

Definition has_prompt_id (id : string) (p : EnhancedPrompt.t) : bool :=
  String.eqb (EnhancedPrompt.id p) id.

End StoreSpec.

Module DisplaySpec.
Import Text OutputDisplay.

(** Three backticks occur somewhere in [l]. *)
Fixpoint occurs_fence (l : units) : bool :=
  match l with
  | [] => false
  | _ :: l' => starts_fence l || occurs_fence l'
  end.

(** Somewhere in [l] three backticks are followed, after them, by three
    more. *)
Fixpoint has_closed_fence (l : units) : bool :=
  match l with
  | [] => false
  | _ :: l' => (starts_fence l && occurs_fence (drop 3 l)) || has_closed_fence l'
  end.

(** [replace_fenced] with fuel for every position of the text. *)
Definition replace_all (f : units -> units) (l : units) : units :=
  replace_fenced (length l) f l.

Definition three_backticks : units := [backtick; backtick; backtick].
Definition two_backticks : units := [backtick; backtick].

Definition is_angle (c : ascii) : bool :=
  N.eqb (code c) (code less_than) || N.eqb (code c) (code greater_than).

End DisplaySpec.

(** What splitting on the fence pattern means, said without the
    functions that do it. *)
Module SplitSpec.
Import Text DisplaySpec.

(** A unit a language tag is made of: a digit, a letter of the basic
    Latin alphabet, or the underscore. *)
Definition tag_unit (c : ascii) : Prop :=
  (48 <= code c <= 57 \/ 65 <= code c <= 90 \/ 97 <= code c <= 122 \/ code c = 95)%N.

(** A white-space unit: TAB, LF, VT, FF, CR, the space, the no-break
    space. *)
Definition blank_unit (c : ascii) : Prop :=
  (9 <= code c <= 13 \/ code c = 32 \/ code c = 160)%N.

Definition not_blank (l : units) : Prop := Exists (fun c => ~ blank_unit c) l.

(** [d] is the delimiter found where [d ++ rest] begins: three backticks
    together with the tag and the newline that follow them, or three
    backticks alone when what follows them is not a tag and a newline. *)
Definition delimiter_at (d rest : units) : Prop :=
  (exists tag, Forall tag_unit tag /\ d = three_backticks ++ tag ++ [newline])
  \/ (d = three_backticks
      /\ forall tag rest', Forall tag_unit tag -> rest <> tag ++ newline :: rest').

(** The text falls into the given parts and delimiters: each delimiter
    stands at the first place, after the delimiter before it, where
    three backticks begin, and the last part holds no three backticks. *)
Inductive fence_split : units -> list units -> list units -> Prop :=
| split_end (l : units) :
    occurs_fence l = false -> fence_split l [l] []
| split_at (p d rest : units) (ps ds : list units) :
    occurs_fence (p ++ two_backticks) = false ->
    delimiter_at d rest ->
    fence_split rest ps ds ->
    fence_split (p ++ d ++ rest) (p :: ps) (d :: ds).

(** After its leading white space the text goes on with three
    backticks. *)
Definition opens_with_fence (text : string) : Prop :=
  exists blank rest,
    Forall blank_unit blank /\ chars text = blank ++ three_backticks ++ rest.

End SplitSpec.

Module SessionSpec.
Import Storage.

(** The active preset, when there is one, is a preset of the list. *)
Definition active_is_listed (st : PromptForm.State) : Prop :=
  match PromptForm.activePreset st with
  | None => True
  | Some id => exists p, In p (PromptForm.presets st) /\ ModelPreset.id p = id
  end.

(** The storage holds, under the key of the form, the JSON text of the
    presets of the state. *)
Definition form_mirrored (w : PromptForm.World) : Prop :=
  getItem (PromptForm.storage w) PromptForm.key
  = Some (stringify_presets (PromptForm.presets (PromptForm.state w))).

(** Under the key of the form the storage holds nothing, a text that is
    not JSON, or what the form wrote there. *)
Definition form_written (ls : localStorage) : Prop :=
  getItem ls PromptForm.key = None
  \/ (exists raw complaint, getItem ls PromptForm.key = Some (OtherText raw complaint))
  \/ (exists presets, getItem ls PromptForm.key = Some (stringify_presets presets)).

Definition preset_ids (l : list ModelPreset.t) : list string := map ModelPreset.id l.

(** A restart would show the library of the state, dates as ISO
    strings. *)
Definition library_durable (w : PromptEnhancer.World) : Prop :=
  exists w2, PromptEnhancer.mount (PromptEnhancer.storage w) = Some w2
             /\ map reread_prompt (PromptEnhancer.savedPrompts (PromptEnhancer.state w2))
                = map reread_prompt (PromptEnhancer.savedPrompts (PromptEnhancer.state w)).

(** What a session on the library keeps true at every step: nothing was
    written and the library is the mounted one, or the key holds the
    JSON text of the library. *)
Definition library_kept (w0 w : PromptEnhancer.World) : Prop :=
  ((PromptEnhancer.storage w = PromptEnhancer.storage w0
    /\ PromptEnhancer.savedPrompts (PromptEnhancer.state w)
       = PromptEnhancer.savedPrompts (PromptEnhancer.state w0))
   \/ getItem (PromptEnhancer.storage w) PromptEnhancer.key
      = Some (stringify_prompts (PromptEnhancer.savedPrompts (PromptEnhancer.state w))))
  /\ (forall k, k <> PromptEnhancer.key ->
                getItem (PromptEnhancer.storage w) k
                = getItem (PromptEnhancer.storage w0) k)
  /\ PromptEnhancer.console w = PromptEnhancer.console w0.

(** A record as [saveEnhancedPrompt] makes them: it carries the
    enhancement instruction and an enhanced prompt that is not empty. *)
Definition made_here (p : EnhancedPrompt.t) : Prop :=
  EnhancedPrompt.systemPrompt p = PromptEnhancer.ENHANCEMENT_SYSTEM_PROMPT
  /\ Text.truthy (EnhancedPrompt.enhancedPrompt p) = true.

(** What a session on the form keeps true at every step. *)
Definition form_kept (ls : localStorage) (w : PromptForm.World) : Prop :=
  form_mirrored w /\ active_is_listed (PromptForm.state w)
  /\ forall k, k <> PromptForm.key ->
               getItem (PromptForm.storage w) k = getItem ls k.

End SessionSpec.

Module ChatSpec.
Import Host.

(** The value a property read yields, [undefined] standing in when the
    read throws. *)
Definition peek (v : value) (p : prop) : value :=
  match get v p with
  | inr x => x
  | inl _ => None
  end.

(** The call that raises or lowers the loading state at the enhancement
    request. *)
Definition loading_call (hasLoadingHandler : bool) (loading : bool) : event :=
  if hasLoadingHandler then onSetLoadingState loading else setIsEnhancing loading.

End ChatSpec.

(** Sample states used to instantiate the properties. *)
Module Samples.
Import Storage.
Local Open Scope string_scope.

Definition form_with_name : PromptForm.World :=
  {| PromptForm.state := PromptForm.setNewPresetName "Terse" PromptForm.initial;
     PromptForm.storage := ∅;
     PromptForm.console := [] |}.

Definition enhancer_with_result : PromptEnhancer.World :=
  {| PromptEnhancer.state :=
       {| PromptEnhancer.basePrompt := "a poem";
          PromptEnhancer.enhancedPrompt := "Write a short poem about the sea.";
          PromptEnhancer.isEnhancing := false;
          PromptEnhancer.selectedCategory := "Creative Writing";
          PromptEnhancer.filterCategory := "All";
          PromptEnhancer.savedPrompts := [];
          PromptEnhancer.showSaved := false;
          PromptEnhancer.showResult := false |};
     PromptEnhancer.storage := ∅;
     PromptEnhancer.console := [] |}.

Definition sample_uuid : string := "123e4567-e89b-42d3-a456-426614174000".

Definition library_of_two : PromptEnhancer.World :=
  {| PromptEnhancer.state :=
       PromptEnhancer.setSavedPrompts
         [ EnhancedPrompt.mk "a" "p1" "e1" "s" "General"
             (EnhancedPrompt.IsoString 1000) false;
           EnhancedPrompt.mk "b" "p2" "e2" "s" "Coding"
             (EnhancedPrompt.DateObject 2000) true ]
         PromptEnhancer.initial;
     PromptEnhancer.storage := ∅;
     PromptEnhancer.console := [] |}.

Definition form_at_start : PromptForm.World :=
  {| PromptForm.state := PromptForm.initial;
     PromptForm.storage := ∅;
     PromptForm.console := [] |}.

(** The form with a name for a new preset, after the max-tokens input
    was emptied: [parseInt] of the empty string is NaN. *)
Definition form_with_cleared_limit : PromptForm.World :=
  FormActions.update
    (FormActions.setInputs "Always answer in rhymes. Today is Thursday"
       "What day is it today?" "mistral-nemo-instruct-2407"
       0.7%float PrimFloat.nan false)
    form_with_name.

(** The preset saved from that form under the generated id, with the
    given max tokens. *)
Definition terse_preset (maxTokens : Host.number) : ModelPreset.t :=
  ModelPreset.mk sample_uuid "Terse" "mistral-nemo-instruct-2407"
    "Always answer in rhymes. Today is Thursday" (Host.Num 0.7%float) maxTokens.

(** The form mounted on an empty storage. *)
Definition mounted_form : PromptForm.World :=
  {| PromptForm.state := PromptForm.initial;
     PromptForm.storage := PromptForm.save_effect PromptForm.initial ∅;
     PromptForm.console := [] |}.

(** The library mounted on an empty storage. *)
Definition mounted_library : PromptEnhancer.World :=
  {| PromptEnhancer.state := PromptEnhancer.initial;
     PromptEnhancer.storage := ∅;
     PromptEnhancer.console := [] |}.

End Samples.

(** * Properties *)

(** ** Host strings *)

Section TextFacts.
Import Text.
Local Arguments fence_length : simpl never.

Lemma chars_str (l : units) : chars (str l) = l.
Proof. apply list_ascii_of_string_of_list_ascii. Qed.

Lemma str_chars (s : string) : str (chars s) = s.
Proof. apply string_of_list_ascii_of_string. Qed.

Lemma truthy_str (l : units) : truthy (str l) = true <-> l <> [].
Proof. destruct l; simpl; split; intros; congruence. Qed.

Lemma truthy_str_false (l : units) : truthy (str l) = false <-> l = [].
Proof. destruct l; simpl; split; intros; congruence. Qed.

Lemma code_inj (a b : ascii) : code a = code b -> a = b.
Proof.
  unfold code. intros H.
  rewrite <- (ascii_N_embedding a), <- (ascii_N_embedding b). now f_equal.
Qed.

Lemma is_backtick_eq (c : ascii) : is_backtick c = true -> c = backtick.
Proof. unfold is_backtick. intros H. apply N.eqb_eq in H. now apply code_inj. Qed.

Lemma is_newline_eq (c : ascii) : is_newline c = true -> c = newline.
Proof. unfold is_newline. intros H. apply N.eqb_eq in H. now apply code_inj. Qed.

Lemma newline_is_space (c : ascii) : is_newline c = true -> is_space c = true.
Proof. intros H. apply is_newline_eq in H. now subst. Qed.

Lemma non_space_app (l k : units) : non_space (l ++ k) = non_space l ++ non_space k.
Proof. apply List.filter_app. Qed.

Lemma non_space_drop_spaces (l : units) : non_space (drop_spaces l) = non_space l.
Proof.
  induction l as [|c l IH]; simpl; [reflexivity|].
  destruct (is_space c) eqn:E; simpl; [assumption | now rewrite E].
Qed.

Lemma non_space_trim (l : units) : non_space (trim_units l) = non_space l.
Proof.
  unfold trim_units, non_space.
  rewrite List.filter_rev. fold (non_space (drop_spaces (rev (drop_spaces l)))).
  rewrite non_space_drop_spaces. unfold non_space.
  rewrite List.filter_rev, rev_involutive. apply non_space_drop_spaces.
Qed.

Lemma drop_spaces_blank (l : units) : non_space l = [] -> drop_spaces l = [].
Proof.
  induction l as [|c l IH]; simpl; [reflexivity|].
  destruct (is_space c); simpl; [assumption | discriminate].
Qed.

(** A string trims to the empty string exactly when it holds nothing but
    white space. *)
Lemma trim_blank (l : units) : trim_units l = [] <-> non_space l = [].
Proof.
  split; intros H.
  - rewrite <- non_space_trim, H. reflexivity.
  - unfold trim_units. now rewrite (drop_spaces_blank l H).
Qed.

Lemma truthy_trim (s : string) :
  truthy (trim s) = true <-> non_space (chars s) <> [].
Proof. unfold trim. rewrite truthy_str, trim_blank. reflexivity. Qed.

Lemma truthy_trim_false (s : string) :
  truthy (trim s) = false <-> non_space (chars s) = [].
Proof. unfold trim. rewrite truthy_str_false, trim_blank. reflexivity. Qed.

Lemma non_space_chars_trim (s : string) :
  non_space (chars (trim s)) = non_space (chars s).
Proof. unfold trim. rewrite chars_str. apply non_space_trim. Qed.

(** *** Splitting on the fence pattern *)

Lemma word_run_prefix (l : units) :
  l = word_run l ++ drop (length (word_run l)) l.
Proof.
  induction l as [|c l IH]; simpl; [reflexivity|].
  destruct (is_word c); simpl; [now f_equal | reflexivity].
Qed.

Lemma word_run_words (l : units) : forallb is_word (word_run l) = true.
Proof.
  induction l as [|c l IH]; simpl; [reflexivity|].
  destruct (is_word c) eqn:E; simpl; [now rewrite E | reflexivity].
Qed.

Lemma fence_length_marker (l : units) (n : nat) :
  fence_length l = Some n -> fence_marker (take n l).
Proof.
  unfold fence_length.
  destruct l as [|a [|b [|c rest]]]; try discriminate.
  destruct (is_backtick a) eqn:Ea; [|discriminate].
  destruct (is_backtick b) eqn:Eb; [|discriminate].
  destruct (is_backtick c) eqn:Ec; [|discriminate]. simpl.
  apply is_backtick_eq in Ea, Eb, Ec. subst a b c.
  pose proof (word_run_prefix rest) as Hrest.
  destruct (drop (length (word_run rest)) rest) as [|d tail] eqn:Ed.
  - intros [= <-]. now left.
  - destruct (is_newline d) eqn:En; intros [= <-]; [|now left].
    right. exists (word_run rest). split; [apply word_run_words|].
    apply is_newline_eq in En. subst d.
    simpl. do 3 f_equal.
    rewrite Hrest at 2.
    rewrite take_app_ge by lia.
    replace (length (word_run rest) + 1 - length (word_run rest)) with 1 by lia.
    reflexivity.
Qed.

Lemma split_fence_units_cons (skip : nat) (l : units) :
  exists p ps, split_fence_units skip l = p :: ps.
Proof.
  revert skip. induction l as [|c l IH]; intros skip; simpl; [eauto|].
  destruct skip as [|k]; [|apply IH].
  destruct (fence_length (c :: l)) as [[|m]|];
    try (destruct (IH 0) as (p & ps & ->)); do 2 eexists; reflexivity.
Qed.

Lemma weave_cons (c : ascii) (p : units) (ps markers : list units) :
  weave ((c :: p) :: ps) markers = c :: weave (p :: ps) markers.
Proof. destruct markers; reflexivity. Qed.

(** Splitting loses nothing but the delimiters. *)
Lemma weave_split (skip : nat) (l : units) :
  weave (split_fence_units skip l) (fence_markers skip l) = drop skip l.
Proof.
  revert skip. induction l as [|c l IH]; intros skip.
  - now destruct skip.
  - destruct skip as [|k]; [|apply IH]. cbn [split_fence_units fence_markers].
    assert (Hkeep : weave
              match split_fence_units 0 l with
              | p :: ps => (c :: p) :: ps
              | [] => [[c]]
              end (fence_markers 0 l) = c :: l).
    { destruct (split_fence_units_cons 0 l) as (p & ps & E).
      rewrite E, weave_cons, <- E, IH. reflexivity. }
    destruct (fence_length (c :: l)) as [[|m]|]; try exact Hkeep.
    cbn [weave]. rewrite IH. cbn [app take drop]. f_equal. apply take_drop.
Qed.

Lemma fence_markers_shape (skip : nat) (l : units) :
  Forall fence_marker (fence_markers skip l).
Proof.
  revert skip. induction l as [|c l IH]; intros skip; simpl; [constructor|].
  destruct skip as [|k]; [|apply IH].
  destruct (fence_length (c :: l)) as [[|m]|] eqn:E; try apply IH.
  constructor; [|apply IH]. exact (fence_length_marker (c :: l) (S m) E).
Qed.

Lemma split_fence_units_length (skip : nat) (l : units) :
  length (split_fence_units skip l) = S (length (fence_markers skip l)).
Proof.
  revert skip. induction l as [|c l IH]; intros skip; simpl; [reflexivity|].
  destruct skip as [|k]; [|apply IH].
  destruct (fence_length (c :: l)) as [[|m]|]; simpl; try (now rewrite IH);
    destruct (split_fence_units_cons 0 l) as (p & ps & E);
    rewrite E; simpl; rewrite <- (IH 0), E; reflexivity.
Qed.

(** *** Splitting into lines *)

Lemma non_space_split_newline (l : units) :
  non_space (concat (split_newline_units l)) = non_space l.
Proof.
  induction l as [|c l IH]; simpl; [reflexivity|].
  destruct (is_newline c) eqn:E.
  - simpl. now rewrite (newline_is_space c E).
  - destruct (split_newline_units l) as [|p ps]; simpl in *;
      destruct (is_space c); simpl; now rewrite IH.
Qed.

Lemma non_space_kept_lines (lines : list units) :
  non_space (concat (map chars
     (List.filter (fun paragraph => truthy (trim paragraph)) (map str lines))))
  = non_space (concat lines).
Proof.
  induction lines as [|x lines IH]; simpl; [reflexivity|].
  rewrite non_space_app, <- IH.
  destruct (truthy (trim (str x))) eqn:E; simpl.
  - now rewrite chars_str, non_space_app.
  - apply truthy_trim_false in E. rewrite chars_str in E. now rewrite E.
Qed.

End TextFacts.

(** ** Segment formatter *)

Section SegmentFacts.
Import Text SegmentFormatter SegmentSpec.
Local Open Scope string_scope.


Lemma mod2_odd (n : nat) : Nat.eqb (n mod 2) 1 = Nat.odd n.
Proof. rewrite <- Nat.bit0_eqb. apply Nat.bit0_odd. Qed.

Lemma mod2_even (n : nat) : Nat.eqb (n mod 2) 0 = Nat.even n.
Proof.
  rewrite <- Nat.negb_odd, <- mod2_odd.
  pose proof (Nat.mod_upper_bound n 2 ltac:(lia)) as H.
  destruct (n mod 2) as [|[|k]]; simpl; [reflexivity | reflexivity | lia].
Qed.

Lemma format_part_spec (b : bool) (index : nat) (part : string) :
  format_part b index part =
  if truthy (trim part) then Some (segment_of b index part) else None.
Proof.
  unfold format_part, segment_of. rewrite mod2_odd, mod2_even.
  destruct (truthy (trim part)); simpl; [|reflexivity].
  destruct b, (Nat.odd index), (Nat.even index); reflexivity.
Qed.

Lemma rendered_unfold (text : string) :
  rendered text =
  omap id (imap (format_part (startsWith (trim text) fence)) (split_fence text)).
Proof.
  unfold rendered, formatOutput.
  destruct text as [|c text]; [reflexivity|]. reflexivity.
Qed.

Lemma elem_of_rendered (text : string) (seg : segment) :
  seg ∈ rendered text <->
  exists index part,
    split_fence text !! index = Some part
    /\ truthy (trim part) = true
    /\ seg = segment_of (startsWith (trim text) fence) index part.
Proof.
  rewrite rendered_unfold, list_elem_of_omap. split.
  - intros (o & Ho & Hid). apply elem_of_lookup_imap in Ho as (i & part & -> & Hi).
    unfold id in Hid. rewrite format_part_spec in Hid.
    destruct (truthy (trim part)) eqn:E; [|discriminate].
    injection Hid as <-. eauto.
  - intros (i & part & Hi & Ht & ->).
    exists (format_part (startsWith (trim text) fence) i part). split.
    + apply elem_of_lookup_imap. eauto.
    + unfold id. rewrite format_part_spec, Ht. reflexivity.
Qed.

Lemma format_part_content (b : bool) (index : nat) (part : string) :
  non_space (option_content (format_part b index part)) = non_space (chars part).
Proof.
  rewrite format_part_spec.
  destruct (truthy (trim part)) eqn:E.
  - unfold segment_of.
    destruct (if b then Nat.odd index else Nat.even index); simpl.
    + apply non_space_chars_trim.
    + unfold paragraphs_of, split_newline.
      rewrite non_space_kept_lines. apply non_space_split_newline.
  - apply truthy_trim_false in E. now rewrite E.
Qed.

Lemma content_of_parts (f : nat -> string -> option segment) (parts : list string) :
  (forall i part, non_space (option_content (f i part)) = non_space (chars part)) ->
  non_space (concat (map content_units (omap id (imap f parts))))
  = non_space (concat (map chars parts)).
Proof.
  revert f. induction parts as [|part parts IH]; intros f Hf; [reflexivity|].
  rewrite imap_cons. cbn [map concat]. rewrite non_space_app, <- (Hf 0 part).
  rewrite <- (IH (f ∘ S)) by (intros; apply Hf).
  cbn [omap list_omap]. unfold id at 1.
  destruct (f 0 part) as [seg|]; cbn [option_content map concat].
  - now rewrite non_space_app.
  - reflexivity.
Qed.

Lemma segment_of_content (b : bool) (index : nat) (part : string) :
  truthy (trim part) = true ->
  non_space (content_units (segment_of b index part)) <> [].
Proof.
  intros Ht.
  pose proof (format_part_content b index part) as H.
  rewrite format_part_spec, Ht in H. simpl in H. rewrite H.
  now apply truthy_trim.
Qed.

Lemma truthy_nonempty (s : string) : truthy s = true -> s <> "".
Proof. destruct s; simpl; congruence. Qed.

(** C4: on the text [a], newline, fenced [code], newline, [b], the prose
    before and after the fence comes out as code blocks and the fenced
    [code] as a text block. *)
Theorem formatOutput_prose_first :
  formatOutput prose_first_example
  = Some [CodeBlock 0 "a"; TextBlock 1 ["code"]; CodeBlock 2 "b"].
Proof. vm_compute. reflexivity. Qed.

End SegmentFacts.

(** ** Chat client *)


Section ChatFacts.
Import Text Host Observe.
Local Open Scope string_scope.

Lemma read_content_trace (data : json) : trace (read_content data) = [].
Proof.
  unfold read_content, bind, lift, trace.
  destruct (get (Some data) (Named "choices")) as [e|choices]; [reflexivity|].
  destruct (get choices (Indexed 0)) as [e|first]; [reflexivity|].
  destruct (get first (Named "message")) as [e|message]; [reflexivity|].
  destruct (get message (Named "content")); reflexivity.
Qed.

Lemma read_content_eta (data : json) :
  read_content data = ([], completion (read_content data)).
Proof.
  pose proof (read_content_trace data) as H. unfold trace, completion in *.
  destruct (read_content data) as [t r]. simpl in *. now subst.
Qed.

Local Arguments read_content : simpl never.

Ltac run_site net :=
  destruct net as [reason|[data|raw complaint]]; cbn;
  [ | rewrite (read_content_eta data);
      destruct (completion (read_content data)) as [e|content] | ];
  cbn; auto.

Lemma handleSubmit_run (st : PromptForm.State) (apiEndpoint : string) (net : reply) :
  completion (PromptForm.handleSubmit st apiEndpoint net) = inr tt
  /\ delivered (trace (PromptForm.handleSubmit st apiEndpoint net))
     = [shown_for "Error: " (chat_outcome net)]
  /\ requests (trace (PromptForm.handleSubmit st apiEndpoint net))
     = [post apiEndpoint
          (JObj [ ("model", JStr (PromptForm.model st));
                  ("messages", chat_messages (PromptForm.systemPrompt st)
                                 (PromptForm.userPrompt st));
                  ("temperature", json_cell (PromptForm.temperature st));
                  ("max_tokens", json_cell (PromptForm.maxTokens st));
                  ("stream", JBool (PromptForm.stream st)) ])].
Proof. unfold PromptForm.handleSubmit. run_site net. Qed.

Lemma handleEnhancedPrompt_run (apiEndpoint systemPrompt userPrompt : string)
    (net : reply) :
  completion (App.handleEnhancedPrompt apiEndpoint systemPrompt userPrompt net) = inr tt
  /\ delivered (trace (App.handleEnhancedPrompt apiEndpoint systemPrompt userPrompt net))
     = [Some (JStr ""); shown_for "Error: " (chat_outcome net)]
  /\ requests (trace (App.handleEnhancedPrompt apiEndpoint systemPrompt userPrompt net))
     = [post apiEndpoint
          (JObj [ ("model", JStr "mistral-nemo-instruct-2407");
                  ("messages", chat_messages systemPrompt userPrompt);
                  ("temperature", JNum 0.7%float);
                  ("max_tokens", JNum (-1)%float) ])].
Proof. unfold App.handleEnhancedPrompt. run_site net. Qed.

Lemma enhancePrompt_run (apiEndpoint : string) (hasLoadingHandler : bool)
    (basePrompt : string) (net : reply) :
  truthy (trim basePrompt) = true ->
  completion (PromptEnhancer.enhancePrompt apiEndpoint hasLoadingHandler basePrompt net)
  = inr tt
  /\ delivered (trace (PromptEnhancer.enhancePrompt apiEndpoint hasLoadingHandler
                         basePrompt net))
     = [Some (JStr ""); shown_for "Error enhancing prompt: " (chat_outcome net)]
  /\ requests (trace (PromptEnhancer.enhancePrompt apiEndpoint hasLoadingHandler
                        basePrompt net))
     = [post apiEndpoint
          (JObj [ ("model", JStr "mistral-nemo-instruct-2407");
                  ("messages",
                   chat_messages PromptEnhancer.ENHANCEMENT_SYSTEM_PROMPT basePrompt);
                  ("temperature", JNum 0.7%float);
                  ("max_tokens", JNum (-1)%float) ])].
Proof.
  intros Hbase. unfold PromptEnhancer.enhancePrompt. rewrite Hbase.
  destruct hasLoadingHandler; run_site net.
Qed.

Lemma enhancePrompt_blank (apiEndpoint : string) (hasLoadingHandler : bool)
    (basePrompt : string) (net : reply) :
  truthy (trim basePrompt) = false ->
  PromptEnhancer.enhancePrompt apiEndpoint hasLoadingHandler basePrompt net = ([], inr tt).
Proof. intros Hbase. unfold PromptEnhancer.enhancePrompt. now rewrite Hbase. Qed.

End ChatFacts.

Section ChatClaims.
Import Text Host Observe.
Local Open Scope string_scope.

(** A property read throws exactly on [undefined] and [null]. *)
Lemma get_throws (v : value) (p : prop) :
  (exists error, get v p = inl error) <-> nullish v = true.
Proof.
  destruct v as [[| | | | |]|]; simpl; split;
    try reflexivity; try discriminate; eauto;
    intros [error H]; try discriminate H;
    destruct p; discriminate H.
Qed.

(** A response without [choices] makes the read throw a TypeError. *)
Lemma missing_choices_throws :
  chat_outcome (Responds (JsonBody (JObj [("error", JStr "model not loaded")])))
  = inl (ErrorObject "Cannot read properties of undefined (reading '0')").
Proof. reflexivity. Qed.

(** An empty [choices] array makes the read throw as well. *)
Lemma empty_choices_throws :
  chat_outcome (Responds (JsonBody (JObj [("choices", JArr [])])))
  = inl (ErrorObject "Cannot read properties of undefined (reading 'message')").
Proof. reflexivity. Qed.

(** A [message] object without [content] is read without a throw: the
    value is [undefined]. *)
Lemma missing_content_is_undefined :
  chat_outcome
    (Responds (JsonBody (JObj [("choices", JArr [JObj [("message", JObj [])]])])))
  = inr None.
Proof. reflexivity. Qed.

(** The reading of a well-shaped response. *)
Lemma content_is_read (content : string) :
  chat_outcome
    (Responds (JsonBody
       (JObj [("choices",
               JArr [JObj [("message", JObj [("role", JStr "assistant");
                                              ("content", JStr content)])]])])))
  = inr (Some (JStr content)).
Proof.
  cbn. unfold member. cbn. reflexivity.
Qed.

(** C1, as the code has it: at each of the three call sites the
    operation never rejects; what the [try] block throws (the rejection
    of [fetch], the SyntaxError of a body that is not JSON, the TypeError
    of a read through [undefined] or [null]) is caught and shown as one
    text, [Error: ] followed by the message at direct submission and at
    post-enhancement generation, [Error enhancing prompt: ] followed by
    the message at the enhancement request; a read that does not throw
    shows the value read. *)
Theorem chat_failures_become_text
    (st : PromptForm.State) (apiEndpoint systemPrompt userPrompt basePrompt : string)
    (hasLoadingHandler : bool) (net : reply) :
  (completion (PromptForm.handleSubmit st apiEndpoint net) = inr tt
   /\ delivered (trace (PromptForm.handleSubmit st apiEndpoint net))
      = [match chat_outcome net with
         | inl error => Some (JStr ("Error: " ++ error_text error))
         | inr content => content
         end])
  /\ (completion (App.handleEnhancedPrompt apiEndpoint systemPrompt userPrompt net)
      = inr tt
      /\ delivered (trace (App.handleEnhancedPrompt apiEndpoint systemPrompt
                             userPrompt net))
         = [Some (JStr "");
            match chat_outcome net with
            | inl error => Some (JStr ("Error: " ++ error_text error))
            | inr content => content
            end])
  /\ (completion (PromptEnhancer.enhancePrompt apiEndpoint hasLoadingHandler
                    basePrompt net) = inr tt
      /\ delivered (trace (PromptEnhancer.enhancePrompt apiEndpoint hasLoadingHandler
                             basePrompt net))
         = if truthy (trim basePrompt)
           then [Some (JStr "");
                 match chat_outcome net with
                 | inl error =>
                     Some (JStr ("Error enhancing prompt: " ++ error_text error))
                 | inr content => content
                 end]
           else []).
Proof.
  split; [|split].
  - destruct (handleSubmit_run st apiEndpoint net) as (Hc & Hd & _). now split.
  - destruct (handleEnhancedPrompt_run apiEndpoint systemPrompt userPrompt net)
      as (Hc & Hd & _). now split.
  - destruct (truthy (trim basePrompt)) eqn:Hbase.
    + destruct (enhancePrompt_run apiEndpoint hasLoadingHandler basePrompt net Hbase)
        as (Hc & Hd & _). now split.
    + rewrite (enhancePrompt_blank _ _ _ net Hbase). now split.
Qed.

(** C1, as stated, fails at the enhancement request: a rejected [fetch]
    is shown with another prefix than [Error: ]. *)
Lemma enhancePrompt_error_prefix :
  delivered (trace (PromptEnhancer.enhancePrompt "http://localhost:1234" true
                      "Write a poem" (Rejects (ErrorObject "Failed to fetch"))))
  = [Some (JStr ""); Some (JStr "Error enhancing prompt: Failed to fetch")]
  /\ ~ (exists message : string,
          "Error enhancing prompt: Failed to fetch" = "Error: " ++ message).
Proof.
  split; [reflexivity|].
  intros [message H]. discriminate H.
Qed.

(** C2, as the code has it: each call that reaches [fetch] makes one
    POST to the endpoint followed by [/v1/chat/completions]; at direct
    submission the body has the members model, messages, temperature,
    max_tokens and stream taken from the form, a max_tokens of -1 being
    written as -1; at post-enhancement generation and at the enhancement
    request the body has the four members model, messages, temperature
    and max_tokens, with the fixed model name, 0.7 and -1, and no stream
    member; the enhancement request is made only for a base prompt that
    is not blank. *)
Theorem chat_request_shape
    (st : PromptForm.State) (apiEndpoint systemPrompt userPrompt basePrompt : string)
    (hasLoadingHandler : bool) (net : reply) :
  requests (trace (PromptForm.handleSubmit st apiEndpoint net))
  = [ {| url := apiEndpoint ++ "/v1/chat/completions";
         method := "POST";
         headers := [("Content-Type", "application/json")];
         body := documented_body (PromptForm.model st) (PromptForm.systemPrompt st)
                   (PromptForm.userPrompt st)
                   (json_cell (PromptForm.temperature st))
                   (json_cell (PromptForm.maxTokens st))
                   (PromptForm.stream st) |} ]
  /\ (PromptForm.maxTokens st = Num (-1)%float ->
      json_cell (PromptForm.maxTokens st) = JNum (-1)%float)
  /\ requests (trace (App.handleEnhancedPrompt apiEndpoint systemPrompt userPrompt net))
     = [ {| url := apiEndpoint ++ "/v1/chat/completions";
            method := "POST";
            headers := [("Content-Type", "application/json")];
            body := JObj [ ("model", JStr "mistral-nemo-instruct-2407");
                           ("messages",
                            JArr [ JObj [("role", JStr "system");
                                         ("content", JStr systemPrompt)];
                                   JObj [("role", JStr "user");
                                         ("content", JStr userPrompt)] ]);
                           ("temperature", JNum 0.7%float);
                           ("max_tokens", JNum (-1)%float) ] |} ]
  /\ requests (trace (PromptEnhancer.enhancePrompt apiEndpoint hasLoadingHandler
                        basePrompt net))
     = if truthy (trim basePrompt)
       then [ {| url := apiEndpoint ++ "/v1/chat/completions";
                 method := "POST";
                 headers := [("Content-Type", "application/json")];
                 body := JObj [ ("model", JStr "mistral-nemo-instruct-2407");
                                ("messages",
                                 JArr [ JObj [("role", JStr "system");
                                              ("content",
                                               JStr PromptEnhancer.ENHANCEMENT_SYSTEM_PROMPT)];
                                        JObj [("role", JStr "user");
                                              ("content", JStr basePrompt)] ]);
                                ("temperature", JNum 0.7%float);
                                ("max_tokens", JNum (-1)%float) ] |} ]
       else [].
Proof.
  split; [|split; [|split]].
  - now destruct (handleSubmit_run st apiEndpoint net) as (_ & _ & ->).
  - intros ->. reflexivity.
  - now destruct (handleEnhancedPrompt_run apiEndpoint systemPrompt userPrompt net)
      as (_ & _ & ->).
  - destruct (truthy (trim basePrompt)) eqn:Hbase.
    + now destruct (enhancePrompt_run apiEndpoint hasLoadingHandler basePrompt net Hbase)
        as (_ & _ & ->).
    + now rewrite (enhancePrompt_blank _ _ _ net Hbase).
Qed.

(** C2, as stated, fails at post-enhancement generation: the body sent
    has no [stream] member, so it is not the documented body for any
    model, temperature, max_tokens and stream. *)
Lemma handleEnhancedPrompt_body_lacks_stream :
  let sent :=
    requests (trace (App.handleEnhancedPrompt "http://localhost:1234"
                       "Be brief." "Hello" (Rejects (ErrorObject "Failed to fetch")))) in
  map (fun r => get (Some (body r)) (Named "stream")) sent = [inr None]
  /\ ~ (exists model temperature maxTokens stream,
          map body sent
          = [documented_body model "Be brief." "Hello" temperature maxTokens stream]).
Proof.
  split; [reflexivity|].
  intros (model & temperature & maxTokens & stream & H). discriminate H.
Qed.

End ChatClaims.

(** ** Library view *)

Section SortFacts.
Import PromptEnhancer ViewSpec.


Lemma insert_sorted_perm {A} (comparefn : A -> A -> Z) (x : A) (l : list A) :
  Permutation (insert_sorted comparefn x l) (x :: l).
Proof.
  induction l as [|y l IH]; simpl; [reflexivity|].
  destruct (comparefn x y <=? 0)%Z; [reflexivity|].
  rewrite IH. apply perm_swap.
Qed.

Lemma Array_sort_perm {A} (comparefn : A -> A -> Z) (l : list A) :
  Permutation (Array_sort comparefn l) l.
Proof.
  induction l as [|x l IH]; simpl; [reflexivity|].
  rewrite insert_sorted_perm. now constructor.
Qed.

Lemma insert_newest_first (x : EnhancedPrompt.t) (l : list EnhancedPrompt.t) :
  StronglySorted not_older l ->
  StronglySorted not_older (insert_sorted newest_first x l).
Proof.
  induction 1 as [|y l Hsorted IH Hall]; simpl.
  - repeat constructor.
  - destruct (Z.leb_spec (newest_first x y) 0) as [Hle|Hgt].
    + constructor; [now constructor|].
      unfold newest_first in Hle. fold (time_of y) (time_of x) in Hle.
      constructor; [unfold not_older; lia|].
      eapply List.Forall_impl; [|exact Hall].
      unfold not_older. intros z Hz. lia.
    + constructor; [exact IH|].
      apply (Permutation_Forall (x := x :: l)).
      * symmetry. apply insert_sorted_perm.
      * constructor; [|exact Hall].
        unfold newest_first in Hgt. fold (time_of y) (time_of x) in Hgt.
        unfold not_older. lia.
Qed.

Lemma Array_sort_newest_first (l : list EnhancedPrompt.t) :
  StronglySorted not_older (Array_sort newest_first l).
Proof.
  induction l as [|x l IH]; simpl; [constructor|].
  now apply insert_newest_first.
Qed.

(** The sort is stable: records of one time value keep their order. *)
Lemma insert_newest_first_stable (t : Z) (x : EnhancedPrompt.t)
    (l : list EnhancedPrompt.t) :
  List.filter (created_at t) (insert_sorted newest_first x l)
  = List.filter (created_at t) (x :: l).
Proof.
  induction l as [|y l IH]; [reflexivity|].
  cbn [insert_sorted].
  destruct (Z.leb_spec (newest_first x y) 0) as [Hle|Hgt]; [reflexivity|].
  cbn [List.filter] in *. rewrite IH.
  unfold newest_first in Hgt. fold (time_of y) (time_of x) in Hgt.
  unfold created_at.
  destruct (Z.eqb_spec (time_of x) t), (Z.eqb_spec (time_of y) t);
    try reflexivity; lia.
Qed.

Lemma Array_sort_stable (t : Z) (l : list EnhancedPrompt.t) :
  List.filter (created_at t) (Array_sort newest_first l)
  = List.filter (created_at t) l.
Proof.
  induction l as [|x l IH]; [reflexivity|].
  cbn [Array_sort fold_right]. fold (Array_sort newest_first l).
  rewrite insert_newest_first_stable. cbn [List.filter]. now rewrite IH.
Qed.

Lemma matches_spec (filterCategory : string) (p : EnhancedPrompt.t) :
  matches filterCategory p = true
  <-> filterCategory = "All"%string \/ EnhancedPrompt.category p = filterCategory.
Proof.
  unfold matches. rewrite orb_true_iff, !String.eqb_eq. reflexivity.
Qed.

Lemma shown_three (a b c : EnhancedPrompt.t) :
  (time_of a <> time_of b)%Z -> (time_of a <> time_of c)%Z ->
  (time_of b <> time_of c)%Z ->
  StronglySorted not_older [a; b; c] ->
  forall l, Permutation l [a; b; c] -> Array_sort newest_first l = [a; b; c].
Proof.
  intros Hab Hac Hbc Hsorted l Hperm.
  assert (Hlen : length l = 3) by (now rewrite (Permutation_length Hperm)).
  destruct l as [|x [|y [|z [|? ?]]]]; try discriminate Hlen.
  assert (Hx : In x [a; b; c]) by (apply (Permutation_in _ Hperm); simpl; auto).
  assert (Hy : In y [a; b; c]) by (apply (Permutation_in _ Hperm); simpl; auto).
  assert (Hz : In z [a; b; c]) by (apply (Permutation_in _ Hperm); simpl; auto).
  assert (Hnd : List.NoDup [x; y; z]).
  { apply (Permutation_NoDup (l := [a; b; c])); [now symmetry|].
    repeat constructor; simpl; intuition congruence. }
  inversion Hnd as [|? ? Hx' Hnd']; subst.
  inversion Hnd' as [|? ? Hy' _]; subst.
  inversion Hsorted as [|? ? Hs1 Ha]; subst.
  inversion Hs1 as [|? ? _ Hb]; subst.
  inversion Ha as [|? ? Hab' Ha']; subst. inversion Ha' as [|? ? Hac' _]; subst.
  inversion Hb as [|? ? Hbc' _]; subst.
  unfold not_older, time_of in *.
  simpl in Hx, Hy, Hz, Hx', Hy'.
  destruct Hx as [<-|[<-|[<-|[]]]], Hy as [<-|[<-|[<-|[]]]], Hz as [<-|[<-|[<-|[]]]];
    try (exfalso; tauto);
    cbn; unfold newest_first;
    repeat match goal with
           | |- context [(?u <=? 0)%Z] => destruct (Z.leb_spec u 0); try lia; cbn
           end; reflexivity.
Qed.

End SortFacts.

Section ViewFacts.
Import PromptEnhancer ViewSpec.
Local Open Scope string_scope.

Lemma libraryView_result (h : heap) (savedPrompts : nat) (filterCategory : string) :
  snd (libraryView h savedPrompts filterCategory) = length h
  /\ array_at (fst (libraryView h savedPrompts filterCategory)) (length h)
     = shown filterCategory (array_at h savedPrompts).
Proof.
  unfold libraryView, filter_call, sort_call, shown. cbn [fst snd].
  split; [reflexivity|].
  assert (Hnew : forall x : list EnhancedPrompt.t,
             array_at (h ++ [x])%list (length h) = x).
  { intros x. unfold array_at.
    rewrite lookup_app_r by lia. now rewrite Nat.sub_diag. }
  rewrite Hnew. unfold array_at at 1.
  rewrite list_lookup_insert_eq; [reflexivity|].
  rewrite length_app. simpl. lia.
Qed.

Lemma libraryView_frame (h : heap) (savedPrompts : nat) (filterCategory : string)
    (a : nat) :
  a < length h ->
  array_at (fst (libraryView h savedPrompts filterCategory)) a = array_at h a.
Proof.
  intros Ha. unfold libraryView, filter_call, sort_call. cbn [fst].
  unfold array_at at 1 3.
  rewrite list_lookup_insert_ne by lia.
  now rewrite lookup_app_l by lia.
Qed.

(** C9: the view is a new array holding the stored records whose
    category is the chosen one (all of them for [All]), most recent
    first, records of one time value in their stored order; no array that
    existed before is changed. Records made at three increasing times are
    shown latest first, and choosing [Coding] among a General and two
    Coding records shows the two Coding records as the sort orders them. *)
Theorem library_view_filters_then_sorts
    (h : heap) (savedPrompts : nat) (filterCategory : string) :
  let stored := array_at h savedPrompts in
  let view := libraryView h savedPrompts filterCategory in
  array_at (fst view) (snd view) = shown filterCategory stored
  /\ (forall a, a < length h -> array_at (fst view) a = array_at h a)
  /\ (forall p, In p (shown filterCategory stored)
                <-> In p stored
                    /\ (filterCategory = "All"
                        \/ EnhancedPrompt.category p = filterCategory))
  /\ Permutation (shown filterCategory stored)
       (List.filter (matches filterCategory) stored)
  /\ StronglySorted not_older (shown filterCategory stored)
  /\ (forall t, List.filter (created_at t) (shown filterCategory stored)
                = List.filter (created_at t)
                    (List.filter (matches filterCategory) stored))
  /\ (forall r1 r2 r3 l,
        (time_of r1 < time_of r2)%Z -> (time_of r2 < time_of r3)%Z ->
        Permutation l [r1; r2; r3] -> shown "All" l = [r3; r2; r1])
  /\ (forall g c1 c2,
        EnhancedPrompt.category g = "General" ->
        EnhancedPrompt.category c1 = "Coding" ->
        EnhancedPrompt.category c2 = "Coding" ->
        shown "Coding" [g; c1; c2] = Array_sort newest_first [c1; c2]
        /\ Permutation (shown "Coding" [g; c1; c2]) [c1; c2]).
Proof.
  cbv zeta.
  destruct (libraryView_result h savedPrompts filterCategory) as [Haddr Hview].
  split; [now rewrite Haddr|].
  split; [intros a Ha; now apply libraryView_frame|].
  split.
  { intros p. unfold shown.
    rewrite <- matches_spec, <- List.filter_In.
    split; apply Permutation_in;
      [|symmetry]; apply Array_sort_perm. }
  split; [apply Array_sort_perm|].
  split; [apply Array_sort_newest_first|].
  split; [intros t; apply Array_sort_stable|].
  split.
  - intros r1 r2 r3 l H12 H23 Hperm. unfold shown.
    assert (Hall : List.filter (matches "All") l = l).
    { apply List.forallb_filter_id. apply forallb_forall. intros; reflexivity. }
    rewrite Hall.
    apply shown_three; try lia.
    + repeat constructor; unfold not_older; lia.
    + rewrite Hperm.
      transitivity [r2; r1; r3]; [apply perm_swap|].
      transitivity [r2; r3; r1]; [apply perm_skip, perm_swap|apply perm_swap].
  - intros g c1 c2 Hg H1 H2.
    assert (Hf : List.filter (matches "Coding") [g; c1; c2] = [c1; c2]).
    { unfold matches. cbn [List.filter]. rewrite Hg, H1, H2. reflexivity. }
    unfold shown. rewrite Hf. split; [reflexivity|apply Array_sort_perm].
Qed.

End ViewFacts.

(** ** Collection store *)


Section StoreFacts.
Import Text Host Storage StoreSpec.
Local Open Scope string_scope.

(** Rereading twice is rereading once: what was written from reread
    cells is read back as it is. *)
Lemma reread_number_again (n : number) :
  reread_number (reread_number n) = reread_number n.
Proof.
  destruct n as [f|]; [|reflexivity].
  assert (H : reread_number (Num f)
              = if PrimFloat.is_nan f || PrimFloat.is_infinity f then Null
                else if PrimFloat.is_zero f then Num 0%float else Num f).
  { unfold reread_number, json_cell, json_number.
    destruct (PrimFloat.is_nan f || PrimFloat.is_infinity f); [reflexivity|].
    now destruct (PrimFloat.is_zero f). }
  rewrite H.
  destruct (PrimFloat.is_nan f || PrimFloat.is_infinity f) eqn:E1; [reflexivity|].
  destruct (PrimFloat.is_zero f) eqn:E2; [reflexivity|].
  exact H.
Qed.

Lemma reread_preset_again (p : ModelPreset.t) :
  reread_preset (reread_preset p) = reread_preset p.
Proof.
  unfold reread_preset. cbn. now rewrite !reread_number_again.
Qed.

Lemma reread_presets_again (l : list ModelPreset.t) :
  map reread_preset (map reread_preset l) = map reread_preset l.
Proof.
  rewrite map_map. apply map_ext. exact reread_preset_again.
Qed.

(** A finite number other than zero is written as it is; the zeros are
    written [0]; a NaN or an infinity is written [null]. *)
Lemma reread_plain_number (f : float) :
  plain_number f = true -> reread_number (Num f) = Num f.
Proof.
  unfold plain_number, reread_number, json_cell, json_number. intros H.
  apply andb_prop in H as [H Hzero]. apply andb_prop in H as [Hnan Hinf].
  apply negb_true_iff in Hnan, Hinf, Hzero. now rewrite Hnan, Hinf, Hzero.
Qed.

Lemma reread_not_finite (f : float) :
  not_finite f = true -> reread_number (Num f) = Null.
Proof.
  unfold not_finite, reread_number, json_cell, json_number. now intros ->.
Qed.

Lemma reread_presets_ids (id : string) (l : list ModelPreset.t) :
  Forall (fun p => ModelPreset.id p <> id) l ->
  Forall (fun p => ModelPreset.id p <> id) (map reread_preset l).
Proof.
  induction 1; cbn; constructor; auto.
Qed.

Lemma map_storable (l : list ModelPreset.t) :
  Forall storable l -> map reread_preset l = l.
Proof.
  induction 1 as [|p l Hp _ IH]; cbn; [reflexivity|]. now rewrite Hp, IH.
Qed.

Lemma default_presets_reread :
  map reread_preset PromptForm.DEFAULT_PRESETS = PromptForm.DEFAULT_PRESETS.
Proof. reflexivity. Qed.

(** What mounting the form finds when the key holds the JSON text of a
    list of presets. *)
Lemma PromptForm_mount_saved (ls : localStorage) (l : list ModelPreset.t) :
  getItem ls PromptForm.key = Some (stringify_presets l) ->
  exists w, PromptForm.mount ls = Some w
            /\ PromptForm.presets (PromptForm.state w) = map reread_preset l
            /\ PromptForm.console w = [].
Proof.
  intros H. unfold PromptForm.mount, stringify_presets in *. rewrite H.
  cbn. eauto.
Qed.

Lemma PromptForm_commit_saved (st : PromptForm.State) (w : PromptForm.World) :
  getItem (PromptForm.storage (PromptForm.commit st w)) PromptForm.key
  = Some (stringify_presets (PromptForm.presets st)).
Proof. unfold PromptForm.commit, PromptForm.save_effect, getItem, setItem. cbn.
       apply lookup_insert_eq. Qed.

Lemma PromptEnhancer_mount_saved (ls : localStorage) (l : list EnhancedPrompt.t) :
  getItem ls PromptEnhancer.key = Some (stringify_prompts l) ->
  exists w, PromptEnhancer.mount ls = Some w
            /\ PromptEnhancer.savedPrompts (PromptEnhancer.state w)
               = map reread_prompt l
            /\ PromptEnhancer.console w = [].
Proof.
  intros H. unfold PromptEnhancer.mount, stringify_prompts in *. rewrite H.
  cbn. eauto.
Qed.

Lemma PromptEnhancer_store_saved (updated : list EnhancedPrompt.t)
    (w : PromptEnhancer.World) :
  getItem (PromptEnhancer.storage (PromptEnhancer.store updated w)) PromptEnhancer.key
  = Some (stringify_prompts updated)
  /\ PromptEnhancer.savedPrompts (PromptEnhancer.state (PromptEnhancer.store updated w))
     = updated.
Proof.
  unfold PromptEnhancer.store, PromptEnhancer.saveToLocalStorage, getItem, setItem.
  cbn. split; [apply lookup_insert_eq|reflexivity].
Qed.

Lemma filter_absent {A} (f : A -> bool) (l : list A) :
  Forall (fun x => f x = true) l -> List.filter f l = l.
Proof.
  induction 1 as [|x l Hx _ IH]; simpl; [reflexivity|]. now rewrite Hx, IH.
Qed.

Lemma filter_fresh {A} (f : A -> bool) (l : list A) (x : A) :
  Forall (fun y => f y = false) l -> f x = true ->
  List.filter f (l ++ [x]) = [x].
Proof.
  intros Hl Hx. rewrite List.filter_app. simpl. rewrite Hx.
  induction Hl as [|y l Hy _ IH]; simpl; [reflexivity|]. now rewrite Hy.
Qed.

Lemma filter_none {A} (f : A -> bool) (l : list A) :
  List.filter f l = [] -> Forall (fun y => f y = false) l.
Proof.
  induction l as [|x l IH]; simpl; [constructor|].
  destruct (f x) eqn:Hx; [discriminate|]. intros H. constructor; auto.
Qed.

Lemma neq_eqb_false (a b : string) : a <> b -> String.eqb a b = false.
Proof. intros H. now apply String.eqb_neq. Qed.

(** The added record is the only one with its id exactly when no earlier
    record has that id. *)
Lemma filter_fresh_iff {A} (f : A -> bool) (l : list A) (x : A) :
  f x = true ->
  (Forall (fun y => f y = false) l <-> List.filter f (l ++ [x]) = [x]).
Proof.
  intros Hx. split; [intros Hl; now apply filter_fresh|].
  rewrite List.filter_app. simpl. rewrite Hx. intros H.
  apply filter_none. destruct (List.filter f l); [reflexivity|].
  simpl in H. injection H as _ H. now destruct l0.
Qed.

End StoreFacts.

Section StoreClaims.
Import Text Host Storage StoreSpec.
Local Open Scope string_scope.

(** Without a name the save handler of the form changes nothing; the
    save control is disabled in that case. *)
Lemma saveCurrentAsPreset_without_name (randomUUID : string) (w : PromptForm.World) :
  truthy (trim (PromptForm.newPresetName (PromptForm.state w))) = false ->
  PromptForm.saveCurrentAsPreset randomUUID w = w.
Proof. intros H. unfold PromptForm.saveCurrentAsPreset. now rewrite H. Qed.

(** Without an enhanced prompt the save handler of the library changes
    nothing; the save control is not shown in that case. *)
Lemma saveEnhancedPrompt_without_result (randomUUID : string) (now : Z)
    (w : PromptEnhancer.World) :
  truthy (PromptEnhancer.enhancedPrompt (PromptEnhancer.state w)) = false ->
  PromptEnhancer.saveEnhancedPrompt randomUUID now w = w.
Proof. intros H. unfold PromptEnhancer.saveEnhancedPrompt. now rewrite H. Qed.

(** A number that is not finite is written as [null] and comes back as
    [null]; the negative zero comes back as [0]. *)
Lemma nan_comes_back_null :
  json_number PrimFloat.nan = JNull
  /\ reread_number (Num PrimFloat.nan) = Null
  /\ reread_number (Num PrimFloat.infinity) = Null
  /\ reread_number (Num PrimFloat.neg_infinity) = Null
  /\ reread_number (Num (-0)%float) = Num 0%float.
Proof. repeat split. Qed.

(** C6: with nothing stored under its key, the preset collection loads
    as the three seed presets and the library as the empty list, and
    nothing is logged; with a stored text that is not JSON, the parse
    error is caught, logged with [console.error], and the collection
    stays at that default (an empty stored string counts as nothing
    stored). Mounting completes in all these cases. *)
Theorem load_falls_back_to_default (ls : localStorage) :
  PromptForm.DEFAULT_PRESETS <> []
  /\ (getItem ls PromptForm.key = None ->
      exists w, PromptForm.mount ls = Some w
                /\ PromptForm.presets (PromptForm.state w) = PromptForm.DEFAULT_PRESETS
                /\ PromptForm.console w = [])
  /\ (getItem ls PromptEnhancer.key = None ->
      exists w, PromptEnhancer.mount ls = Some w
                /\ PromptEnhancer.savedPrompts (PromptEnhancer.state w) = []
                /\ PromptEnhancer.console w = [])
  /\ (forall raw complaint,
        getItem ls PromptForm.key = Some (OtherText raw complaint) ->
        exists w, PromptForm.mount ls = Some w
                  /\ PromptForm.presets (PromptForm.state w) = PromptForm.DEFAULT_PRESETS
                  /\ PromptForm.console w
                     = if truthy raw
                       then [console_error "Failed to load presets:"
                               (ErrorObject complaint)]
                       else [])
  /\ (forall raw complaint,
        getItem ls PromptEnhancer.key = Some (OtherText raw complaint) ->
        exists w, PromptEnhancer.mount ls = Some w
                  /\ PromptEnhancer.savedPrompts (PromptEnhancer.state w) = []
                  /\ PromptEnhancer.console w
                     = if truthy raw
                       then [console_error "Failed to load saved enhanced prompts:"
                               (ErrorObject complaint)]
                       else []).
Proof.
  split; [discriminate|].
  split; [|split; [|split]].
  - intros H. unfold PromptForm.mount. rewrite H. cbn. eauto.
  - intros H. unfold PromptEnhancer.mount. rewrite H. eauto.
  - intros raw complaint H. unfold PromptForm.mount. rewrite H. cbn.
    destruct (truthy raw); cbn; eauto.
  - intros raw complaint H. unfold PromptEnhancer.mount. rewrite H. cbn.
    destruct (truthy raw); cbn; eauto.
Qed.

(** C7, as the code has it: when the name of the new preset is not
    blank (the enhanced prompt not empty), adding appends one record at
    the end, made of the id the generator returned and the current
    inputs, leaves the earlier records as they were, and writes the
    whole collection under its key. Mounting again on that storage
    always succeeds and yields the records as JSON rereads them, the
    added one last: the strings and the flag as they were, each number
    of a preset reread (so the record is intact when its two numbers
    are ones JSON keeps, as every finite number other than zero is, and
    is not when one of them is a NaN or an infinity, which comes back
    as null; a zero comes back as 0), the date of an enhanced prompt as
    the ISO string of the same time value. The added record is the only one with its id
    exactly when no earlier record had the id the generator returned. *)
Theorem add_then_load
    (wf : PromptForm.World) (we : PromptEnhancer.World)
    (randomUUID : string) (now : Z)
    (Hname : truthy (trim (PromptForm.newPresetName (PromptForm.state wf))) = true)
    (Hprompt : truthy (PromptEnhancer.enhancedPrompt (PromptEnhancer.state we)) = true) :
  let sf := PromptForm.state wf in
  let se := PromptEnhancer.state we in
  let newPreset :=
    ModelPreset.mk randomUUID (PromptForm.newPresetName sf) (PromptForm.model sf)
      (PromptForm.systemPrompt sf) (PromptForm.temperature sf)
      (PromptForm.maxTokens sf) in
  let rereadPreset :=
    ModelPreset.mk randomUUID (PromptForm.newPresetName sf) (PromptForm.model sf)
      (PromptForm.systemPrompt sf) (reread_number (PromptForm.temperature sf))
      (reread_number (PromptForm.maxTokens sf)) in
  let newPrompt (createdAt : EnhancedPrompt.DateValue) :=
    EnhancedPrompt.mk randomUUID (PromptEnhancer.basePrompt se)
      (PromptEnhancer.enhancedPrompt se) PromptEnhancer.ENHANCEMENT_SYSTEM_PROMPT
      (PromptEnhancer.selectedCategory se) createdAt false in
  let wf' := PromptForm.saveCurrentAsPreset randomUUID wf in
  let we' := PromptEnhancer.saveEnhancedPrompt randomUUID now we in
  (PromptForm.presets (PromptForm.state wf')
   = (PromptForm.presets sf ++ [newPreset])%list
   /\ getItem (PromptForm.storage wf') PromptForm.key
      = Some (stringify_presets (PromptForm.presets sf ++ [newPreset])%list)
   /\ (exists w, PromptForm.mount (PromptForm.storage wf') = Some w
                 /\ PromptForm.presets (PromptForm.state w)
                    = (map reread_preset (PromptForm.presets sf) ++ [rereadPreset])%list
                 /\ PromptForm.console w = [])
   /\ (kept_by_json (PromptForm.temperature sf) ->
       kept_by_json (PromptForm.maxTokens sf) -> rereadPreset = newPreset)
   /\ (forall t k, PromptForm.temperature sf = Num t -> PromptForm.maxTokens sf = Num k ->
                   plain_number t = true -> plain_number k = true ->
                   rereadPreset = newPreset)
   /\ (forall f, PromptForm.temperature sf = Num f \/ PromptForm.maxTokens sf = Num f ->
                 not_finite f = true -> rereadPreset <> newPreset)
   /\ (forall f, PromptForm.temperature sf = Num f \/ PromptForm.maxTokens sf = Num f ->
                 not_finite f = false -> PrimFloat.is_zero f = true ->
                 reread_number (Num f) = Num 0%float)
   /\ (Forall (fun p => ModelPreset.id p <> randomUUID) (PromptForm.presets sf)
       <-> List.filter (has_preset_id randomUUID)
             (PromptForm.presets (PromptForm.state wf')) = [newPreset]))
  /\ (PromptEnhancer.savedPrompts (PromptEnhancer.state we')
      = (PromptEnhancer.savedPrompts se
         ++ [newPrompt (EnhancedPrompt.DateObject now)])%list
      /\ getItem (PromptEnhancer.storage we') PromptEnhancer.key
         = Some (stringify_prompts
                   (PromptEnhancer.savedPrompts se
                    ++ [newPrompt (EnhancedPrompt.DateObject now)])%list)
      /\ (exists w, PromptEnhancer.mount (PromptEnhancer.storage we') = Some w
                    /\ PromptEnhancer.savedPrompts (PromptEnhancer.state w)
                       = (map reread_prompt (PromptEnhancer.savedPrompts se)
                          ++ [newPrompt (EnhancedPrompt.IsoString now)])%list
                    /\ PromptEnhancer.console w = [])
      /\ (Forall (fun p => EnhancedPrompt.id p <> randomUUID)
            (PromptEnhancer.savedPrompts se)
          <-> List.filter (has_prompt_id randomUUID)
                (PromptEnhancer.savedPrompts (PromptEnhancer.state we'))
              = [newPrompt (EnhancedPrompt.DateObject now)])).
Proof.
  cbv zeta. split.
  - unfold PromptForm.saveCurrentAsPreset. rewrite Hname. cbn [negb].
    set (newPreset := ModelPreset.mk _ _ _ _ (PromptForm.temperature _) _).
    set (st' := PromptForm.setActivePreset _ _).
    assert (Hpresets : PromptForm.presets st'
                       = (PromptForm.presets (PromptForm.state wf) ++ [newPreset])%list)
      by reflexivity.
    pose proof (PromptForm_commit_saved st' wf) as Hsaved. rewrite Hpresets in Hsaved.
    split; [exact Hpresets|]. split; [exact Hsaved|].
    split; [|split; [|split; [|split; [|split]]]].
    + destruct (PromptForm_mount_saved _ _ Hsaved) as (w & Hw & Hp & Hc).
      exists w. split; [exact Hw|]. split; [|exact Hc].
      rewrite Hp, map_app. reflexivity.
    + unfold kept_by_json. intros -> ->. reflexivity.
    + intros t k Ht Hk Pt Pk. unfold newPreset. rewrite Ht, Hk.
      now rewrite (reread_plain_number t Pt), (reread_plain_number k Pk).
    + intros f Hf Hnot Heq. unfold newPreset in Heq. injection Heq as Ht Hk.
      destruct Hf as [Hf|Hf]; rewrite Hf in *.
      * rewrite (reread_not_finite f Hnot) in Ht. discriminate.
      * rewrite (reread_not_finite f Hnot) in Hk. discriminate.
    + intros f _ Hfinite Hzero. unfold reread_number, json_cell, json_number.
      unfold not_finite in Hfinite. now rewrite Hfinite, Hzero.
    + change (PromptForm.presets (PromptForm.state (PromptForm.commit st' wf)))
        with (PromptForm.presets st').
      rewrite Hpresets.
      rewrite <- (filter_fresh_iff (has_preset_id randomUUID) _ newPreset
                    (String.eqb_refl _)).
      split; apply List.Forall_impl; intros p Hp; unfold has_preset_id in *.
      * now apply neq_eqb_false.
      * now apply String.eqb_neq.
  - unfold PromptEnhancer.saveEnhancedPrompt. rewrite Hprompt. cbn [negb].
    set (newPrompt := EnhancedPrompt.mk _ _ _ _ _ _ _).
    destruct (PromptEnhancer_store_saved
                (PromptEnhancer.savedPrompts (PromptEnhancer.state we) ++ [newPrompt])%list
                we) as [Hsaved Hstate].
    split; [exact Hstate|]. split; [exact Hsaved|]. split.
    + destruct (PromptEnhancer_mount_saved _ _ Hsaved) as (w & Hw & Hp & Hc).
      exists w. split; [exact Hw|]. split; [|exact Hc].
      rewrite Hp, map_app. reflexivity.
    + rewrite Hstate.
      rewrite <- (filter_fresh_iff (has_prompt_id randomUUID) _ newPrompt
                    (String.eqb_refl _)).
      split; apply List.Forall_impl; intros p Hp; unfold has_prompt_id in *.
      * now apply neq_eqb_false.
      * now apply String.eqb_neq.
Qed.

(** C8: removing an id leaves, in their order, exactly the records with
    another id, so none with that id and, when no record had it, the
    same collection; the result is written under the key; mounting
    again on that storage always succeeds, yields the kept records as
    JSON rereads them, and so never a record with that id. *)
Theorem remove_then_load
    (wf : PromptForm.World) (we : PromptEnhancer.World) (id : string) :
  let wf' := PromptForm.deletePreset id wf in
  let we' := PromptEnhancer.deletePrompt id we in
  let presets := PromptForm.presets (PromptForm.state wf) in
  let prompts := PromptEnhancer.savedPrompts (PromptEnhancer.state we) in
  (PromptForm.presets (PromptForm.state wf')
   = List.filter (fun p => negb (has_preset_id id p)) presets
   /\ Forall (fun p => ModelPreset.id p <> id) (PromptForm.presets (PromptForm.state wf'))
   /\ (Forall (fun p => ModelPreset.id p <> id) presets ->
       PromptForm.presets (PromptForm.state wf') = presets)
   /\ getItem (PromptForm.storage wf') PromptForm.key
      = Some (stringify_presets (PromptForm.presets (PromptForm.state wf')))
   /\ (exists w, PromptForm.mount (PromptForm.storage wf') = Some w
                 /\ PromptForm.presets (PromptForm.state w)
                    = map reread_preset (PromptForm.presets (PromptForm.state wf'))
                 /\ Forall (fun p => ModelPreset.id p <> id)
                      (PromptForm.presets (PromptForm.state w)))
   /\ (forall w, PromptForm.mount (PromptForm.storage wf') = Some w ->
                 Forall (fun p => ModelPreset.id p <> id)
                   (PromptForm.presets (PromptForm.state w)))
   /\ (Forall storable presets ->
       exists w, PromptForm.mount (PromptForm.storage wf') = Some w
                 /\ PromptForm.presets (PromptForm.state w)
                    = PromptForm.presets (PromptForm.state wf')))
  /\ (PromptEnhancer.savedPrompts (PromptEnhancer.state we')
      = List.filter (fun p => negb (has_prompt_id id p)) prompts
      /\ Forall (fun p => EnhancedPrompt.id p <> id)
           (PromptEnhancer.savedPrompts (PromptEnhancer.state we'))
      /\ (Forall (fun p => EnhancedPrompt.id p <> id) prompts ->
          PromptEnhancer.savedPrompts (PromptEnhancer.state we') = prompts)
      /\ getItem (PromptEnhancer.storage we') PromptEnhancer.key
         = Some (stringify_prompts
                   (PromptEnhancer.savedPrompts (PromptEnhancer.state we')))
      /\ (exists w, PromptEnhancer.mount (PromptEnhancer.storage we') = Some w
                    /\ PromptEnhancer.savedPrompts (PromptEnhancer.state w)
                       = map reread_prompt
                           (PromptEnhancer.savedPrompts (PromptEnhancer.state we'))
                    /\ Forall (fun p => EnhancedPrompt.id p <> id)
                         (PromptEnhancer.savedPrompts (PromptEnhancer.state w)))).
Proof.
  cbv zeta. split.
  - set (kept := List.filter (fun p => negb (has_preset_id id p))
                   (PromptForm.presets (PromptForm.state wf))).
    assert (Hstate : PromptForm.presets (PromptForm.state (PromptForm.deletePreset id wf))
                     = kept).
    { unfold PromptForm.deletePreset. cbn. now destruct (decide _). }
    assert (Hnone : Forall (fun p => ModelPreset.id p <> id) kept).
    { apply Forall_forall. intros p Hp.
      apply list_elem_of_In, List.filter_In in Hp as [_ Hp].
      unfold has_preset_id in Hp. apply negb_true_iff in Hp.
      now apply String.eqb_neq. }
    assert (Hsaved : getItem (PromptForm.storage (PromptForm.deletePreset id wf))
                       PromptForm.key = Some (stringify_presets kept)).
    { rewrite <- Hstate. unfold PromptForm.deletePreset.
      rewrite PromptForm_commit_saved. reflexivity. }
    destruct (PromptForm_mount_saved _ _ Hsaved) as (w & Hw & Hp & _).
    rewrite Hstate.
    split; [reflexivity|]. split; [exact Hnone|]. split.
    { intros Habsent. apply filter_absent.
      eapply List.Forall_impl; [|exact Habsent].
      intros p Hq. unfold has_preset_id. now rewrite neq_eqb_false. }
    split; [exact Hsaved|]. split; [|split].
    + exists w. split; [exact Hw|]. split; [exact Hp|].
      rewrite Hp. now apply reread_presets_ids.
    + intros w' Hw'. rewrite Hw in Hw'. injection Hw' as <-.
      rewrite Hp. now apply reread_presets_ids.
    + intros Hstorable. exists w. split; [exact Hw|].
      rewrite Hp. apply map_storable.
      apply Forall_forall. intros p Hin.
      apply list_elem_of_In, List.filter_In in Hin as [Hin _].
      apply list_elem_of_In in Hin.
      now apply (proj1 (Forall_forall _ _) Hstorable).
  - set (kept := List.filter (fun p => negb (has_prompt_id id p))
                   (PromptEnhancer.savedPrompts (PromptEnhancer.state we))).
    destruct (PromptEnhancer_store_saved kept we) as [Hsaved Hstate].
    change (PromptEnhancer.deletePrompt id we) with (PromptEnhancer.store kept we).
    assert (Hnone : Forall (fun p => EnhancedPrompt.id p <> id) kept).
    { apply Forall_forall. intros p Hp.
      apply list_elem_of_In, List.filter_In in Hp as [_ Hp].
      unfold has_prompt_id in Hp. apply negb_true_iff in Hp.
      now apply String.eqb_neq. }
    rewrite Hstate.
    split; [reflexivity|]. split; [exact Hnone|]. split.
    { intros Habsent. apply filter_absent.
      eapply List.Forall_impl; [|exact Habsent].
      intros p Hp. unfold has_prompt_id. now rewrite neq_eqb_false. }
    split; [exact Hsaved|].
    destruct (PromptEnhancer_mount_saved _ _ Hsaved) as (w & Hw & Hp & _).
    exists w. split; [exact Hw|]. split; [exact Hp|].
    rewrite Hp. apply Forall_forall. intros p Hin.
    apply list_elem_of_In, in_map_iff in Hin as (q & <- & Hq).
    apply list_elem_of_In in Hq.
    exact (proj1 (Forall_forall _ _) Hnone q Hq).
Qed.

(** C10: toggling a favorite keeps the length and the order of the
    library; at each position a record with the given id comes back with
    its favorite flag negated and its other fields as they were, and a
    record with another id comes back as it was; with no record of that
    id the library is unchanged; the result is written under the key and
    the other cells of the component keep their values. *)
Theorem toggleFavorite_frame (w : PromptEnhancer.World) (id : string) :
  let w' := PromptEnhancer.toggleFavorite id w in
  let before := PromptEnhancer.savedPrompts (PromptEnhancer.state w) in
  let after := PromptEnhancer.savedPrompts (PromptEnhancer.state w') in
  length after = length before
  /\ (forall i p,
        before !! i = Some p ->
        after !! i
        = Some (if String.eqb (EnhancedPrompt.id p) id
                then EnhancedPrompt.mk (EnhancedPrompt.id p)
                       (EnhancedPrompt.originalPrompt p)
                       (EnhancedPrompt.enhancedPrompt p)
                       (EnhancedPrompt.systemPrompt p) (EnhancedPrompt.category p)
                       (EnhancedPrompt.createdAt p)
                       (negb (EnhancedPrompt.favorite p))
                else p))
  /\ (Forall (fun p => EnhancedPrompt.id p <> id) before -> after = before)
  /\ getItem (PromptEnhancer.storage w') PromptEnhancer.key
     = Some (stringify_prompts after)
  /\ PromptEnhancer.setSavedPrompts before (PromptEnhancer.state w')
     = PromptEnhancer.state w.
Proof.
  cbv zeta. unfold PromptEnhancer.toggleFavorite.
  set (flip := fun p : EnhancedPrompt.t => if String.eqb (EnhancedPrompt.id p) id then _ else p).
  destruct (PromptEnhancer_store_saved
              (map flip (PromptEnhancer.savedPrompts (PromptEnhancer.state w))) w)
    as [Hsaved Hstate].
  rewrite Hstate.
  split; [apply length_map|]. split; [|split; [|split]].
  - intros i p Hi. change (map flip ?l) with (flip <$> l).
    rewrite list_lookup_fmap, Hi. reflexivity.
  - intros Habsent. rewrite <- (map_id (PromptEnhancer.savedPrompts _)) at 2.
    apply map_ext_Forall.
    eapply List.Forall_impl; [|exact Habsent].
    intros p Hp. unfold flip. now rewrite neq_eqb_false.
  - exact Hsaved.
  - destruct w as [[] ? ?]. reflexivity.
Qed.

End StoreClaims.

(** ** The properties at concrete inputs *)

Section Instances.
Import Text Host Storage StoreSpec SegmentFormatter SegmentSpec Observe ViewSpec Samples.
Local Open Scope string_scope.

(** Direct submission from the initial form sends -1 as -1. *)
Lemma chat_request_shape_witness :
  json_cell (PromptForm.maxTokens PromptForm.initial) = JNum (-1)%float.
Proof.
  destruct (chat_request_shape PromptForm.initial "http://localhost:1234" "" "" ""
              true (Rejects (ErrorObject "Failed to fetch"))) as (_ & H & _).
  apply H. reflexivity.
Defined.

(** An empty storage, and a truncated JSON text under the library key. *)
Lemma load_falls_back_to_default_witness :
  (exists w, PromptForm.mount ∅ = Some w
             /\ PromptForm.presets (PromptForm.state w) = PromptForm.DEFAULT_PRESETS
             /\ PromptForm.console w = [])
  /\ (exists w,
        PromptEnhancer.mount
          (setItem ∅ PromptEnhancer.key (OtherText "[{" "Unexpected end of JSON input"))
        = Some w
        /\ PromptEnhancer.savedPrompts (PromptEnhancer.state w) = []
        /\ PromptEnhancer.console w
           = [console_error "Failed to load saved enhanced prompts:"
                (ErrorObject "Unexpected end of JSON input")]).
Proof.
  split.
  - destruct (load_falls_back_to_default ∅) as (_ & H & _).
    apply H. apply lookup_empty.
  - destruct (load_falls_back_to_default
                (setItem ∅ PromptEnhancer.key
                   (OtherText "[{" "Unexpected end of JSON input")))
      as (_ & _ & _ & _ & H).
    apply (H "[{" "Unexpected end of JSON input"). apply lookup_insert_eq.
Defined.

(** Saving the initial form under the name Terse, and saving an enhanced
    prompt into an empty library. *)
Lemma add_then_load_witness :
  (exists w,
     PromptForm.mount
       (PromptForm.storage (PromptForm.saveCurrentAsPreset sample_uuid form_with_name))
     = Some w
     /\ PromptForm.presets (PromptForm.state w)
        = (PromptForm.DEFAULT_PRESETS
           ++ [ModelPreset.mk sample_uuid "Terse" "mistral-nemo-instruct-2407"
                 "Always answer in rhymes. Today is Thursday"
                 (Num 0.7%float) (Num (-1)%float)])%list
     /\ PromptForm.console w = [])
  /\ (exists w,
        PromptEnhancer.mount
          (PromptEnhancer.storage
             (PromptEnhancer.saveEnhancedPrompt sample_uuid 1700000000000
                enhancer_with_result))
        = Some w
        /\ PromptEnhancer.savedPrompts (PromptEnhancer.state w)
           = [EnhancedPrompt.mk sample_uuid "a poem" "Write a short poem about the sea."
                PromptEnhancer.ENHANCEMENT_SYSTEM_PROMPT "Creative Writing"
                (EnhancedPrompt.IsoString 1700000000000) false]
        /\ PromptEnhancer.console w = []).
Proof.
  destruct (add_then_load form_with_name enhancer_with_result sample_uuid
              1700000000000 eq_refl eq_refl)
    as ((_ & _ & Hf & _) & (_ & _ & He & _)).
  split; [exact Hf | exact He].
Defined.

(** C7, as stated, fails after the max-tokens input was emptied, when
    the cell holds NaN: the preset saved then is written with [null]
    there, and mounting again yields it with [null] for its max tokens,
    which is not the record that was added. *)
Lemma added_preset_comes_back_changed :
  PromptForm.presets
    (PromptForm.state
       (PromptForm.saveCurrentAsPreset sample_uuid form_with_cleared_limit))
  = (PromptForm.DEFAULT_PRESETS ++ [terse_preset (Num PrimFloat.nan)])%list
  /\ (exists w,
        PromptForm.mount
          (PromptForm.storage
             (PromptForm.saveCurrentAsPreset sample_uuid form_with_cleared_limit))
        = Some w
        /\ PromptForm.presets (PromptForm.state w)
           = (PromptForm.DEFAULT_PRESETS ++ [terse_preset Null])%list)
  /\ terse_preset Null <> terse_preset (Num PrimFloat.nan).
Proof.
  split; [reflexivity|]. split; [|discriminate].
  destruct (PromptForm_mount_saved
              (PromptForm.storage
                 (PromptForm.saveCurrentAsPreset sample_uuid form_with_cleared_limit))
              (PromptForm.presets
                 (PromptForm.state
                    (PromptForm.saveCurrentAsPreset sample_uuid form_with_cleared_limit))))
    as (w & Hw & Hp & _).
  - apply PromptForm_commit_saved.
  - exists w. split; [exact Hw|]. rewrite Hp. reflexivity.
Qed.

(** The handler does not look at the ids in use: were the generator to
    return the same string twice, both records would carry it. *)
Lemma repeated_id_is_added_again :
  let again :=
    PromptForm.saveCurrentAsPreset sample_uuid
      (FormActions.update (PromptForm.setNewPresetName "Terse too")
         (PromptForm.saveCurrentAsPreset sample_uuid form_with_name)) in
  map ModelPreset.name
    (List.filter (has_preset_id sample_uuid) (PromptForm.presets (PromptForm.state again)))
  = ["Terse"; "Terse too"].
Proof. reflexivity. Qed.

(** Removing an id that no seed preset has, and removing the second seed
    preset and mounting again. *)
Lemma remove_then_load_witness :
  PromptForm.presets (PromptForm.state (PromptForm.deletePreset "9" form_at_start))
  = PromptForm.DEFAULT_PRESETS
  /\ (exists w,
        PromptForm.mount (PromptForm.storage (PromptForm.deletePreset "2" form_at_start))
        = Some w
        /\ PromptForm.presets (PromptForm.state w)
           = PromptForm.presets
               (PromptForm.state (PromptForm.deletePreset "2" form_at_start))).
Proof.
  split.
  - destruct (remove_then_load form_at_start library_of_two "9")
      as ((_ & _ & H & _) & _).
    apply H. repeat constructor; discriminate.
  - destruct (remove_then_load form_at_start library_of_two "2")
      as ((_ & _ & _ & _ & _ & _ & H) & _).
    apply H. repeat constructor.
Defined.

(** Toggling the second of two records, and toggling an unknown id. *)
Lemma toggleFavorite_frame_witness :
  PromptEnhancer.savedPrompts
    (PromptEnhancer.state (PromptEnhancer.toggleFavorite "b" library_of_two)) !! 1
  = Some (EnhancedPrompt.mk "b" "p2" "e2" "s" "Coding"
            (EnhancedPrompt.DateObject 2000) false)
  /\ PromptEnhancer.savedPrompts
       (PromptEnhancer.state (PromptEnhancer.toggleFavorite "zz" library_of_two))
     = PromptEnhancer.savedPrompts (PromptEnhancer.state library_of_two).
Proof.
  split.
  - destruct (toggleFavorite_frame library_of_two "b") as (_ & H & _).
    apply (H 1 (EnhancedPrompt.mk "b" "p2" "e2" "s" "Coding"
                  (EnhancedPrompt.DateObject 2000) true)).
    reflexivity.
  - destruct (toggleFavorite_frame library_of_two "zz") as (_ & _ & H & _).
    apply H. repeat constructor; discriminate.
Defined.

(** Three records saved at increasing times, stored in that order. *)
Lemma library_view_filters_then_sorts_witness :
  let r (id : string) (category : string) (t : Z) :=
    EnhancedPrompt.mk id "p" "e" "s" category (EnhancedPrompt.IsoString t) false in
  PromptEnhancer.shown "All" [r "1" "General" 10; r "2" "Coding" 20; r "3" "Coding" 30]%Z
  = [r "3" "Coding" 30; r "2" "Coding" 20; r "1" "General" 10]%Z.
Proof.
  cbv zeta.
  destruct (library_view_filters_then_sorts [] 0 "All")
    as (_ & _ & _ & _ & _ & _ & H & _).
  apply H; [reflexivity | reflexivity | reflexivity].
Defined.

End Instances.

(** * Further properties *)

(** ** OutputDisplay: [formatContent] *)

Section DisplayFacts.
Import Text OutputDisplay DisplaySpec.
Local Open Scope list_scope.

Lemma starts_fence_true (l : units) :
  starts_fence l = true -> exists rest, l = three_backticks ++ rest.
Proof.
  destruct l as [|a [|b [|c rest]]]; try discriminate. simpl.
  intros H. apply andb_true_iff in H as [H Hc]. apply andb_true_iff in H as [Ha Hb].
  apply is_backtick_eq in Ha, Hb, Hc. subst. now exists rest.
Qed.

Lemma starts_fence_app (a rest : units) :
  3 <= length a -> starts_fence (a ++ rest) = starts_fence a.
Proof.
  destruct a as [|x [|y [|z a]]]; simpl; intros H; try lia. reflexivity.
Qed.

Lemma until_fence_none (l : units) :
  until_fence l = None <-> occurs_fence l = false.
Proof.
  induction l as [|c l IH]; [simpl; tauto|].
  cbn [until_fence occurs_fence].
  destruct (starts_fence (c :: l)); [simpl; split; discriminate|].
  rewrite orb_false_l, <- IH.
  destruct (until_fence l) as [[before after]|]; split; congruence.
Qed.

Lemma until_fence_shorter (l before after : units) :
  until_fence l = Some (before, after) -> length after < length l.
Proof.
  revert before. induction l as [|c l IH]; intros before; [discriminate|].
  cbn [until_fence].
  destruct (starts_fence (c :: l)) eqn:E.
  - intros [= <- <-]. rewrite length_drop.
    destruct l as [|x [|y l]]; try discriminate E. simpl. lia.
  - destruct (until_fence l) as [[b a]|]; [|discriminate].
    intros [= <- <-]. specialize (IH b eq_refl). simpl. lia.
Qed.

Lemma starts_fence_before (c : ascii) (a rest : units) :
  starts_fence (c :: a ++ three_backticks ++ rest)
  = starts_fence (c :: a ++ two_backticks).
Proof.
  replace (c :: a ++ three_backticks ++ rest)
    with ((c :: a ++ two_backticks) ++ backtick :: rest)
    by (simpl; now rewrite <- app_assoc).
  apply starts_fence_app. simpl. rewrite length_app. simpl. lia.
Qed.

(** The group of a match is the text up to the first three backticks. *)
Lemma until_fence_app (codeContent rest : units) :
  occurs_fence (codeContent ++ two_backticks) = false ->
  until_fence (codeContent ++ three_backticks ++ rest) = Some (codeContent, rest).
Proof.
  induction codeContent as [|c l IH]; intros H; [reflexivity|].
  cbn [app until_fence]. cbn [app occurs_fence] in H.
  apply orb_false_iff in H as [Hhere Hlater].
  rewrite starts_fence_before, Hhere, (IH Hlater). reflexivity.
Qed.

(** More fuel than the length of the text changes nothing. *)
Lemma replace_fenced_fuel (f : units -> units) (n m : nat) (l : units) :
  length l <= n -> length l <= m -> replace_fenced n f l = replace_fenced m f l.
Proof.
  revert m l. induction n as [|n IH]; intros m l Hn Hm.
  - destruct l; [|simpl in Hn; lia]. now destruct m.
  - destruct m as [|m].
    + destruct l; [reflexivity|simpl in Hm; lia].
    + destruct l as [|c l]; [reflexivity|]. cbn [replace_fenced].
      simpl in Hn, Hm.
      rewrite (IH m l) by lia.
      destruct (starts_fence (c :: l)); [|reflexivity].
      destruct (until_fence (drop 3 (c :: l))) as [[codeContent rest]|] eqn:E;
        [|reflexivity].
      apply until_fence_shorter in E.
      assert (length (drop 3 (c :: l)) <= length (c :: l))
        by (rewrite length_drop; lia).
      simpl in *. rewrite (IH m rest) by lia. reflexivity.
Qed.

Lemma replace_all_cons (f : units -> units) (c : ascii) (l : units) :
  replace_all f (c :: l) =
  if starts_fence (c :: l) then
    match until_fence (drop 3 (c :: l)) with
    | Some (codeContent, rest) => f codeContent ++ replace_all f rest
    | None => c :: replace_all f l
    end
  else c :: replace_all f l.
Proof.
  unfold replace_all. cbn [length replace_fenced].
  destruct (starts_fence (c :: l)); [|reflexivity].
  destruct (until_fence (drop 3 (c :: l))) as [[codeContent rest]|] eqn:E;
    [|reflexivity].
  apply until_fence_shorter in E.
  assert (length (drop 3 (c :: l)) <= length (c :: l))
    by (rewrite length_drop; lia).
  simpl in *. now rewrite (replace_fenced_fuel f (length l) (length rest)) by lia.
Qed.

Lemma replace_all_unclosed (f : units -> units) (l : units) :
  has_closed_fence l = false -> replace_all f l = l.
Proof.
  induction l as [|c l IH]; intros H; [reflexivity|].
  rewrite replace_all_cons. cbn [has_closed_fence] in H.
  apply orb_false_iff in H as [Hhere Hlater].
  destruct (starts_fence (c :: l)); [|now rewrite IH].
  rewrite andb_true_l in Hhere. apply until_fence_none in Hhere.
  now rewrite Hhere, IH.
Qed.

Lemma replace_all_first (f : units -> units) (before codeContent rest : units) :
  occurs_fence (before ++ two_backticks) = false ->
  occurs_fence (codeContent ++ two_backticks) = false ->
  replace_all f (before ++ three_backticks ++ codeContent ++ three_backticks ++ rest)
  = before ++ f codeContent ++ replace_all f rest.
Proof.
  intros Hbefore Hcode.
  induction before as [|c l IH].
  - cbn [app]. unfold three_backticks at 1. cbn [app]. rewrite replace_all_cons.
    assert (Hopen : starts_fence
              (backtick :: backtick :: backtick
               :: codeContent ++ three_backticks ++ rest) = true) by reflexivity.
    rewrite Hopen.
    change (drop 3 (backtick :: backtick :: backtick
                    :: codeContent ++ three_backticks ++ rest))
      with (codeContent ++ three_backticks ++ rest).
    now rewrite (until_fence_app codeContent rest Hcode).
  - cbn [app occurs_fence] in *. apply orb_false_iff in Hbefore as [Hhere Hlater].
    rewrite replace_all_cons, starts_fence_before, Hhere. f_equal.
    now apply IH.
Qed.

Lemma replace_unit_keeps (x : ascii) (to : units) (P : ascii -> bool) (l : units) :
  forallb P to = true -> forallb P l = true -> forallb P (replace_unit x to l) = true.
Proof.
  intros Hto. induction l as [|c l IH]; [reflexivity|]. simpl.
  intros H. apply andb_true_iff in H as [Hc Hl].
  rewrite forallb_app, (IH Hl), andb_true_r.
  destruct (N.eqb (code c) (code x)); [exact Hto|]. simpl. now rewrite Hc.
Qed.

Lemma replace_unit_removes (x : ascii) (to : units) (l : units) :
  forallb (fun c => negb (N.eqb (code c) (code x))) to = true ->
  forallb (fun c => negb (N.eqb (code c) (code x))) (replace_unit x to l) = true.
Proof.
  intros Hto. induction l as [|c l IH]; [reflexivity|]. simpl.
  rewrite forallb_app, IH, andb_true_r.
  destruct (N.eqb (code c) (code x)) eqn:E; [exact Hto|]. simpl. now rewrite E.
Qed.

Lemma escape_has_no_angle (codeContent : units) :
  forallb (fun c => negb (is_angle c)) (escape codeContent) = true.
Proof.
  unfold escape.
  pose proof (replace_unit_removes greater_than (chars "&gt;")
                (replace_unit less_than (chars "&lt;") codeContent) eq_refl) as Hgt.
  pose proof (replace_unit_keeps greater_than (chars "&gt;")
                (fun c => negb (N.eqb (code c) (code less_than)))
                (replace_unit less_than (chars "&lt;") codeContent) eq_refl
                (replace_unit_removes less_than (chars "&lt;") codeContent eq_refl))
    as Hlt.
  rewrite forallb_forall in *. intros c Hc. unfold is_angle.
  specialize (Hgt c Hc). specialize (Hlt c Hc). cbv beta in Hgt, Hlt.
  apply negb_true_iff in Hgt, Hlt. now rewrite Hgt, Hlt.
Qed.

Lemma formatContent_units (darkMode : bool) (content : string) :
  chars (formatContent darkMode content)
  = replace_all (styled darkMode) (chars content).
Proof.
  unfold formatContent, replace_all.
  destruct content as [|c content]; [reflexivity|].
  cbn [truthy negb]. apply chars_str.
Qed.

End DisplayFacts.

Section DisplayProperties.
Import Text OutputDisplay DisplaySpec.
Local Open Scope list_scope.

(** X1: a content in which no three backticks are followed by three
    more is returned as it is, markup included. *)
Theorem formatContent_without_closed_fence (darkMode : bool) (content : string)
    (Hopen : has_closed_fence (chars content) = false) :
  formatContent darkMode content = content.
Proof.
  rewrite <- (str_chars (formatContent darkMode content)).
  rewrite formatContent_units, (replace_all_unclosed _ _ Hopen).
  apply str_chars.
Qed.

Lemma formatContent_without_closed_fence_witness :
  formatContent true "<b>bold</b> and ```never closed"
  = "<b>bold</b> and ```never closed"%string.
Proof. apply formatContent_without_closed_fence. reflexivity. Defined.

Lemma escape_plain (codeContent : units) :
  forallb (fun c => negb (is_angle c)) codeContent = true ->
  escape codeContent = codeContent.
Proof.
  intros H. unfold escape.
  assert (Hid : forall x to l,
             forallb (fun c => negb (N.eqb (code c) (code x))) l = true ->
             replace_unit x to l = l).
  { intros x to l. induction l as [|c l IH]; [reflexivity|]. simpl.
    intros Hl. apply andb_true_iff in Hl as [Hc Hl].
    apply negb_true_iff in Hc. now rewrite Hc, (IH Hl). }
  rewrite (Hid less_than).
  - apply Hid. rewrite forallb_forall in *. intros c Hc.
    specialize (H c Hc). unfold is_angle in H.
    apply negb_true_iff, orb_false_iff in H as [_ H]. now rewrite H.
  - rewrite forallb_forall in *. intros c Hc.
    specialize (H c Hc). unfold is_angle in H.
    apply negb_true_iff, orb_false_iff in H as [H _]. now rewrite H.
Qed.

(** X2: when the content is some text, three backticks, a code, three
    backticks and a rest, with no three backticks starting earlier in
    the text or in the code, the result is the text as it is, the
    [pre]/[code] opening, the code with every [<] and [>] replaced by
    its entity, the closing, and the result for the rest; the escaped
    code holds no angle bracket, and a code without angle brackets is
    kept as it is. *)
Theorem formatContent_first_fence (darkMode : bool) (content : string)
    (before codeContent rest : units)
    (Hcontent : chars content
                = before ++ three_backticks ++ codeContent ++ three_backticks ++ rest)
    (Hbefore : occurs_fence (before ++ two_backticks) = false)
    (Hcode : occurs_fence (codeContent ++ two_backticks) = false) :
  chars (formatContent darkMode content)
  = before ++ chars (pre_open darkMode) ++ escape codeContent ++ chars pre_close
    ++ chars (formatContent darkMode (str rest))
  /\ forallb (fun c => negb (is_angle c)) (escape codeContent) = true
  /\ (forallb (fun c => negb (is_angle c)) codeContent = true ->
      escape codeContent = codeContent).
Proof.
  split; [|split; [apply escape_has_no_angle | apply escape_plain]].
  rewrite !formatContent_units, Hcontent, chars_str.
  rewrite (replace_all_first _ _ _ _ Hbefore Hcode).
  unfold styled. now rewrite <- !app_assoc.
Qed.

Lemma formatContent_first_fence_witness :
  formatContent false "if ```a<b``` then ```c```"
  = ("if " ++ pre_open false ++ "a&lt;b" ++ pre_close ++ " then "
     ++ pre_open false ++ "c" ++ pre_close)%string.
Proof.
  rewrite <- (str_chars (formatContent false _)).
  rewrite (proj1 (formatContent_first_fence false "if ```a<b``` then ```c```"
                    (chars "if ") (chars "a<b") (chars " then ```c```")
                    eq_refl eq_refl eq_refl)).
  reflexivity.
Defined.

End DisplayProperties.

(** ** PromptForm: sessions on the preset list *)

Section FormProperties.
Import Text Host Storage StoreSpec SessionSpec Observe PromptForm FormActions.
Local Open Scope string_scope.

Lemma mount_cases (ls : localStorage) (w : World) :
  mount ls = Some w ->
  storage w = save_effect (state w) (save_effect initial ls)
  /\ activePreset (state w) = None.
Proof.
  unfold mount.
  destruct (getItem ls key) as [it|]; cbn [fst snd].
  - destruct (item_truthy it); cbn [fst snd].
    + destruct (JSON_parse it) as [e|parsed]; cbn [fst snd].
      * intros [= <-]. cbn. split; [|reflexivity].
        unfold save_effect, setItem. now rewrite insert_insert_eq.
      * destruct (as_presets parsed); [|discriminate].
        intros [= <-]. now split.
    + intros [= <-]. cbn. split; [|reflexivity].
      unfold save_effect, setItem. now rewrite insert_insert_eq.
  - intros [= <-]. cbn. split; [|reflexivity].
    unfold save_effect, setItem. now rewrite insert_insert_eq.
Qed.

Lemma save_effect_mirrors (st : State) (ls : localStorage) :
  getItem (save_effect st ls) key = Some (stringify_presets (presets st)).
Proof. unfold save_effect, getItem, setItem. apply lookup_insert_eq. Qed.

Lemma save_effect_other (st : State) (ls : localStorage) (k : string) :
  k <> key -> getItem (save_effect st ls) k = getItem ls k.
Proof.
  intros Hk. unfold save_effect, getItem, setItem.
  apply lookup_insert_ne. congruence.
Qed.

Lemma perform_console (w : World) (g : gesture) : console (perform w g) = console w.
Proof.
  destruct g; cbn; try reflexivity.
  - unfold saveCurrentAsPreset. now destruct (negb _).
  - now destruct (presets (state w) !! i).
  - now destruct (presets (state w) !! i).
Qed.

Lemma commit_kept (ls : localStorage) (st : State) (w : World) :
  active_is_listed st ->
  (forall k, k <> key -> getItem (storage w) k = getItem ls k) ->
  form_kept ls (commit st w).
Proof.
  intros Hactive Hother. repeat split.
  - apply PromptForm_commit_saved.
  - exact Hactive.
  - intros k Hk. unfold commit. cbn [storage].
    rewrite save_effect_other by exact Hk. now apply Hother.
Qed.

Lemma perform_kept (ls : localStorage) (w : World) (g : gesture) :
  form_kept ls w -> form_kept ls (perform w g).
Proof.
  intros (Hmirror & Hactive & Hother).
  destruct g as [v|s u m t k b|p a|randomUUID|i|i]; cbn [perform].
  - now repeat split.
  - now repeat split.
  - now repeat split.
  - unfold saveCurrentAsPreset.
    destruct (negb (truthy (trim (newPresetName (state w))))); [now repeat split|].
    apply commit_kept; [|exact Hother].
    unfold active_is_listed. cbn. eexists.
    split; [apply in_or_app; right; now left | reflexivity].
  - destruct (presets (state w) !! i) as [preset|] eqn:Hi; [|now repeat split].
    repeat split; [exact Hmirror| |exact Hother].
    unfold active_is_listed. cbn. exists preset. split; [|reflexivity].
    apply list_elem_of_In, list_elem_of_lookup. eauto.
  - destruct (presets (state w) !! i) as [preset|] eqn:Hi; [|now repeat split].
    unfold deletePreset. apply commit_kept; [|exact Hother].
    unfold active_is_listed in *.
    destruct (decide (activePreset (state w) = Some (ModelPreset.id preset)))
      as [Heq|Hne]; cbn; [exact I|].
    destruct (activePreset (state w)) as [id|]; [|exact I].
    destruct Hactive as (p & Hp & Hid). exists p. split; [|exact Hid].
    apply List.filter_In. split; [exact Hp|].
    apply negb_true_iff, String.eqb_neq. congruence.
Qed.

(** X3: from the mounted form on, whatever the user does on it (typing,
    emptying a number input, saving, choosing and deleting presets), the
    storage holds under the key of the form the JSON text of the presets
    shown, every other key holds what it held before mounting, the
    active preset is none or the id of a preset of the list, nothing
    more is logged, and a restart at that point completes and shows the
    presets as JSON rereads them. *)
Theorem form_session_invariants (ls : localStorage) (w : World)
    (gestures : list gesture) (Hmount : mount ls = Some w) :
  let w' := session w gestures in
  form_mirrored w'
  /\ active_is_listed (state w')
  /\ (forall k, k <> key -> getItem (storage w') k = getItem ls k)
  /\ console w' = console w
  /\ (exists w2, mount (storage w') = Some w2
                 /\ presets (state w2) = map reread_preset (presets (state w'))
                 /\ console w2 = []).
Proof.
  cbv zeta.
  assert (Hstart : form_kept ls w).
  { destruct (mount_cases ls w Hmount) as [Hstorage Hactive]. repeat split.
    - unfold form_mirrored. rewrite Hstorage. apply save_effect_mirrors.
    - unfold active_is_listed. now rewrite Hactive.
    - intros k Hk. rewrite Hstorage. now rewrite !save_effect_other by exact Hk. }
  clear Hmount. unfold session.
  assert (Hgen : forall w0, form_kept ls w0 ->
            form_kept ls (fold_left perform gestures w0)
            /\ console (fold_left perform gestures w0) = console w0).
  { induction gestures as [|g gestures IH]; intros w0 H0; [now split|].
    cbn [fold_left]. destruct (IH (perform w0 g) (perform_kept ls w0 g H0)) as [H1 H2].
    split; [exact H1|]. now rewrite H2, perform_console. }
  destruct (Hgen w Hstart) as ((H1 & H2 & H3) & H4).
  split; [exact H1|]. split; [exact H2|]. split; [exact H3|]. split; [exact H4|].
  exact (PromptForm_mount_saved _ _ H1).
Qed.

(** A session in which the max-tokens input is emptied before a preset
    is saved. *)
Lemma form_session_invariants_witness :
  let gestures :=
    [ TypeName "Terse";
      EditInputs "Be terse." "Why?" "other-model" 0.7%float PrimFloat.nan false;
      ClickSave Samples.sample_uuid; ClickDelete 0; ClickPreset 2 ] in
  form_mirrored (session Samples.mounted_form gestures)
  /\ active_is_listed (state (session Samples.mounted_form gestures))
  /\ (exists w2, mount (storage (session Samples.mounted_form gestures)) = Some w2
                 /\ presets (state w2)
                    = map reread_preset
                        (presets (state (session Samples.mounted_form gestures)))
                 /\ console w2 = []).
Proof.
  cbv zeta.
  assert (Hmount : mount ∅ = Some Samples.mounted_form).
  { unfold mount, getItem. rewrite lookup_empty. reflexivity. }
  destruct (form_session_invariants ∅ Samples.mounted_form
              [ TypeName "Terse";
                EditInputs "Be terse." "Why?" "other-model" 0.7%float PrimFloat.nan false;
                ClickSave Samples.sample_uuid; ClickDelete 0; ClickPreset 2 ]
              Hmount) as (H1 & H2 & _ & _ & H5).
  split; [exact H1|]. split; [exact H2 | exact H5].
Defined.

Lemma filter_by_id_deletes {A} (f : A -> string) (l : list A) (i : nat) (p : A) :
  List.NoDup (map f l) -> l !! i = Some p ->
  List.filter (fun q => negb (String.eqb (f q) (f p))) l = delete i l.
Proof.
  revert i. induction l as [|x l IH]; intros i Hnd Hi; [discriminate|].
  inversion Hnd as [|? ? Hx Hnd']; subst.
  destruct i as [|i]; cbn in Hi |- *.
  - injection Hi as ->. rewrite String.eqb_refl. cbn.
    apply filter_absent. apply Forall_forall. intros q Hq.
    apply negb_true_iff, String.eqb_neq. intros Heq. apply Hx.
    rewrite <- Heq. apply in_map. now apply list_elem_of_In.
  - assert (Hne : f x <> f p).
    { intros Heq. apply Hx. rewrite Heq. apply in_map.
      apply list_elem_of_In, list_elem_of_lookup. eauto. }
    apply String.eqb_neq in Hne. rewrite Hne. cbn. f_equal. now apply IH.
Qed.

Lemma in_delete {A} (l : list A) (i : nat) (q : A) :
  In q (delete i l) -> In q l.
Proof.
  revert i. induction l as [|x l IH]; intros i; [now destruct i|].
  destruct i as [|i]; cbn; [now right|].
  intros [->|H]; [now left | right; now apply (IH i)].
Qed.

Lemma NoDup_delete_map {A} (f : A -> string) (l : list A) (i : nat) :
  List.NoDup (map f l) -> List.NoDup (map f (delete i l)).
Proof.
  revert i. induction l as [|x l IH]; intros i Hnd; [now destruct i|].
  inversion Hnd as [|? ? Hx Hnd']; subst.
  destruct i as [|i]; cbn; [exact Hnd'|].
  constructor; [|now apply IH].
  intros Hin. apply Hx. apply in_map_iff in Hin as (q & Hq & Hin).
  apply in_map_iff. exists q. split; [exact Hq|]. now apply (in_delete l i).
Qed.

(** X4: while the ids of the presets are pairwise different, the delete
    button of the preset at a position removes that preset and no other,
    the ids stay pairwise different, and the same holds after a save
    whose generated id is not in use. *)
Theorem delete_removes_the_clicked_preset (w : World) (i : nat)
    (clicked : ModelPreset.t) (randomUUID : string)
    (Hunique : List.NoDup (preset_ids (presets (state w))))
    (Hclicked : presets (state w) !! i = Some clicked)
    (Hfresh : ~ In randomUUID (preset_ids (presets (state w)))) :
  presets (state (perform w (ClickDelete i))) = delete i (presets (state w))
  /\ S (length (presets (state (perform w (ClickDelete i)))))
     = length (presets (state w))
  /\ List.NoDup (preset_ids (presets (state (perform w (ClickDelete i)))))
  /\ List.NoDup (preset_ids (presets (state (perform w (ClickSave randomUUID))))).
Proof.
  assert (Hdel : presets (state (perform w (ClickDelete i)))
                 = delete i (presets (state w))).
  { cbn [perform]. rewrite Hclicked. unfold deletePreset. cbn.
    destruct (decide _); cbn;
      now apply (filter_by_id_deletes ModelPreset.id). }
  rewrite Hdel. split; [reflexivity|]. split; [|split].
  - rewrite length_delete by eauto.
    apply lookup_lt_Some in Hclicked. lia.
  - now apply NoDup_delete_map.
  - cbn [perform]. unfold saveCurrentAsPreset.
    destruct (negb (truthy (trim (newPresetName (state w))))); [exact Hunique|].
    cbn. unfold preset_ids in *. rewrite map_app. cbn.
    apply NoDup_ListNoDup, NoDup_app.
    split; [now apply NoDup_ListNoDup|]. split.
    + intros x Hx Hx'. apply list_elem_of_In in Hx.
      apply list_elem_of_singleton in Hx'. now subst.
    + apply NoDup_singleton.
Qed.

Lemma delete_removes_the_clicked_preset_witness :
  presets (state (perform Samples.mounted_form (ClickDelete 1)))
  = [ ModelPreset.mk "1" "Rhyming Assistant" "mistral-nemo-instruct-2407"
        "Always answer in rhymes. Today is Thursday" (Num 0.7%float) (Num (-1)%float);
      ModelPreset.mk "3" "Precise Analyst" "mistral-nemo-instruct-2407"
        "You are a precise, analytical assistant that provides factual, well-reasoned responses."
        (Num 0.3%float) (Num (-1)%float) ].
Proof.
  refine (proj1 (delete_removes_the_clicked_preset Samples.mounted_form 1
                   (ModelPreset.mk "2" "Helpful Assistant" "mistral-nemo-instruct-2407"
                      "You are a helpful, harmless, and honest AI assistant."
                      (Num 0.7%float) (Num (-1)%float))
                   Samples.sample_uuid _ eq_refl _)).
  - repeat constructor; cbn; intuition discriminate.
  - cbn. intuition discriminate.
Defined.

(** X5: a preset saved from the form brings the form back: after the
    save, whatever is then typed into the inputs, choosing the saved
    preset (the last of the list) restores the system prompt, the model,
    the temperature and the token limit the form had at the save, keeps
    the user prompt and the stream flag as typed, makes the saved preset
    the active one, and a submission then posts exactly those values. *)
Theorem saved_preset_restores_form
    (w : World) (randomUUID apiEndpoint : string) (net : reply)
    (s u m : string) (t k : float) (b : bool)
    (Hname : truthy (trim (newPresetName (state w))) = true) :
  let saved := perform w (ClickSave randomUUID) in
  let edited := perform saved (EditInputs s u m t k b) in
  let restored := perform edited (ClickPreset (length (presets (state w)))) in
  systemPrompt (state restored) = systemPrompt (state w)
  /\ model (state restored) = model (state w)
  /\ temperature (state restored) = temperature (state w)
  /\ maxTokens (state restored) = maxTokens (state w)
  /\ userPrompt (state restored) = u
  /\ stream (state restored) = b
  /\ activePreset (state restored) = Some randomUUID
  /\ requests (trace (handleSubmit (state restored) apiEndpoint net))
     = [post apiEndpoint
          (documented_body (model (state w)) (systemPrompt (state w)) u
             (json_cell (temperature (state w)))
             (json_cell (maxTokens (state w))) b)].
Proof.
  cbv zeta.
  set (restored := perform _ (ClickPreset _)).
  assert (Hfields :
            systemPrompt (state restored) = systemPrompt (state w)
            /\ model (state restored) = model (state w)
            /\ temperature (state restored) = temperature (state w)
            /\ maxTokens (state restored) = maxTokens (state w)
            /\ userPrompt (state restored) = u
            /\ stream (state restored) = b
            /\ activePreset (state restored) = Some randomUUID).
  { subst restored. cbn [perform]. unfold saveCurrentAsPreset.
    rewrite Hname. cbn [negb]. cbn.
    rewrite lookup_app_r by lia. rewrite Nat.sub_diag. cbn. now repeat split. }
  destruct Hfields as (H1 & H2 & H3 & H4 & H5 & H6 & H7).
  repeat split; try assumption.
  destruct (handleSubmit_run (state restored) apiEndpoint net) as (_ & _ & ->).
  now rewrite H1, H2, H3, H4, H5, H6.
Qed.

Lemma saved_preset_restores_form_witness :
  systemPrompt
    (state (perform
              (perform (perform Samples.form_with_name (ClickSave Samples.sample_uuid))
                 (EditInputs "Be terse." "Why?" "other-model" 1.5%float 64%float true))
              (ClickPreset 3)))
  = "Always answer in rhymes. Today is Thursday".
Proof.
  exact (proj1 (saved_preset_restores_form Samples.form_with_name Samples.sample_uuid
                  "http://localhost:1234" (Rejects (ErrorObject "Failed to fetch"))
                  "Be terse." "Why?" "other-model" 1.5%float 64%float true eq_refl)).
Defined.

Lemma mount_state (ls : localStorage) (w : World) :
  mount ls = Some w ->
  state w = setPresets (presets (state w)) initial
  /\ (form_written ls -> map reread_preset (presets (state w)) = presets (state w)).
Proof.
  unfold mount, form_written.
  destruct (getItem ls key) as [it|] eqn:Hget; cbn [fst snd].
  - destruct (item_truthy it) eqn:Htruthy; cbn [fst snd].
    + destruct (JSON_parse it) as [e|parsed] eqn:Hparse; cbn [fst snd].
      * intros [= <-]. split; [reflexivity|]. intros _. apply default_presets_reread.
      * destruct (as_presets parsed) as [items|] eqn:Hitems; [|discriminate].
        intros [= <-]. split; [reflexivity|]. cbn.
        intros [Hnone|[(raw & complaint & Hraw)|(l & Hl)]]; try congruence.
        -- injection Hraw as ->. discriminate Hparse.
        -- injection Hl as ->. unfold stringify_presets in Hparse.
           injection Hparse as <-. injection Hitems as <-.
           apply reread_presets_again.
    + intros [= <-]. split; [reflexivity|]. intros _. apply default_presets_reread.
  - intros [= <-]. split; [reflexivity|]. intros _. apply default_presets_reread.
Qed.

(** Whatever the form left under its key, mounting completes. *)
Lemma mount_written (ls : localStorage) :
  form_written ls -> exists w, mount ls = Some w.
Proof.
  intros [Hnone|[(raw & complaint & Hraw)|(l & Hl)]].
  - unfold mount. rewrite Hnone. cbn. eauto.
  - unfold mount. rewrite Hraw. cbn. destruct (truthy raw); cbn; eauto.
  - destruct (PromptForm_mount_saved ls l Hl) as (w & Hw & _). eauto.
Qed.

(** X6: on a storage that holds under the key of the form nothing, a
    text that is not JSON, or what the form wrote there (also when a
    number of a preset was written as null), mounting completes, and
    mounting again on the storage that mount left comes to the same
    state and leaves the storage as it is: a second restart changes
    nothing, and logs nothing. *)
Theorem form_restart_is_stable (ls : localStorage) (Hwritten : form_written ls) :
  exists w, mount ls = Some w
            /\ exists w', mount (storage w) = Some w'
                          /\ state w' = state w
                          /\ storage w' = storage w
                          /\ console w' = [].
Proof.
  destruct (mount_written ls Hwritten) as (w & Hmount).
  exists w. split; [exact Hmount|].
  destruct (mount_cases ls w Hmount) as [Hstorage _].
  destruct (mount_state ls w Hmount) as [Hstate Hstorable].
  specialize (Hstorable Hwritten).
  assert (Hget : getItem (storage w) key
                 = Some (JsonText (PresetArray (presets (state w))))).
  { rewrite Hstorage, save_effect_mirrors. unfold stringify_presets.
    now rewrite Hstorable. }
  unfold mount at 1. rewrite Hget.
  cbn [item_truthy JSON_parse fst snd as_presets].
  eexists. split; [reflexivity|]. cbn [state storage console].
  rewrite <- Hstate. split; [reflexivity|]. split; [|reflexivity].
  rewrite Hstorage.
  unfold save_effect, setItem. now rewrite !insert_insert_eq.
Qed.

(** The storage left by a save made while the max-tokens cell held NaN. *)
Lemma form_restart_is_stable_witness :
  exists w,
    mount (storage (saveCurrentAsPreset Samples.sample_uuid
                      Samples.form_with_cleared_limit)) = Some w
    /\ exists w', mount (storage w) = Some w'
                  /\ state w' = state w
                  /\ storage w' = storage w
                  /\ console w' = [].
Proof.
  apply (form_restart_is_stable
           (storage (saveCurrentAsPreset Samples.sample_uuid
                       Samples.form_with_cleared_limit))).
  right. right. eexists. apply PromptForm_commit_saved.
Defined.

End FormProperties.

(** ** PromptEnhancer: sessions on the library *)

Section LibraryProperties.
Import Text Host Storage StoreSpec SessionSpec Observe PromptEnhancer EnhancerActions.
Local Open Scope string_scope.

Lemma reread_prompt_again (p : EnhancedPrompt.t) :
  reread_prompt (reread_prompt p) = reread_prompt p.
Proof. reflexivity. Qed.

Lemma library_mount_storage (ls : localStorage) (w : World) :
  mount ls = Some w -> storage w = ls.
Proof.
  unfold mount. destruct (getItem ls key) as [it|]; [|now intros [= <-]].
  destruct (item_truthy it); [|now intros [= <-]].
  destruct (JSON_parse it) as [e|parsed]; [now intros [= <-]|].
  destruct (as_prompts parsed); [now intros [= <-]|discriminate].
Qed.

Lemma store_kept (w0 w : World) (updated : list EnhancedPrompt.t) :
  library_kept w0 w -> library_kept w0 (store updated w).
Proof.
  intros (_ & Hother & Hconsole). split; [|split].
  - right. destruct (PromptEnhancer_store_saved updated w) as [-> ->]. reflexivity.
  - intros k Hk. unfold store, saveToLocalStorage, getItem, setItem. cbn [storage].
    rewrite lookup_insert_ne by congruence. now apply Hother.
  - exact Hconsole.
Qed.

Lemma update_kept (w0 w : World) (f : State -> State) :
  (forall st, savedPrompts (f st) = savedPrompts st) ->
  library_kept w0 w -> library_kept w0 (update f w).
Proof.
  intros Hf (Hdisk & Hother & Hconsole). split; [|now split].
  unfold update. cbn [state storage]. rewrite Hf. exact Hdisk.
Qed.

Lemma library_perform_kept (w0 w : World) (g : gesture) :
  library_kept w0 w -> library_kept w0 (perform w g).
Proof.
  intros H.
  destruct g as [v|v|a b| | |randomUUID now|i|i|i]; cbn [perform];
    try (apply update_kept; [reflexivity | exact H]).
  - unfold saveEnhancedPrompt.
    destruct (negb (truthy (enhancedPrompt (state w)))); [exact H|].
    now apply store_kept.
  - destruct (savedPrompts (state w) !! i); [|exact H]. now apply store_kept.
  - destruct (savedPrompts (state w) !! i); [|exact H].
    apply update_kept; [reflexivity | exact H].
  - destruct (savedPrompts (state w) !! i); [|exact H]. now apply store_kept.
Qed.

Lemma library_session_kept (w0 w : World) (gestures : list gesture) :
  library_kept w0 w -> library_kept w0 (session w gestures).
Proof.
  unfold session. revert w.
  induction gestures as [|g gestures IH]; intros w H; [exact H|].
  cbn [fold_left]. apply IH. now apply library_perform_kept.
Qed.

(** X7: from the mounted library on, whatever the user does (typing,
    saving, using, starring and deleting records, switching panels), a
    restart on the storage of that moment shows the library of that
    moment, its dates as ISO strings; every other key holds what it held
    before mounting, and nothing more is logged. *)
Theorem library_survives_restart (ls : localStorage) (w : World)
    (gestures : list gesture) (Hmount : mount ls = Some w) :
  let w' := session w gestures in
  library_durable w'
  /\ (forall k, k <> key -> getItem (storage w') k = getItem ls k)
  /\ console w' = console w.
Proof.
  cbv zeta.
  pose proof (library_mount_storage ls w Hmount) as Hls.
  assert (Hstart : library_kept w w) by (split; [now left | now split]).
  destruct (library_session_kept w w gestures Hstart) as (Hdisk & Hother & Hconsole).
  split; [|split; [|exact Hconsole]].
  - destruct Hdisk as [[Hsame Hprompts]|Hsaved].
    + exists w. rewrite Hsame, Hls, Hprompts. now split.
    + destruct (PromptEnhancer_mount_saved _ _ Hsaved) as (w2 & Hw2 & Hp & _).
      exists w2. split; [exact Hw2|]. rewrite Hp, map_map. reflexivity.
  - intros k Hk. rewrite (Hother k Hk). now rewrite Hls.
Qed.

Lemma library_survives_restart_witness :
  library_durable
    (session Samples.mounted_library
       [TypeBasePrompt "a poem"; ShowEnhanced "Write a short poem about the sea.";
        ClickSave Samples.sample_uuid 1700000000000; ClickFavorite 0; ClickUse 0]).
Proof.
  refine (proj1 (library_survives_restart ∅ Samples.mounted_library _ _)).
  unfold mount, getItem. rewrite lookup_empty. reflexivity.
Defined.

Lemma toggle_flip_twice (id : string) (p : EnhancedPrompt.t) :
  let flip q :=
    if String.eqb (EnhancedPrompt.id q) id
    then EnhancedPrompt.mk (EnhancedPrompt.id q)
           (EnhancedPrompt.originalPrompt q) (EnhancedPrompt.enhancedPrompt q)
           (EnhancedPrompt.systemPrompt q) (EnhancedPrompt.category q)
           (EnhancedPrompt.createdAt q) (negb (EnhancedPrompt.favorite q))
    else q in
  flip (flip p) = p.
Proof.
  cbv zeta. destruct p as [pid ? ? ? ? ? favorite]. cbn.
  destruct (String.eqb pid id) eqn:E; cbn; rewrite E; [|reflexivity].
  now rewrite negb_involutive.
Qed.

(** X8: starring the same id twice brings the library back, in the state
    and under the key, whatever the library holds. *)
Theorem toggleFavorite_twice (w : World) (id : string) :
  let w2 := toggleFavorite id (toggleFavorite id w) in
  state w2 = state w
  /\ getItem (storage w2) key = Some (stringify_prompts (savedPrompts (state w)))
  /\ console w2 = console w.
Proof.
  cbv zeta. unfold toggleFavorite.
  set (flip := fun p : EnhancedPrompt.t =>
                 if String.eqb (EnhancedPrompt.id p) id then _ else p).
  assert (Htwice : map flip (map flip (savedPrompts (state w)))
                   = savedPrompts (state w)).
  { rewrite map_map. rewrite <- (map_id (savedPrompts (state w))) at 2.
    apply map_ext. intros p. apply (toggle_flip_twice id p). }
  unfold store. cbn [state storage console savedPrompts setSavedPrompts].
  rewrite Htwice. split; [|split; [|reflexivity]].
  - now destruct (state w).
  - unfold saveToLocalStorage, getItem, setItem. apply lookup_insert_eq.
Qed.

Lemma filter_out_last {A} (f : A -> bool) (l : list A) (x : A) :
  Forall (fun y => f y = true) l -> f x = false -> List.filter f (l ++ [x]) = l.
Proof.
  intros Hl Hx. rewrite List.filter_app. cbn. rewrite Hx, app_nil_r.
  now apply filter_absent.
Qed.

(** X9: saving and then deleting the record just saved brings the
    collection back, in the state and under the key, provided the
    generated id was not in use; for the form, no preset is active
    afterwards, whichever was active before. *)
Theorem add_then_remove
    (wf : PromptForm.World) (we : World) (randomUUID : string) (now : Z)
    (Hname : truthy (trim (PromptForm.newPresetName (PromptForm.state wf))) = true)
    (Hprompt : truthy (enhancedPrompt (state we)) = true)
    (Hfresh_presets :
       Forall (fun p => ModelPreset.id p <> randomUUID)
         (PromptForm.presets (PromptForm.state wf)))
    (Hfresh_prompts :
       Forall (fun p => EnhancedPrompt.id p <> randomUUID) (savedPrompts (state we))) :
  let wf' := PromptForm.deletePreset randomUUID
               (PromptForm.saveCurrentAsPreset randomUUID wf) in
  let we' := deletePrompt randomUUID (saveEnhancedPrompt randomUUID now we) in
  (PromptForm.presets (PromptForm.state wf') = PromptForm.presets (PromptForm.state wf)
   /\ PromptForm.activePreset (PromptForm.state wf') = None
   /\ getItem (PromptForm.storage wf') PromptForm.key
      = Some (stringify_presets (PromptForm.presets (PromptForm.state wf))))
  /\ (savedPrompts (state we') = savedPrompts (state we)
      /\ getItem (storage we') key
         = Some (stringify_prompts (savedPrompts (state we)))).
Proof.
  cbv zeta. split.
  - unfold PromptForm.saveCurrentAsPreset. rewrite Hname. cbn [negb].
    set (newPreset := ModelPreset.mk _ _ _ _ _ _).
    assert (Hback : List.filter
                      (fun p => negb (String.eqb (ModelPreset.id p) randomUUID))
                      (PromptForm.presets (PromptForm.state wf) ++ [newPreset])%list
                    = PromptForm.presets (PromptForm.state wf)).
    { apply filter_out_last.
      - eapply List.Forall_impl; [|exact Hfresh_presets].
        intros p Hp. now rewrite neq_eqb_false.
      - cbn. now rewrite String.eqb_refl. }
    unfold PromptForm.deletePreset.
    rewrite PromptForm_commit_saved.
    cbn [PromptForm.state PromptForm.commit PromptForm.presets PromptForm.activePreset
         PromptForm.setActivePreset PromptForm.setNewPresetName PromptForm.setPresets
         ModelPreset.id newPreset].
    destruct (decide (Some randomUUID = Some randomUUID)) as [_|Hne]; [|congruence].
    cbn [PromptForm.presets PromptForm.activePreset PromptForm.setActivePreset
         PromptForm.setPresets].
    rewrite Hback. now repeat split.
  - unfold saveEnhancedPrompt. rewrite Hprompt. cbn [negb].
    set (newPrompt := EnhancedPrompt.mk _ _ _ _ _ _ _).
    unfold deletePrompt.
    destruct (PromptEnhancer_store_saved
                (savedPrompts (state we) ++ [newPrompt])%list we) as [_ ->].
    assert (Hback : List.filter
                      (fun p => negb (String.eqb (EnhancedPrompt.id p) randomUUID))
                      (savedPrompts (state we) ++ [newPrompt])%list
                    = savedPrompts (state we)).
    { apply filter_out_last.
      - eapply List.Forall_impl; [|exact Hfresh_prompts].
        intros p Hp. now rewrite neq_eqb_false.
      - cbn. now rewrite String.eqb_refl. }
    rewrite Hback.
    destruct (PromptEnhancer_store_saved (savedPrompts (state we))
                (store (savedPrompts (state we) ++ [newPrompt])%list we)) as [-> ->].
    now split.
Qed.

Lemma add_then_remove_witness :
  PromptForm.presets
    (PromptForm.state
       (PromptForm.deletePreset Samples.sample_uuid
          (PromptForm.saveCurrentAsPreset Samples.sample_uuid Samples.form_with_name)))
  = PromptForm.DEFAULT_PRESETS
  /\ savedPrompts
       (state (deletePrompt Samples.sample_uuid
                 (saveEnhancedPrompt Samples.sample_uuid 1700000000000
                    Samples.enhancer_with_result)))
     = [].
Proof.
  assert (Hfresh : Forall (fun p => ModelPreset.id p <> Samples.sample_uuid)
                     PromptForm.DEFAULT_PRESETS)
    by (repeat constructor; discriminate).
  destruct (add_then_remove Samples.form_with_name Samples.enhancer_with_result
              Samples.sample_uuid 1700000000000 eq_refl eq_refl Hfresh
              (List.Forall_nil _)) as ((Hf & _) & (He & _)).
  split; [exact Hf | exact He].
Defined.

Lemma perform_made_here (w : World) (g : gesture) :
  Forall made_here (savedPrompts (state w)) ->
  Forall made_here (savedPrompts (state (perform w g))).
Proof.
  intros H.
  destruct g as [v|v|a b| | |randomUUID now|i|i|i]; cbn [perform]; try exact H.
  - unfold saveEnhancedPrompt.
    destruct (truthy (enhancedPrompt (state w))) eqn:Hguard; cbn [negb]; [|exact H].
    destruct (PromptEnhancer_store_saved
                (savedPrompts (state w)
                 ++ [EnhancedPrompt.mk randomUUID (basePrompt (state w))
                       (enhancedPrompt (state w)) ENHANCEMENT_SYSTEM_PROMPT
                       (selectedCategory (state w)) (EnhancedPrompt.DateObject now)
                       false])%list w) as [_ ->].
    apply Forall_app. split; [exact H|]. constructor; [|constructor]. now split.
  - destruct (savedPrompts (state w) !! i) as [prompt|]; [|exact H].
    unfold toggleFavorite.
    match goal with
    | |- context [store ?l w] => destruct (PromptEnhancer_store_saved l w) as [_ ->]
    end.
    apply Forall_forall. intros q Hq.
    apply list_elem_of_In, in_map_iff in Hq as (p & <- & Hp).
    apply list_elem_of_In in Hp.
    pose proof (proj1 (Forall_forall _ _) H p Hp) as Hmade.
    now destruct (String.eqb (EnhancedPrompt.id p) (EnhancedPrompt.id prompt)).
  - destruct (savedPrompts (state w) !! i) as [prompt|]; exact H.
  - destruct (savedPrompts (state w) !! i) as [prompt|]; [|exact H].
    unfold deletePrompt.
    match goal with
    | |- context [store ?l w] => destruct (PromptEnhancer_store_saved l w) as [_ ->]
    end.
    apply Forall_forall. intros q Hq.
    apply list_elem_of_In, List.filter_In in Hq as [Hq _].
    apply list_elem_of_In in Hq. exact (proj1 (Forall_forall _ _) H q Hq).
Qed.

Lemma session_made_here (w : World) (gestures : list gesture) :
  Forall made_here (savedPrompts (state w)) ->
  Forall made_here (savedPrompts (state (session w gestures))).
Proof.
  unfold session. revert w.
  induction gestures as [|g gestures IH]; intros w Hmade; [exact Hmade|].
  cbn [fold_left]. apply IH. now apply perform_made_here.
Qed.

(** X10: in a library whose records were all made by the save handler,
    they still are after any session, and using one of them then sets
    the base prompt and the enhanced prompt to those of the record
    (which leaves the save control available) and posts one request
    whose system message is the enhancement instruction and whose user
    message is the enhanced prompt of the record, never rejecting. *)
Theorem used_prompt_is_resent
    (apiEndpoint : string) (net : reply) (w : World) (gestures : list gesture)
    (i : nat) (prompt : EnhancedPrompt.t)
    (Hmade : Forall made_here (savedPrompts (state w)))
    (Hprompt : savedPrompts (state (session w gestures)) !! i = Some prompt) :
  let used :=
    usePrompt (fun systemPrompt userPrompt =>
                 App.handleEnhancedPrompt apiEndpoint systemPrompt userPrompt net)
      prompt (state (session w gestures)) in
  Forall made_here (savedPrompts (state (session w gestures)))
  /\ basePrompt (fst used) = EnhancedPrompt.originalPrompt prompt
  /\ enhancedPrompt (fst used) = EnhancedPrompt.enhancedPrompt prompt
  /\ truthy (enhancedPrompt (fst used)) = true
  /\ savedPrompts (fst used) = savedPrompts (state (session w gestures))
  /\ requests (trace (snd used))
     = [post apiEndpoint
          (JObj [ ("model", JStr "mistral-nemo-instruct-2407");
                  ("messages",
                   chat_messages ENHANCEMENT_SYSTEM_PROMPT
                     (EnhancedPrompt.enhancedPrompt prompt));
                  ("temperature", JNum 0.7%float);
                  ("max_tokens", JNum (-1)%float) ])]
  /\ completion (snd used) = inr tt.
Proof.
  cbv zeta.
  pose proof (session_made_here w gestures Hmade) as Hall.
  assert (Hthis : made_here prompt).
  { apply (proj1 (Forall_forall _ _) Hall).
    apply list_elem_of_lookup. eauto. }
  destruct Hthis as [Hsystem Htruthy].
  unfold usePrompt. cbn [fst snd]. rewrite Hsystem.
  destruct (handleEnhancedPrompt_run apiEndpoint ENHANCEMENT_SYSTEM_PROMPT
              (EnhancedPrompt.enhancedPrompt prompt) net) as (Hc & _ & Hr).
  now repeat split.
Qed.

Lemma used_prompt_is_resent_witness :
  requests
    (trace
       (snd (usePrompt
               (fun systemPrompt userPrompt =>
                  App.handleEnhancedPrompt "http://localhost:1234" systemPrompt
                    userPrompt (Rejects (ErrorObject "Failed to fetch")))
               (EnhancedPrompt.mk Samples.sample_uuid "a poem"
                  "Write a short poem about the sea." ENHANCEMENT_SYSTEM_PROMPT
                  "Creative Writing" (EnhancedPrompt.DateObject 1700000000000) true)
               (state (session Samples.enhancer_with_result
                         [ClickSave Samples.sample_uuid 1700000000000;
                          ClickFavorite 0])))))
  = [post "http://localhost:1234"
       (JObj [ ("model", JStr "mistral-nemo-instruct-2407");
               ("messages",
                chat_messages ENHANCEMENT_SYSTEM_PROMPT
                  "Write a short poem about the sea.");
               ("temperature", JNum 0.7%float);
               ("max_tokens", JNum (-1)%float) ])].
Proof.
  destruct (used_prompt_is_resent "http://localhost:1234"
              (Rejects (ErrorObject "Failed to fetch")) Samples.enhancer_with_result
              [ClickSave Samples.sample_uuid 1700000000000; ClickFavorite 0] 0
              (EnhancedPrompt.mk Samples.sample_uuid "a poem"
                 "Write a short poem about the sea." ENHANCEMENT_SYSTEM_PROMPT
                 "Creative Writing" (EnhancedPrompt.DateObject 1700000000000) true)
              (List.Forall_nil _) eq_refl) as (_ & _ & _ & _ & _ & H & _).
  exact H.
Defined.

(** X11: the right side shows at most one of its four blocks; it shows
    none exactly when a result is to be shown but the result is empty or
    absent; once the result effect has run on a result that is not
    empty the block shown is the response output, and after a dismissal
    it is the library, the empty library or the welcome block. *)
Theorem right_side_shows_one_block (activeResult : option string) (st : State) :
  length (right_side activeResult st) <= 1
  /\ (right_side activeResult st = []
      <-> showResult st = true /\ activeResult_truthy activeResult = false)
  /\ (activeResult_truthy activeResult = true ->
      right_side activeResult (result_effect activeResult st) = [ResponseOutput])
  /\ right_side activeResult (setShowResult false st)
     = if showSaved st
       then (if Nat.eqb (length (savedPrompts st)) 0 then [EmptyLibrary] else [Library])
       else [Welcome].
Proof.
  unfold right_side, result_effect.
  destruct st as [b e ie sc fc saved sSaved sResult]. cbn.
  destruct (activeResult_truthy activeResult), sSaved, sResult, saved as [|p saved];
    cbn; repeat split; intros; try lia; try discriminate; try tauto;
    try (destruct H; discriminate).
Qed.

Lemma right_side_shows_one_block_witness :
  right_side (Some "") (setShowResult true initial) = []
  /\ right_side (Some "Hello") (result_effect (Some "Hello") initial) = [ResponseOutput].
Proof.
  destruct (right_side_shows_one_block (Some "") (setShowResult true initial))
    as (_ & Hnone & _).
  destruct (right_side_shows_one_block (Some "Hello") initial) as (_ & _ & Hshown & _).
  split; [apply Hnone; now split | apply Hshown; reflexivity].
Defined.

End LibraryProperties.

(** ** Chat client: order of the effects and reading of the response *)

Section ChatProperties.
Import Text Host Observe ChatSpec.
Local Open Scope string_scope.
Local Arguments read_content : simpl never.

(** X12: whatever the network answers, each call site raises its
    loading state before the request and lowers it after the result has
    been handed over, as the last thing it does; the enhancement request
    uses the handler of the parent when there is one and its own flag
    otherwise; with a blank base prompt it does nothing at all. *)
Theorem loading_brackets_the_request
    (st : PromptForm.State) (apiEndpoint systemPrompt userPrompt basePrompt : string)
    (hasLoadingHandler : bool) (net : reply) :
  (exists r,
     trace (PromptForm.handleSubmit st apiEndpoint net)
     = [preventDefault; setLoading true; fetch r;
        onResult (shown_for "Error: " (chat_outcome net)); setLoading false])
  /\ (exists r,
        trace (App.handleEnhancedPrompt apiEndpoint systemPrompt userPrompt net)
        = [setLoading true; setResult (Some (JStr "")); fetch r;
           setResult (shown_for "Error: " (chat_outcome net)); setLoading false])
  /\ (exists r,
        trace (PromptEnhancer.enhancePrompt apiEndpoint hasLoadingHandler basePrompt net)
        = if truthy (trim basePrompt)
          then [loading_call hasLoadingHandler true; setEnhancedPrompt (Some (JStr ""));
                fetch r;
                setEnhancedPrompt (shown_for "Error enhancing prompt: " (chat_outcome net));
                loading_call hasLoadingHandler false]
          else []).
Proof.
  split; [|split].
  - eexists. unfold PromptForm.handleSubmit.
    destruct net as [reason|[data|raw complaint]]; cbn;
      [ | rewrite (read_content_eta data);
          destruct (completion (read_content data)) | ]; reflexivity.
  - eexists. unfold App.handleEnhancedPrompt.
    destruct net as [reason|[data|raw complaint]]; cbn;
      [ | rewrite (read_content_eta data);
          destruct (completion (read_content data)) | ]; reflexivity.
  - eexists. unfold PromptEnhancer.enhancePrompt.
    destruct (truthy (trim basePrompt)); cbn [negb]; [|reflexivity].
    destruct hasLoadingHandler, net as [reason|[data|raw complaint]]; cbn;
      try (rewrite (read_content_eta data);
           destruct (completion (read_content data))); reflexivity.
Qed.

Lemma get_peek (v : value) (p : prop) :
  get v p = if nullish v
            then inl (cannot_read (match v with None => "undefined" | Some _ => "null" end) p)
            else inr (peek v p).
Proof.
  unfold peek. destruct v as [[| | | | |]|]; cbn; try reflexivity;
    destruct p; reflexivity.
Qed.

(** X13: the read of [choices[0].message.content] throws exactly when
    the response, its [choices], the first choice or its [message] is
    [undefined] or [null], and the error is then the TypeError of the
    first such step; otherwise it yields the [content] member of the
    message, [undefined] when there is none. *)
Theorem read_content_outcome (data : json) :
  let choices := peek (Some data) (Named "choices") in
  let first := peek choices (Indexed 0) in
  let message := peek first (Named "message") in
  chat_outcome (Responds (JsonBody data))
  = if nullish (Some data) then inl (cannot_read "null" (Named "choices"))
    else if nullish choices
    then inl (cannot_read (match choices with None => "undefined" | Some _ => "null" end)
                (Indexed 0))
    else if nullish first
    then inl (cannot_read (match first with None => "undefined" | Some _ => "null" end)
                (Named "message"))
    else if nullish message
    then inl (cannot_read (match message with None => "undefined" | Some _ => "null" end)
                (Named "content"))
    else inr (peek message (Named "content")).
Proof.
  cbv zeta. unfold chat_outcome, read_content, completion, bind, lift.
  rewrite (get_peek (Some data)).
  destruct (nullish (Some data)); cbn [snd]; [reflexivity|].
  rewrite (get_peek (peek (Some data) (Named "choices"))).
  destruct (nullish (peek (Some data) (Named "choices"))); cbn [snd]; [reflexivity|].
  rewrite (get_peek (peek (peek (Some data) (Named "choices")) (Indexed 0))).
  destruct (nullish (peek (peek (Some data) (Named "choices")) (Indexed 0)));
    cbn [snd]; [reflexivity|].
  rewrite (get_peek (peek (peek (peek (Some data) (Named "choices")) (Indexed 0))
                       (Named "message"))).
  destruct (nullish (peek (peek (peek (Some data) (Named "choices")) (Indexed 0))
                       (Named "message"))); reflexivity.
Qed.

End ChatProperties.

(** ** Segment formatter: keys, plain texts, trimmed blocks *)

Section SegmentProperties.
Import Text SegmentFormatter SegmentSpec OutputDisplay DisplaySpec.
Local Open Scope list_scope.

Lemma key_segment_of (b : bool) (index : nat) (part : string) :
  key (segment_of b index part) = index.
Proof.
  unfold segment_of. now destruct (if b then Nat.odd index else Nat.even index).
Qed.

Lemma keys_from (b : bool) (k : nat) (parts : list string) :
  StronglySorted lt
    (map key (omap id (imap (fun i => format_part b (k + i)) parts)))
  /\ Forall (fun seg => k <= key seg)
       (omap id (imap (fun i => format_part b (k + i)) parts)).
Proof.
  revert k. induction parts as [|part parts IH]; intros k.
  - split; constructor.
  - rewrite imap_cons.
    rewrite (imap_ext _ (fun i => format_part b (S k + i)))
      by (intros; cbn; f_equal; lia).
    destruct (IH (S k)) as [Hsorted Hbound].
    cbn [omap list_omap]. unfold id at 1 3. rewrite format_part_spec, Nat.add_0_r.
    destruct (truthy (trim part)).
    + cbn [map]. rewrite key_segment_of. split.
      * constructor; [exact Hsorted|].
        apply Forall_map. eapply List.Forall_impl; [|exact Hbound].
        intros seg Hseg. cbn in Hseg. lia.
      * constructor; [rewrite key_segment_of; lia|].
        eapply List.Forall_impl; [|exact Hbound]. intros seg Hseg. cbn in Hseg. lia.
    + split; [exact Hsorted|].
      eapply List.Forall_impl; [|exact Hbound]. intros seg Hseg. cbn in Hseg. lia.
Qed.

(** X14: the keys of the emitted segments increase strictly, so no two
    segments of one text share a key. *)
Theorem rendered_keys_increase (text : string) :
  StronglySorted lt (map key (rendered text))
  /\ List.NoDup (map key (rendered text)).
Proof.
  assert (Hsorted : StronglySorted lt (map key (rendered text))).
  { rewrite rendered_unfold.
    exact (proj1 (keys_from (startsWith (trim text) fence) 0 (split_fence text))). }
  split; [exact Hsorted|].
  induction Hsorted as [|a l _ IH Hall]; constructor; [|exact IH].
  intros Hin. apply (proj1 (List.Forall_forall _ _) Hall) in Hin. lia.
Qed.

Lemma fence_length_none (l : units) :
  starts_fence l = false -> fence_length l = None.
Proof.
  unfold starts_fence, fence_length.
  destruct l as [|a [|b [|c rest]]]; try reflexivity. now intros ->.
Qed.

Lemma split_without_fence (l : units) :
  occurs_fence l = false -> split_fence_units 0 l = [l].
Proof.
  induction l as [|c l IH]; [reflexivity|]. cbn [occurs_fence].
  intros H. apply orb_false_iff in H as [Hhere Hlater].
  cbn [split_fence_units]. rewrite (fence_length_none _ Hhere), (IH Hlater).
  reflexivity.
Qed.

Lemma starts_with_fence (t : units) :
  starts_with_units t three_backticks = starts_fence t.
Proof.
  assert (Hsym : forall a, N.eqb (code backtick) (code a) = is_backtick a).
  { intros a. unfold is_backtick. now rewrite N.eqb_sym. }
  unfold three_backticks, starts_fence.
  destruct t as [|a [|b [|c rest]]]; cbn [starts_with_units];
    rewrite ?Hsym, ?andb_false_r; try reflexivity.
  replace (starts_with_units rest []) with true by now destruct rest.
  now rewrite andb_true_r, !andb_assoc.
Qed.

Lemma drop_spaces_suffix (l : units) : exists a, l = a ++ drop_spaces l.
Proof.
  induction l as [|c l [a IH]]; [now exists []|]. cbn.
  destruct (is_space c); [|now exists []].
  exists (c :: a). cbn. now rewrite <- IH.
Qed.

Lemma trim_units_infix (l : units) : exists a b, l = a ++ trim_units l ++ b.
Proof.
  destruct (drop_spaces_suffix l) as [a Ha].
  destruct (drop_spaces_suffix (rev (drop_spaces l))) as [b Hb].
  exists a, (rev b). unfold trim_units.
  rewrite <- rev_app_distr, <- Hb, rev_involutive. exact Ha.
Qed.

Lemma occurs_fence_app (a l : units) :
  occurs_fence (a ++ l) = false -> occurs_fence l = false.
Proof.
  induction a as [|c a IH]; [trivial|]. cbn [app occurs_fence].
  intros H. apply orb_false_iff in H as [_ H]. now apply IH.
Qed.

Lemma starts_fence_prefix (t b : units) :
  starts_fence (t ++ b) = false -> starts_fence t = false.
Proof.
  destruct t as [|x [|y [|z t]]]; cbn; trivial.
Qed.

Lemma trim_without_fence (l : units) :
  occurs_fence l = false -> starts_fence (trim_units l) = false.
Proof.
  intros H. destruct (trim_units_infix l) as (a & b & Hl).
  rewrite Hl in H. apply occurs_fence_app in H.
  apply (starts_fence_prefix _ b).
  destruct (trim_units l ++ b) as [|c rest]; [reflexivity|].
  cbn [occurs_fence] in H. now apply orb_false_iff in H as [H _].
Qed.

(** X15: a text in which three backticks do not occur is shown as one
    block, a code block holding the trimmed text, or as nothing when it
    is blank. *)
Theorem text_without_fence_is_one_block (text : string)
    (Hplain : occurs_fence (chars text) = false) :
  rendered text
  = if truthy (trim text) then [CodeBlock 0 (trim text)] else [].
Proof.
  rewrite rendered_unfold. unfold split_fence.
  rewrite (split_without_fence _ Hplain). cbn [map imap omap list_omap].
  unfold id at 1. rewrite format_part_spec, str_chars.
  destruct (truthy (trim text)); [|reflexivity].
  unfold segment_of, startsWith, fence, trim. rewrite !chars_str.
  change [backtick; backtick; backtick] with three_backticks.
  rewrite starts_with_fence, (trim_without_fence _ Hplain). reflexivity.
Qed.

Lemma text_without_fence_is_one_block_witness :
  rendered "  Roses are red.  " = [CodeBlock 0 "Roses are red."].
Proof.
  exact (text_without_fence_is_one_block "  Roses are red.  " eq_refl).
Defined.

Lemma drop_spaces_head (l : units) :
  match drop_spaces l with
  | [] => True
  | c :: _ => is_space c = false
  end.
Proof.
  induction l as [|c l IH]; [exact I|]. cbn.
  destruct (is_space c) eqn:E; [exact IH | exact E].
Qed.

Lemma drop_spaces_snoc (a : units) (x : ascii) :
  is_space x = false -> drop_spaces (a ++ [x]) = drop_spaces a ++ [x].
Proof.
  intros Hx. induction a as [|c a IH]; cbn; [now rewrite Hx|].
  now destruct (is_space c).
Qed.

(** Neither end of a trimmed string is white space. *)
Lemma trim_units_ends (l : units) :
  match trim_units l with
  | [] => True
  | c :: _ => is_space c = false
  end
  /\ match rev (trim_units l) with
     | [] => True
     | c :: _ => is_space c = false
     end.
Proof.
  unfold trim_units. split; [|rewrite rev_involutive; apply drop_spaces_head].
  pose proof (drop_spaces_head l) as Hhead.
  destruct (drop_spaces l) as [|x m]; [exact I|].
  cbn [rev]. rewrite (drop_spaces_snoc _ x Hhead), rev_app_distr. exact Hhead.
Qed.

Lemma split_newline_units_lines (l : units) :
  Forall (fun line => forallb (fun c => negb (is_newline c)) line = true)
    (split_newline_units l).
Proof.
  induction l as [|c l IH]; [repeat constructor|]. cbn.
  destruct (is_newline c) eqn:E; [constructor; [reflexivity | exact IH]|].
  destruct (split_newline_units l) as [|p ps]; [repeat constructor; cbn; now rewrite E|].
  inversion IH as [|? ? Hp Hps]; subst.
  constructor; [cbn; now rewrite E, Hp | exact Hps].
Qed.

(** X16: the content of a code block neither begins nor ends with white
    space, and no paragraph of a text block holds a line break. *)
Theorem rendered_blocks_are_tidy (text : string) :
  Forall (fun seg =>
            match seg with
            | CodeBlock _ content =>
                match chars content with
                | [] => True
                | c :: _ => is_space c = false
                end
                /\ match rev (chars content) with
                   | [] => True
                   | c :: _ => is_space c = false
                   end
            | TextBlock _ paragraphs =>
                Forall (fun p => forallb (fun c => negb (is_newline c)) (chars p) = true)
                  paragraphs
            end) (rendered text).
Proof.
  apply Forall_forall. intros seg Hseg.
  apply elem_of_rendered in Hseg as (index & part & _ & _ & ->).
  unfold segment_of.
  destruct (if startsWith (trim text) fence then Nat.odd index else Nat.even index).
  - unfold trim. rewrite chars_str. apply trim_units_ends.
  - unfold paragraphs_of, split_newline. apply Forall_forall. intros p Hp.
    apply list_elem_of_In, List.filter_In in Hp as [Hp _].
    apply in_map_iff in Hp as (line & <- & Hline).
    rewrite chars_str.
    exact (proj1 (List.Forall_forall _ _)
             (split_newline_units_lines (chars part)) line Hline).
Qed.

End SegmentProperties.

(** ** Segment formatter: the split and the kinds *)

Section SegmentClaims.
Import Text SegmentFormatter SegmentSpec OutputDisplay DisplaySpec SplitSpec.
Local Open Scope list_scope.
Local Arguments fence_length : simpl never.

Lemma tag_unit_word (c : ascii) : is_word c = true <-> tag_unit c.
Proof.
  unfold is_word, tag_unit. cbv zeta.
  rewrite !orb_true_iff, !andb_true_iff, !N.leb_le, N.eqb_eq. tauto.
Qed.

Lemma blank_unit_space (c : ascii) : is_space c = true <-> blank_unit c.
Proof.
  unfold is_space, blank_unit. cbv zeta.
  rewrite !orb_true_iff, !andb_true_iff, !N.leb_le, !N.eqb_eq. tauto.
Qed.

Lemma tag_units_words (tag : units) :
  forallb is_word tag = true <-> Forall tag_unit tag.
Proof.
  induction tag as [|c tag IH]; cbn.
  - split; [constructor | reflexivity].
  - rewrite andb_true_iff, tag_unit_word, IH. split.
    + intros [Hc Htag]. now constructor.
    + inversion 1; now split.
Qed.

Lemma blank_units_spaces (l : units) :
  forallb is_space l = true <-> Forall blank_unit l.
Proof.
  induction l as [|c l IH]; cbn.
  - split; [constructor | reflexivity].
  - rewrite andb_true_iff, blank_unit_space, IH. split.
    + intros [Hc Hl]. now constructor.
    + inversion 1; now split.
Qed.

Lemma not_blank_spec (l : units) : non_space l <> [] <-> not_blank l.
Proof.
  unfold not_blank, non_space. induction l as [|c l IH]; cbn.
  - split; [congruence | inversion 1].
  - destruct (is_space c) eqn:E; cbn.
    + rewrite IH. split; [now right|].
      inversion 1 as [? ? Hc|]; subst; [|assumption].
      exfalso. apply Hc, blank_unit_space, E.
    + split; [|discriminate]. intros _. left.
      rewrite <- blank_unit_space. congruence.
Qed.

Lemma word_run_app (tag : units) (c : ascii) (rest : units) :
  forallb is_word tag = true -> is_word c = false ->
  word_run (tag ++ c :: rest) = tag.
Proof.
  induction tag as [|a tag IH]; cbn; intros H Hc; [now rewrite Hc|].
  apply andb_prop in H as [Ha H]. rewrite Ha. f_equal. now apply IH.
Qed.

(** What follows three backticks is a tag and a newline exactly when the
    run of word units ends at a newline. *)
Lemma tag_then_newline (rest tag rest' : units) :
  Forall tag_unit tag -> rest = tag ++ newline :: rest' ->
  drop (length (word_run rest)) rest = newline :: rest'.
Proof.
  intros Htag ->. apply tag_units_words in Htag.
  rewrite (word_run_app tag newline rest' Htag eq_refl).
  apply drop_app_length.
Qed.

(** The match of the pattern at the head of [l] is the delimiter found
    there. *)
Lemma fence_length_delimiter (l : units) (n : nat) :
  fence_length l = Some n ->
  3 <= n /\ delimiter_at (take n l) (drop n l).
Proof.
  unfold fence_length.
  destruct l as [|a [|b [|c rest]]]; try discriminate.
  destruct (is_backtick a) eqn:Ea; [|discriminate].
  destruct (is_backtick b) eqn:Eb; [|discriminate].
  destruct (is_backtick c) eqn:Ec; [|discriminate]. simpl.
  apply is_backtick_eq in Ea, Eb, Ec. subst a b c.
  pose proof (word_run_prefix rest) as Hrest.
  pose proof (word_run_words rest) as Hwords.
  destruct (drop (length (word_run rest)) rest) as [|d tail] eqn:Ed.
  - intros [= <-]. split; [lia|]. right. split; [reflexivity|].
    intros tag rest' Htag Heq.
      change (rest = tag ++ newline :: rest') in Heq.
    rewrite (tag_then_newline _ _ _ Htag Heq) in Ed. discriminate.
  - destruct (is_newline d) eqn:En; intros [= <-].
    + split; [lia|]. left. exists (word_run rest).
      split; [now apply tag_units_words|].
      apply is_newline_eq in En. subst d.
      simpl. do 3 f_equal.
      rewrite Hrest at 2.
      rewrite take_app_ge by lia.
      replace (length (word_run rest) + 1 - length (word_run rest)) with 1 by lia.
      reflexivity.
    + split; [lia|]. right. split; [reflexivity|].
      intros tag rest' Htag Heq.
      change (rest = tag ++ newline :: rest') in Heq.
      rewrite (tag_then_newline _ _ _ Htag Heq) in Ed.
      injection Ed as <- _. discriminate.
Qed.

Lemma fence_length_starts (l : units) :
  fence_length l = None -> starts_fence l = false.
Proof.
  unfold starts_fence, fence_length.
  destruct l as [|a [|b [|c rest]]]; try reflexivity.
  destruct (is_backtick a && is_backtick b && is_backtick c); [|reflexivity].
  cbv zeta. destruct (drop (length (word_run rest)) rest) as [|d tail]; [discriminate|].
  destruct (is_newline d); discriminate.
Qed.

Lemma split_fence_units_skip (skip : nat) (l : units) :
  split_fence_units skip l = split_fence_units 0 (drop skip l).
Proof.
  revert skip. induction l as [|c l IH]; intros [|k]; try reflexivity.
  cbn [split_fence_units drop]. apply IH.
Qed.

Lemma fence_markers_skip (skip : nat) (l : units) :
  fence_markers skip l = fence_markers 0 (drop skip l).
Proof.
  revert skip. induction l as [|c l IH]; intros [|k]; try reflexivity.
  cbn [fence_markers drop]. apply IH.
Qed.

Lemma fence_split_cons (c : ascii) (l p : units) (ps ds : list units) :
  starts_fence (c :: l) = false ->
  fence_split l (p :: ps) ds -> fence_split (c :: l) ((c :: p) :: ps) ds.
Proof.
  intros Hc H. inversion H as [l0 Hl|p0 d rest ps0 ds0 Hp Hd Hrest]; subst.
  - apply split_end. cbn [occurs_fence]. now rewrite Hc.
  - change (c :: p ++ d ++ rest) with ((c :: p) ++ d ++ rest).
    apply split_at; try assumption.
    cbn [app occurs_fence]. rewrite Hp, orb_false_r.
    destruct Hd as [(tag & _ & ->)|[-> _]];
      (rewrite <- Hc; destruct p as [|y [|z p]]; reflexivity).
Qed.

Lemma fence_split_eq (l k : units) (ps ds : list units) :
  l = k -> fence_split k ps ds -> fence_split l ps ds.
Proof. now intros ->. Qed.

(** The split made by the code is the split on the fence delimiter. *)
Lemma split_fence_units_spec (l : units) :
  fence_split l (split_fence_units 0 l) (fence_markers 0 l).
Proof.
  remember (length l) as n eqn:Hn. revert l Hn.
  induction n as [n IH] using lt_wf_ind. intros l Hn.
  destruct l as [|c l]; [apply split_end; reflexivity|].
  cbn [split_fence_units fence_markers].
  destruct (fence_length (c :: l)) as [[|m]|] eqn:E.
  - apply fence_length_delimiter in E as [E _]. lia.
  - destruct (fence_length_delimiter _ _ E) as [_ Hd].
    rewrite split_fence_units_skip, (fence_markers_skip m l).
    cbn [drop] in Hd.
    apply (fence_split_eq _ ([] ++ take (S m) (c :: l) ++ drop m l)).
    + symmetry. apply (take_drop (S m) (c :: l)).
    + apply split_at; [reflexivity | exact Hd |].
      apply (IH (length (drop m l))); [|reflexivity].
      rewrite length_drop. subst n. cbn. lia.
  - apply fence_length_starts in E.
    assert (H : fence_split l (split_fence_units 0 l) (fence_markers 0 l)).
    { apply (IH (length l)); [subst n; cbn; lia | reflexivity]. }
    destruct (split_fence_units_cons 0 l) as (p & ps & Hp). rewrite Hp in *.
    now apply fence_split_cons.
Qed.

Lemma occurs_fence_prefix (p x : units) :
  occurs_fence (p ++ x) = false -> occurs_fence p = false.
Proof.
  induction p as [|c p IH]; [reflexivity|]. cbn [app occurs_fence].
  intros H. apply orb_false_iff in H as [Hhere Hlater].
  rewrite (IH Hlater), orb_false_r.
  exact (starts_fence_prefix (c :: p) x Hhere).
Qed.

(** No part of a split holds three backticks. *)
Lemma fence_split_parts (l : units) (ps ds : list units) :
  fence_split l ps ds -> Forall (fun p => occurs_fence p = false) ps.
Proof.
  induction 1 as [l Hl|p d rest ps ds Hp Hd Hrest IH].
  - now repeat constructor.
  - constructor; [|exact IH]. exact (occurs_fence_prefix _ _ Hp).
Qed.

Lemma fence_markers_without_fence (l : units) :
  occurs_fence l = false -> fence_markers 0 l = [].
Proof.
  induction l as [|c l IH]; [reflexivity|]. cbn [occurs_fence].
  intros H. apply orb_false_iff in H as [Hhere Hlater].
  cbn [fence_markers]. rewrite (fence_length_none _ Hhere). now apply IH.
Qed.

(** The delimiter found at a place is the match of the pattern there. *)
Lemma delimiter_at_length (d rest : units) :
  delimiter_at d rest -> fence_length (d ++ rest) = Some (length d).
Proof.
  intros [(tag & Htag & ->)|[-> Hnot]].
  - apply tag_units_words in Htag.
    assert (E : (three_backticks ++ tag ++ [newline]) ++ rest
                = backtick :: backtick :: backtick :: tag ++ newline :: rest).
    { unfold three_backticks. cbn [app]. now rewrite <- app_assoc. }
    rewrite E. unfold fence_length.
    replace (is_backtick backtick) with true by reflexivity. cbn [andb]. cbv zeta.
    rewrite (word_run_app tag newline rest Htag eq_refl), drop_app_length.
    replace (is_newline newline) with true by reflexivity.
    f_equal. unfold three_backticks. cbn [app length]. rewrite length_app. cbn. lia.
  - unfold three_backticks. cbn [app length]. unfold fence_length.
    replace (is_backtick backtick) with true by reflexivity. cbn [andb]. cbv zeta.
    destruct (drop (length (word_run rest)) rest) as [|d tail] eqn:Ed; [reflexivity|].
    destruct (is_newline d) eqn:En; [|reflexivity].
    exfalso. apply is_newline_eq in En. subst d.
    apply (Hnot (word_run rest) tail).
    + apply tag_units_words, word_run_words.
    + rewrite <- Ed. apply word_run_prefix.
Qed.

Lemma split_at_delimiter (p d rest : units) :
  occurs_fence (p ++ two_backticks) = false -> delimiter_at d rest ->
  split_fence_units 0 (p ++ d ++ rest) = p :: split_fence_units 0 rest
  /\ fence_markers 0 (p ++ d ++ rest) = d :: fence_markers 0 rest.
Proof.
  intros Hp Hd. pose proof (delimiter_at_length d rest Hd) as Hlen.
  assert (Hd3 : exists d', d = three_backticks ++ d').
  { destruct Hd as [(tag & _ & ->)|[-> _]]; [eauto|].
    exists []. now rewrite app_nil_r. }
  induction p as [|c p IH].
  - cbn [app].
    assert (Htake : take (length d) (d ++ rest) = d) by apply take_app_length.
    assert (Hdrop : drop (length d) (d ++ rest) = rest) by apply drop_app_length.
    destruct Hd3 as [d' Hd3].
    destruct (length d) as [|m] eqn:Em; [rewrite Hd3 in Em; discriminate Em|].
    destruct (d ++ rest) as [|c l] eqn:E; [discriminate Hlen|].
    cbn [split_fence_units fence_markers]. rewrite Hlen.
    rewrite split_fence_units_skip, (fence_markers_skip m l).
    cbn [drop] in Hdrop. now rewrite Hdrop, Htake.
  - cbn [app occurs_fence] in Hp. apply orb_false_iff in Hp as [Hhere Hlater].
    assert (Hstart : starts_fence (c :: p ++ d ++ rest) = false).
    { destruct Hd3 as [d' ->]. rewrite <- Hhere.
      destruct p as [|y [|z p]]; reflexivity. }
    cbn [app split_fence_units fence_markers].
    rewrite (fence_length_none _ Hstart).
    destruct (IH Hlater) as [-> ->]. now split.
Qed.

(** The split on the fence delimiter is the one the code makes, and no
    other. *)
Lemma fence_split_unique (l : units) (ps ds : list units) :
  fence_split l ps ds ->
  ps = split_fence_units 0 l /\ ds = fence_markers 0 l.
Proof.
  induction 1 as [l Hl|p d rest ps ds Hp Hd Hrest [-> ->]].
  - now rewrite (split_without_fence l Hl), (fence_markers_without_fence l Hl).
  - destruct (split_at_delimiter p d rest Hp Hd) as [-> ->]. now split.
Qed.

Lemma chars_split_fence (text : string) :
  map chars (split_fence text) = split_fence_units 0 (chars text).
Proof.
  unfold split_fence. rewrite map_map.
  rewrite <- (map_id (split_fence_units 0 (chars text))) at 2.
  apply map_ext. intros. apply chars_str.
Qed.

(** *** The start test *)

Lemma drop_spaces_blank_prefix (l : units) :
  exists a, forallb is_space a = true /\ l = a ++ drop_spaces l.
Proof.
  induction l as [|c l (a & Ha & IH)]; [now exists []|]. cbn.
  destruct (is_space c) eqn:E; [|now exists []].
  exists (c :: a). cbn. rewrite E, Ha. split; [reflexivity|]. now rewrite <- IH.
Qed.

Lemma drop_spaces_after_blank (a : units) (x : ascii) (r : units) :
  forallb is_space a = true -> is_space x = false ->
  drop_spaces (a ++ x :: r) = x :: r.
Proof.
  intros Ha Hx. induction a as [|c a IH]; cbn; [now rewrite Hx|].
  cbn in Ha. apply andb_prop in Ha as [Hc Ha]. rewrite Hc. now apply IH.
Qed.

Lemma trim_units_prefix (l : units) : exists b, drop_spaces l = trim_units l ++ b.
Proof.
  destruct (drop_spaces_suffix (rev (drop_spaces l))) as [b Hb].
  exists (rev b). unfold trim_units.
  now rewrite <- rev_app_distr, <- Hb, rev_involutive.
Qed.

(** The test [text.trim().startsWith(fence)] holds exactly for the texts
    that go on with three backticks after their leading white space. *)
Lemma opens_with_fence_spec (text : string) :
  startsWith (trim text) fence = true <-> opens_with_fence text.
Proof.
  unfold startsWith, trim, fence. rewrite !chars_str.
  change [backtick; backtick; backtick] with three_backticks.
  rewrite starts_with_fence. split.
  - intros H.
    destruct (drop_spaces_blank_prefix (chars text)) as (a & Ha & Hl).
    destruct (trim_units_prefix (chars text)) as (b & Hb).
    destruct (trim_units (chars text)) as [|x [|y [|z r]]]; try discriminate.
    cbn in H. apply andb_prop in H as [H Hz]. apply andb_prop in H as [Hx Hy].
    apply is_backtick_eq in Hx, Hy, Hz. subst x y z.
    exists a, (r ++ b). split; [now apply blank_units_spaces|].
    etransitivity; [exact Hl|]. now rewrite Hb.
  - intros (blank & rest & Hblank & Hl). rewrite Hl.
    apply blank_units_spaces in Hblank.
    unfold trim_units, three_backticks. cbn [app].
    rewrite (drop_spaces_after_blank blank backtick _ Hblank eq_refl).
    cbn [rev]. rewrite !drop_spaces_snoc by reflexivity.
    rewrite !rev_app_distr. reflexivity.
Qed.

Lemma elem_of_rendered_kind (text : string) (opens : bool) (seg : segment) :
  startsWith (trim text) fence = opens ->
  seg ∈ rendered text <->
  exists index part,
    split_fence text !! index = Some part
    /\ not_blank (chars part)
    /\ seg = if (if opens then Nat.odd index else Nat.even index)
             then CodeBlock index (trim part)
             else TextBlock index (paragraphs_of part).
Proof.
  intros <-. rewrite elem_of_rendered. unfold segment_of.
  split; intros (index & part & Hpart & Hblank & Hseg); exists index, part;
    (split; [exact Hpart|]); (split; [|exact Hseg]).
  - now apply not_blank_spec, truthy_trim.
  - now apply truthy_trim, not_blank_spec.
Qed.

(** C3: the text is split on the fence delimiter: each delimiter is
    three backticks with the language tag (a run of letters, digits and
    underscores, possibly empty) and the newline that follow them, or
    three backticks alone when no tag and newline follow, it stands at
    the first place where three backticks begin, and the parts are what
    stands between; no other parts answer this description. A segment is emitted for exactly the parts that
    hold a unit other than white space. When the text, after its
    leading white space, goes on with three backticks, the parts at odd
    indices are code and the others text; otherwise the parts at even
    indices are code and the others text. For the text made of fenced
    [x], newline, [tail] the first segment is the code block [x]; a
    language tag goes with its fence, also after a blank first line;
    a text without a fence is one code block. *)
Theorem formatOutput_kind_by_parity (text : string) :
  fence_split (chars text) (map chars (split_fence text)) (fence_markers 0 (chars text))
  /\ (forall parts markers,
        fence_split (chars text) parts markers ->
        map chars (split_fence text) = parts)
  /\ (opens_with_fence text ->
      forall seg,
        seg ∈ rendered text <->
        exists index part,
          split_fence text !! index = Some part
          /\ not_blank (chars part)
          /\ seg = if Nat.odd index
                   then CodeBlock index (trim part)
                   else TextBlock index (paragraphs_of part))
  /\ (~ opens_with_fence text ->
      forall seg,
        seg ∈ rendered text <->
        exists index part,
          split_fence text !! index = Some part
          /\ not_blank (chars part)
          /\ seg = if Nat.even index
                   then CodeBlock index (trim part)
                   else TextBlock index (paragraphs_of part))
  /\ head (rendered fence_first_example) = Some (CodeBlock 1 "x"%string)
  /\ rendered tagged_example
     = [CodeBlock 1 "let x;"%string; TextBlock 2 ["done"%string]]
  /\ rendered untagged_example
     = [CodeBlock 1 ("c++" ++ nl ++ "x")%string]
  /\ rendered "plain words"%string = [CodeBlock 0 "plain words"%string].
Proof.
  split; [rewrite chars_split_fence; apply split_fence_units_spec|].
  split; [|split; [|split]].
  - intros parts markers H. rewrite chars_split_fence.
    now destruct (fence_split_unique _ _ _ H) as [-> _].
  - intros Hopens seg. apply (elem_of_rendered_kind text true).
    now apply opens_with_fence_spec.
  - intros Hopens seg. apply (elem_of_rendered_kind text false).
    destruct (startsWith (trim text) fence) eqn:E; [|reflexivity].
    exfalso. now apply Hopens, opens_with_fence_spec.
  - repeat split; vm_compute; reflexivity.
Qed.

(** The fenced example: it opens with a fence, so its second part is
    the only code block. *)
Lemma formatOutput_kind_by_parity_witness :
  CodeBlock 1 "x"%string ∈ rendered fence_first_example
  /\ ~ CodeBlock 0 "x"%string ∈ rendered fence_first_example.
Proof.
  assert (Hopens : opens_with_fence fence_first_example).
  { exists [], (chars ("x```" ++ nl ++ "tail")%string). split; [constructor|reflexivity]. }
  destruct (formatOutput_kind_by_parity fence_first_example) as (_ & _ & Hiff & _).
  specialize (Hiff Hopens). split.
  - apply Hiff. exists 1, "x"%string. split; [reflexivity|]. split; [|reflexivity].
    left. intros Hblank. apply blank_unit_space in Hblank. discriminate Hblank.
  - intros H. apply Hiff in H as (index & part & _ & _ & Heq).
    destruct (Nat.odd index) eqn:E; [|discriminate].
    injection Heq as <- _. discriminate.
Defined.

(** C5: the text is the parts of the split with the fence delimiters
    between them (three backticks, with the language tag and newline
    that follow them when they do), and no part holds three backticks;
    the emitted segments hold, in order, exactly the units of the parts
    that are not white space; no segment is empty or blank, a text
    segment has at least one paragraph and none of its paragraphs is
    blank; a blank part yields no segment. A language tag followed by a
    newline is stripped with its fence; units after three backticks
    that are not a tag and a newline are content. *)
Theorem formatOutput_keeps_content (text : string) :
  let parts := split_fence_units 0 (chars text) in
  let markers := fence_markers 0 (chars text) in
  fence_split (chars text) parts markers
  /\ Forall (fun part => occurs_fence part = false) parts
  /\ weave parts markers = chars text
  /\ Forall fence_marker markers
  /\ non_space (concat (map content_units (rendered text))) = non_space (concat parts)
  /\ Forall (fun seg =>
               non_space (content_units seg) <> []
               /\ match seg with
                  | CodeBlock _ content => content <> ""%string
                  | TextBlock _ paragraphs =>
                      paragraphs <> []
                      /\ Forall (fun p => p <> ""%string /\ truthy (trim p) = true)
                           paragraphs
                  end) (rendered text)
  /\ (forall index part seg,
        split_fence text !! index = Some part ->
        truthy (trim part) = false ->
        seg ∈ rendered text -> key seg <> index)
  /\ map content_units (rendered tag_inside_example)
     = [chars "intro"; chars "let x;"; chars "bye"]
  /\ map content_units (rendered untagged_example)
     = [chars ("c++" ++ nl ++ "x")].
Proof.
  cbv zeta.
  split; [apply split_fence_units_spec|].
  split; [exact (fence_split_parts _ _ _ (split_fence_units_spec (chars text)))|].
  split; [apply (weave_split 0)|].
  split; [apply fence_markers_shape|].
  split; [|split; [|split]].
  - rewrite rendered_unfold, content_of_parts by (intros; apply format_part_content).
    now rewrite chars_split_fence.
  - apply Forall_forall. intros seg Hseg.
    apply elem_of_rendered in Hseg as (i & part & _ & Ht & ->).
    split; [now apply segment_of_content|].
    pose proof (segment_of_content (startsWith (trim text) fence) i part Ht) as Hne.
    unfold segment_of in *.
    destruct (if startsWith (trim text) fence then Nat.odd i else Nat.even i).
    + now apply truthy_nonempty.
    + split.
      * intros E. simpl in Hne. rewrite E in Hne. now apply Hne.
      * apply Forall_forall. intros p Hp.
        apply list_elem_of_In, List.filter_In in Hp as [_ Hp].
        split; [|assumption].
        intros ->. discriminate Hp.
  - intros index part seg Hpart Hblank Hseg Hkey.
    apply elem_of_rendered in Hseg as (i & part' & Hi & Ht & ->).
    assert (i = index) as ->.
    { unfold segment_of in Hkey.
      now destruct (if startsWith (trim text) fence then Nat.odd i else Nat.even i). }
    congruence.
  - split; vm_compute; reflexivity.
Qed.

(** The blank first part of the fenced example yields no segment. *)
Lemma formatOutput_keeps_content_witness :
  Forall (fun seg => key seg <> 0) (rendered fence_first_example).
Proof.
  destruct (formatOutput_keeps_content fence_first_example)
    as (_ & _ & _ & _ & _ & _ & H & _).
  apply Forall_forall. intros seg Hseg.
  apply (H 0 ""%string seg); [reflexivity | reflexivity | exact Hseg].
Defined.

End SegmentClaims.

(** ** PromptEnhancer: the buttons of a library record *)

Section LibraryButtons.
Import Text Host Storage StoreSpec SessionSpec Observe PromptEnhancer EnhancerActions.
Local Open Scope string_scope.

Lemma map_by_id_inserts {A} (f : A -> string) (g : A -> A) (l : list A)
    (i : nat) (p : A) :
  List.NoDup (map f l) -> l !! i = Some p ->
  map (fun q => if String.eqb (f q) (f p) then g q else q) l = <[i := g p]> l.
Proof.
  revert i. induction l as [|x l IH]; intros i Hnd Hi; [discriminate|].
  inversion Hnd as [|? ? Hx Hnd']; subst.
  destruct i as [|i]; cbn in Hi |- *.
  - injection Hi as ->. rewrite String.eqb_refl. f_equal.
    rewrite <- (map_id l) at 2. apply map_ext_in. intros q Hq.
    destruct (String.eqb_spec (f q) (f p)) as [Heq|]; [|reflexivity].
    exfalso. apply Hx. rewrite <- Heq. now apply in_map.
  - assert (Hne : f x <> f p).
    { intros Heq. apply Hx. rewrite Heq. apply in_map.
      apply list_elem_of_In, list_elem_of_lookup. eauto. }
    apply String.eqb_neq in Hne. rewrite Hne. f_equal. now apply IH.
Qed.

(** X17: while the ids of the library are pairwise different, the star
    of the record at a position negates the favorite flag of that record
    and changes nothing else, and its delete button removes that record
    and no other. *)
Theorem library_buttons_hit_the_clicked_record (w : World) (i : nat)
    (clicked : EnhancedPrompt.t)
    (Hunique : List.NoDup (map EnhancedPrompt.id (savedPrompts (state w))))
    (Hclicked : savedPrompts (state w) !! i = Some clicked) :
  savedPrompts (state (perform w (ClickFavorite i)))
  = <[i := EnhancedPrompt.mk (EnhancedPrompt.id clicked)
             (EnhancedPrompt.originalPrompt clicked)
             (EnhancedPrompt.enhancedPrompt clicked)
             (EnhancedPrompt.systemPrompt clicked) (EnhancedPrompt.category clicked)
             (EnhancedPrompt.createdAt clicked)
             (negb (EnhancedPrompt.favorite clicked))]> (savedPrompts (state w))
  /\ savedPrompts (state (perform w (ClickDelete i)))
     = delete i (savedPrompts (state w)).
Proof.
  cbn [perform]. rewrite Hclicked. split.
  - unfold toggleFavorite.
    match goal with
    | |- context [store ?l w] => destruct (PromptEnhancer_store_saved l w) as [_ ->]
    end.
    exact (map_by_id_inserts EnhancedPrompt.id
             (fun p => EnhancedPrompt.mk (EnhancedPrompt.id p)
                         (EnhancedPrompt.originalPrompt p)
                         (EnhancedPrompt.enhancedPrompt p)
                         (EnhancedPrompt.systemPrompt p) (EnhancedPrompt.category p)
                         (EnhancedPrompt.createdAt p)
                         (negb (EnhancedPrompt.favorite p)))
             _ i clicked Hunique Hclicked).
  - unfold deletePrompt.
    match goal with
    | |- context [store ?l w] => destruct (PromptEnhancer_store_saved l w) as [_ ->]
    end.
    now apply (filter_by_id_deletes EnhancedPrompt.id).
Qed.

Lemma library_buttons_hit_the_clicked_record_witness :
  savedPrompts (state (perform Samples.library_of_two (ClickDelete 0)))
  = [EnhancedPrompt.mk "b" "p2" "e2" "s" "Coding" (EnhancedPrompt.DateObject 2000) true].
Proof.
  refine (proj2 (library_buttons_hit_the_clicked_record Samples.library_of_two 0
                   (EnhancedPrompt.mk "a" "p1" "e1" "s" "General"
                      (EnhancedPrompt.IsoString 1000) false) _ eq_refl)).
  repeat constructor; cbn; intuition discriminate.
Defined.

(** X18: while the enhance button is enabled, a click on it posts
    exactly one request and never rejects; the button is enabled only
    for a base prompt that is not blank and while nothing is loading. *)
Theorem enabled_enhance_posts_once
    (apiEndpoint : string) (hasLoadingHandler isLoading : bool) (st : State)
    (net : reply) (Henabled : enhance_disabled isLoading st = false) :
  length (requests (trace (enhancePrompt apiEndpoint hasLoadingHandler
                             (basePrompt st) net))) = 1
  /\ completion (enhancePrompt apiEndpoint hasLoadingHandler (basePrompt st) net)
     = inr tt
  /\ truthy (trim (basePrompt st)) = true
  /\ isLoading = false /\ isEnhancing st = false.
Proof.
  unfold enhance_disabled, currentlyLoading in Henabled.
  apply orb_false_iff in Henabled as [Hbase Hloading].
  apply negb_false_iff in Hbase. apply orb_false_iff in Hloading as [H1 H2].
  destruct (enhancePrompt_run apiEndpoint hasLoadingHandler (basePrompt st) net Hbase)
    as (Hc & _ & Hr).
  rewrite Hr. now repeat split.
Qed.

Lemma enabled_enhance_posts_once_witness :
  length (requests (trace (enhancePrompt "http://localhost:1234" true "a poem"
                             (Rejects (ErrorObject "Failed to fetch"))))) = 1.
Proof.
  exact (proj1 (enabled_enhance_posts_once "http://localhost:1234" true false
                  (state Samples.enhancer_with_result)
                  (Rejects (ErrorObject "Failed to fetch")) eq_refl)).
Defined.

End LibraryButtons.
